(** * Hanzo crate publishing scripts: a shallow embedding

    The repository holds three near-identical publishing scripts and two
    one-shot fixers.  This development embeds the three publishers

    - [publish-hanzo-improved.py]   (module [Improved]: parsed TOML document),
    - [publish-hanzo-automated.py]  (module [Automated]: regular expressions
      over the manifest text, live registry of published crates),
    - [publish-all-hanzo-crates.py] (module [AllCrates]: literal text fixes,
      interactive continuation),

    and states the properties of the manifest resolver and of the publish
    loop over them.  Python values are modelled as they are at run time:
    strings as [string] (bytes of ASCII text), dictionaries as association
    lists in insertion order, exceptions as the [Raise] case of a result
    type, the file system and the registry as an explicit world that is
    threaded through the calls. *)

From Stdlib Require Import String Ascii List ZArith Bool Arith Lia Permutation.
Import ListNotations.
Open Scope string_scope.

(* ================================================================== *)
(** ** Python strings *)
(* ================================================================== *)

Module Py.

(** The double quote and the newline, written by code. *)
Definition dq : string := String "034"%char EmptyString.
Definition nl : string := String "010"%char EmptyString.

(** [s[n:]] *)
Fixpoint drop (n : nat) (s : string) : string :=
  match n, s with
  | S k, String _ t => drop k t
  | _, _ => s
  end.

(** [s[:n]] *)
Fixpoint take (n : nat) (s : string) : string :=
  match n, s with
  | S k, String c t => String c (take k t)
  | _, _ => EmptyString
  end.

(** [hay.startswith(p)] is [String.prefix p hay]. *)
Definition startswith (hay p : string) : bool := prefix p hay.

(** [needle in hay] for two strings. *)
Fixpoint contains (needle hay : string) : bool :=
  if prefix needle hay then true
  else match hay with
       | EmptyString => false
       | String _ t => contains needle t
       end.

(** [s.replace(old, new)] for a non-empty [old]: occurrences are replaced
    from the left and do not overlap.  [skip] counts the characters of the
    occurrence just replaced that are still to be passed over. *)
Fixpoint replace_from (old new s : string) (skip : nat) : string :=
  match s with
  | EmptyString => EmptyString
  | String c t =>
      match skip with
      | S k => replace_from old new t k
      | O => if prefix old s
             then new ++ replace_from old new t (String.length old - 1)
             else String c (replace_from old new t 0)
      end
  end.

Definition replace (old new s : string) : string := replace_from old new s 0.

Definition is_upper (c : ascii) : bool :=
  ((65 <=? nat_of_ascii c) && (nat_of_ascii c <=? 90))%nat.
Definition is_lower (c : ascii) : bool :=
  ((97 <=? nat_of_ascii c) && (nat_of_ascii c <=? 122))%nat.
Definition is_digit (c : ascii) : bool :=
  ((48 <=? nat_of_ascii c) && (nat_of_ascii c <=? 57))%nat.

Definition to_lower (c : ascii) : ascii :=
  if is_upper c then ascii_of_nat (nat_of_ascii c + 32) else c.
Definition to_upper (c : ascii) : ascii :=
  if is_lower c then ascii_of_nat (nat_of_ascii c - 32) else c.

(** [s.lower()] on ASCII text; bytes of other characters are kept. *)
Fixpoint lower (s : string) : string :=
  match s with
  | EmptyString => EmptyString
  | String c t => String (to_lower c) (lower t)
  end.

(** [s.title()]: a letter that follows a letter is lower-cased, any other
    letter is upper-cased. *)
Fixpoint title_from (after_letter : bool) (s : string) : string :=
  match s with
  | EmptyString => EmptyString
  | String c t =>
      if is_upper c || is_lower c
      then String (if after_letter then to_lower c else to_upper c)
                  (title_from true t)
      else String c (title_from false t)
  end.

Definition title (s : string) : string := title_from false s.

(** [sep.join(l)] *)
Fixpoint join (sep : string) (l : list string) : string :=
  match l with
  | [] => EmptyString
  | [x] => x
  | x :: t => x ++ sep ++ join sep t
  end.

(** [repr] of a string without quotes or escapes in it, and [str] of a
    list of such strings, as an f-string prints it: ['a', 'b']. *)
Definition repr_str (s : string) : string := "'" ++ s ++ "'".
Definition str_list (l : list string) : string :=
  "[" ++ join ", " (map repr_str l) ++ "]".

(** [key.split(".", 1)] when the separator occurs: the text before the first
    separator and the text after it. *)
Fixpoint split_once (sep : ascii) (s : string) : option (string * string) :=
  match s with
  | EmptyString => None
  | String c t =>
      if Ascii.eqb c sep then Some (EmptyString, t)
      else match split_once sep t with
           | Some (a, b) => Some (String c a, b)
           | None => None
           end
  end.

(** Exceptions carry their class and [str(e)]. *)
Record exn := Exn { exn_class : string; exn_str : string }.

Definition TypeError : exn := Exn "TypeError" "".
Definition AttributeError : exn := Exn "AttributeError" "".
Definition KeyError (k : string) : exn := Exn "KeyError" (repr_str k).
Definition FileNotFoundError (p : string) : exn :=
  Exn "FileNotFoundError" ("[Errno 2] No such file or directory: " ++ repr_str p).

(** The outcome of evaluating an expression or running a statement. *)
Inductive res (A : Type) : Type :=
| Ok (a : A)
| Raise (e : exn).
Arguments Ok {A} a.
Arguments Raise {A} e.

Definition bind {A B} (m : res A) (f : A -> res B) : res B :=
  match m with
  | Ok a => f a
  | Raise e => Raise e
  end.

(** [for x in l: a = f(x, a)], stopping at the first exception. *)
Fixpoint for_each {A S} (f : A -> S -> res S) (l : list A) (s : S) : res S :=
  match l with
  | [] => Ok s
  | x :: t => bind (f x s) (for_each f t)
  end.

(** Each element rewritten in place, stopping at the first exception. *)
Fixpoint map_res {A B} (f : A -> res B) (l : list A) : res (list B) :=
  match l with
  | [] => Ok []
  | x :: t => bind (f x) (fun y => bind (map_res f t) (fun t' => Ok (y :: t')))
  end.

End Py.

Declare Scope py_scope.
Delimit Scope py_scope with py.
Notation "x <- m ;; k" := (Py.bind m (fun x => k))
  (at level 61, m at next level, right associativity) : py_scope.
Notation "' p <- m ;; k" := (Py.bind m (fun p => k))
  (at level 61, p pattern, m at next level, right associativity) : py_scope.

(* ================================================================== *)
(** ** Regular expressions of the [re] module *)
(* ================================================================== *)

Module Re.
Import Py.

(** The fragment the scripts use.  Group 0 is the whole match and the only
    numbered group is group 1. *)
Inductive regex : Type :=
| Lit (s : string)               (* literal text *)
| Class (p : ascii -> bool)      (* one character of a class *)
| Cat (a b : regex)              (* a b *)
| Star (a : regex)               (* a*   greedy *)
| LazyStar (a : regex)           (* a*?  *)
| Group (a : regex).             (* ( a ) *)

Definition Plus (a : regex) : regex := Cat a (Star a).

Fixpoint seq (l : list regex) : regex :=
  match l with
  | [] => Lit ""
  | [a] => a
  | a :: t => Cat a (seq t)
  end.

(** [\s], [\w] and [.] on ASCII text. *)
Definition space (c : ascii) : bool :=
  let n := nat_of_ascii c in
  (((9 <=? n) && (n <=? 13)) || ((28 <=? n) && (n <=? 32)))%nat.
Definition word (c : ascii) : bool :=
  is_upper c || is_lower c || is_digit c || (nat_of_ascii c =? 95)%nat.
Definition dot (c : ascii) : bool := negb (nat_of_ascii c =? 10)%nat.

(** A backtracking matcher in continuation-passing style: [exec r s g k]
    matches [r] at the start of [s], then hands the rest of the subject and
    the text of group 1 to [k]; when [k] fails the matcher backtracks into
    [r].  Alternatives are tried in the order of [re]: a greedy star tries
    one more iteration first, a lazy star tries to stop first.  An iteration
    has to consume a character (every starred expression here does). *)
Fixpoint exec {X} (r : regex) (s : string) (g : option string)
         (k : string -> option string -> option X) : option X :=
  match r with
  | Lit l => if prefix l s then k (drop (String.length l) s) g else None
  | Class p =>
      match s with
      | String c t => if p c then k t g else None
      | EmptyString => None
      end
  | Cat a b => exec a s g (fun s' g' => exec b s' g' k)
  | Star a =>
      (fix loop (n : nat) (s : string) (g : option string) : option X :=
         match n with
         | O => k s g
         | S n' =>
             match exec a s g (fun s' g' =>
                     if (String.length s' <? String.length s)%nat
                     then loop n' s' g' else None) with
             | Some x => Some x
             | None => k s g
             end
         end) (String.length s) s g
  | LazyStar a =>
      (fix loop (n : nat) (s : string) (g : option string) : option X :=
         match n with
         | O => k s g
         | S n' =>
             match k s g with
             | Some x => Some x
             | None =>
                 exec a s g (fun s' g' =>
                     if (String.length s' <? String.length s)%nat
                     then loop n' s' g' else None)
             end
         end) (String.length s) s g
  | Group a =>
      exec a s g (fun s' _ =>
        k s' (Some (take (String.length s - String.length s') s)))
  end.

(** [pattern.match(s)]: the matched text, group 1 and the rest. *)
Definition match_at (r : regex) (s : string)
  : option (string * option string * string) :=
  exec r s None (fun s' g =>
    Some (take (String.length s - String.length s') s, g, s')).

(** [re.sub(r, repl, s)] with a function [repl] of the match (its group 0
    and group 1): the subject is scanned from the left, every match found
    is replaced and the scan goes on after it.  No pattern of the scripts
    matches the empty string; such a match is passed over. *)
Fixpoint sub_from (r : regex) (repl : string -> option string -> string)
         (s : string) (skip : nat) : string :=
  match s with
  | EmptyString => EmptyString
  | String c t =>
      match skip with
      | S k => sub_from r repl t k
      | O =>
          match match_at r s with
          | Some (m, g, _) =>
              match String.length m with
              | O => String c (sub_from r repl t 0)
              | S k => repl m g ++ sub_from r repl t k
              end
          | None => String c (sub_from r repl t 0)
          end
      end
  end.

Definition sub (r : regex) (repl : string -> option string -> string)
           (s : string) : string :=
  sub_from r repl s 0.

(** A replacement template without back-references. *)
Definition const (text : string) : string -> option string -> string :=
  fun _ _ => text.

(** The template [\1 text]. *)
Definition after_group1 (text : string) : string -> option string -> string :=
  fun _ g => match g with Some x => x ++ text | None => text end.

End Re.

(* ================================================================== *)
(** ** Python dictionaries with string keys *)
(* ================================================================== *)

Module Dict.

(** A dictionary in insertion order.  Keys are unique in every dictionary
    Python builds; the operations below read and write the first entry of a
    key. *)
Definition t (V : Type) : Type := list (string * V).

(** [d.get(k)]; [None] is Python's [None]. *)
Fixpoint get {V} (k : string) (d : t V) : option V :=
  match d with
  | [] => None
  | (k', v) :: r => if String.eqb k k' then Some v else get k r
  end.

(** [k in d] *)
Definition has {V} (k : string) (d : t V) : bool :=
  match get k d with Some _ => true | None => false end.

(** [d[k] = v]: an existing key keeps its place, a new key goes last. *)
Fixpoint set {V} (k : string) (v : V) (d : t V) : t V :=
  match d with
  | [] => [(k, v)]
  | (k', v') :: r =>
      if String.eqb k k' then (k, v) :: r else (k', v') :: set k v r
  end.

(** The dictionary after [d.pop(k)]. *)
Definition remove {V} (k : string) (d : t V) : t V :=
  filter (fun kv => negb (String.eqb k (fst kv))) d.

(** [list(d.keys())] *)
Definition keys {V} (d : t V) : list string := map fst d.

End Dict.

(* ================================================================== *)
(** ** Documents returned by [toml.loads] *)
(* ================================================================== *)

Module Toml.
Import Py.

(** A TOML document as Python holds it: strings, integers, booleans,
    arrays (lists) and tables (dictionaries).  Floats and dates do not
    occur in a Cargo manifest and are left out. *)
#[warnings="-register-all"]
Inductive value : Type :=
| VStr (s : string)
| VInt (z : Z)
| VBool (b : bool)
| VList (l : list value)
| VDict (d : list (string * value)).

Definition dict : Type := Dict.t value.

Abbreviation get := Dict.get.
Abbreviation has := Dict.has.
Abbreviation set := Dict.set.
Abbreviation remove := Dict.remove.
Abbreviation keys := Dict.keys.

(** [v == True]: [True] equals itself and the integer 1. *)
Definition eq_True (v : value) : bool :=
  match v with
  | VBool b => b
  | VInt z => Z.eqb z 1
  | _ => false
  end.

(** [v == s] for a string [s]. *)
Definition eq_str (s : string) (v : value) : bool :=
  match v with
  | VStr t => String.eqb s t
  | _ => false
  end.

(** [bool(v)] *)
Definition truthy (v : value) : bool :=
  match v with
  | VStr s => negb (String.eqb s "")
  | VInt z => negb (Z.eqb z 0)
  | VBool b => b
  | VList l => match l with [] => false | _ => true end
  | VDict d => match d with [] => false | _ => true end
  end.

(** [s in v]: membership in a list, a key of a dictionary, a substring of a
    string; integers and booleans are not containers. *)
Definition py_in (s : string) (v : value) : res bool :=
  match v with
  | VList l => Ok (existsb (eq_str s) l)
  | VDict d => Ok (has s d)
  | VStr t => Ok (contains s t)
  | VInt _ | VBool _ => Raise TypeError
  end.

(** The object [v] after [v.append(x)]: only lists have the method. *)
Definition py_append (v : value) (x : value) : res value :=
  match v with
  | VList l => Ok (VList (l ++ [x]))
  | _ => Raise AttributeError
  end.

(** [d.get('workspace') == True] *)
Definition workspace_true (d : dict) : bool :=
  match get "workspace" d with
  | Some v => eq_True v
  | None => false
  end.

(** A dependency declaration that defers to the workspace:
    [isinstance(v, dict) and v.get('workspace') == True]. *)
Definition inherited (v : value) : bool :=
  match v with
  | VDict d => workspace_true d
  | _ => false
  end.

Definition strs (l : list string) : value := VList (map VStr l).

End Toml.

(* ================================================================== *)
(** ** Statements that change a state and may raise *)
(* ================================================================== *)

Module St.
Import Py.

Definition M (S A : Type) : Type := S -> S * res A.

Definition ret {S A} (a : A) : M S A := fun s => (s, Ok a).

Definition raise {S A} (e : exn) : M S A := fun s => (s, Raise e).

Definition bind {S A B} (m : M S A) (f : A -> M S B) : M S B :=
  fun s => match m s with
           | (s', Ok a) => f a s'
           | (s', Raise e) => (s', Raise e)
           end.

(** [try: m except Exception as e: h(e)] *)
Definition try_except {S A} (m : M S A) (h : exn -> M S A) : M S A :=
  fun s => match m s with
           | (s', Raise e) => h e s'
           | r => r
           end.

(** [try: m finally: fin]: [fin] runs on every way out of [m]; the outcome
    is that of [m] unless [fin] raises itself. *)
Definition try_finally {S A B} (m : M S A) (fin : M S B) : M S A :=
  fun s => match m s with
           | (s1, r) =>
               match fin s1 with
               | (s2, Ok _) => (s2, r)
               | (s2, Raise e) => (s2, Raise e)
               end
           end.

Definition lift {S A} (r : res A) : M S A := fun s => (s, r).
Definition gets {S A} (f : S -> A) : M S A := fun s => (s, Ok (f s)).
Definition modify {S} (f : S -> S) : M S unit := fun s => (f s, Ok tt).

End St.

Declare Scope st_scope.
Delimit Scope st_scope with st.
Notation "x <~ m ;; k" := (St.bind m (fun x => k))
  (at level 61, m at next level, right associativity) : st_scope.
Notation "' p <~ m ;; k" := (St.bind m (fun p => k))
  (at level 61, p pattern, m at next level, right associativity) : st_scope.
Notation "m ;;; k" := (St.bind m (fun _ => k))
  (at level 61, right associativity) : st_scope.

(* ================================================================== *)
(** ** The machine the scripts run on *)
(* ================================================================== *)

Module Os.
Import Py St.
Local Open Scope st_scope.

(** The directory of one crate under the base path: its manifest
    [Cargo.toml] and the copy the script puts beside it
    ([Cargo.toml.bak], [Cargo.toml.backup]); [None] is a file that does
    not exist. *)
Record crate_dir : Type := Dir {
  cargo_toml : option string;
  backup : option string
}.

(** The crate directories by crate name; [None]: no such directory. *)
Definition filesystem : Type := string -> option crate_dir.

Definition put (fs : filesystem) (crate : string) (d : crate_dir)
  : filesystem :=
  fun c => if String.eqb c crate then Some d else fs c.

(** What [subprocess.run] gives: a completed process, or an exception when
    the command could not be run. *)
Inductive proc : Type :=
| Completed (returncode : Z) (stdout stderr : string)
| NotRun (e : exn).

(** What an observer of the run sees, in order. *)
Inductive event : Type :=
| Announced (crate : string)                 (* the line that names the crate *)
| CargoPublish (crate : string) (manifest : option string)
                                             (* cargo publish, and the manifest it read *)
| Slept                                      (* time.sleep(10) *)
| Prompted (crate : string).                 (* input("... Continue? (y/n)") *)

Section Machine.

(** The registry is outside the program: its state is of some type
    [remote], and [cargo crate manifest] is what [cargo publish
    --allow-dirty] does in the directory of [crate] whose manifest reads
    [manifest]: the new state of the registry, the process result, and the
    manifest it leaves behind.  The command does not touch the backup. *)
Variable remote : Type.
Variable cargo : remote -> string -> option string
                 -> remote * proc * option string.

Record world : Type := World {
  fs : filesystem;
  registry : remote;
  trace : list event;
  stdin : list string;                 (* the lines [input()] will read *)
  token : option string                (* CARGO_REGISTRY_TOKEN *)
}.

Definition with_fs (w : world) (f : filesystem) : world :=
  World f (registry w) (trace w) (stdin w) (token w).

Definition emit (e : event) : M world unit :=
  modify (fun w => World (fs w) (registry w) (trace w ++ [e]) (stdin w) (token w)).

(** [os.path.exists(crate_path)] *)
Definition path_exists (crate : string) : M world bool :=
  gets (fun w => match fs w crate with Some _ => true | None => false end).

(** The manifest of a crate, when the directory and the file exist. *)
Definition manifest (w : world) (crate : string) : option string :=
  match fs w crate with
  | Some d => cargo_toml d
  | None => None
  end.

(** [open(cargo_toml, 'r').read()] *)
Definition read_manifest (crate : string) : M world string :=
  fun w => match manifest w crate with
           | Some content => (w, Ok content)
           | None => (w, Raise (FileNotFoundError (crate ++ "/Cargo.toml")))
           end.

(** [open(cargo_toml, 'w').write(content)] *)
Definition write_manifest (crate content : string) : M world unit :=
  fun w => match fs w crate with
           | Some d =>
               (with_fs w (put (fs w) crate (Dir (Some content) (backup d))),
                Ok tt)
           | None => (w, Raise (FileNotFoundError (crate ++ "/Cargo.toml")))
           end.

(** The shell commands the scripts hand to [subprocess.run]. *)
Inductive command : Type :=
| CpBackup (crate : string)        (* cp Cargo.toml <backup> *)
| MvRestore (crate : string)       (* mv <backup> Cargo.toml *)
| CargoPublishIn (crate : string). (* cargo publish --allow-dirty, in the crate *)

(** The effect and the result of a command. *)
Definition shell (cmd : command) (w : world) : world * proc :=
  match cmd with
  | CpBackup crate =>
      match fs w crate with
      | Some (Dir (Some content) _) =>
          (with_fs w (put (fs w) crate (Dir (Some content) (Some content))),
           Completed 0 "" "")
      | _ => (w, Completed 1 "" "cp: cannot stat 'Cargo.toml': No such file or directory")
      end
  | MvRestore crate =>
      match fs w crate with
      | Some (Dir _ (Some saved)) =>
          (with_fs w (put (fs w) crate (Dir (Some saved) None)),
           Completed 0 "" "")
      | _ => (w, Completed 1 "" "mv: cannot stat: No such file or directory")
      end
  | CargoPublishIn crate =>
      match fs w crate with
      | Some d =>
          match cargo (registry w) crate (cargo_toml d) with
          | (r, p, m) =>
              (World (put (fs w) crate (Dir m (backup d))) r
                     (trace w ++ [CargoPublish crate (cargo_toml d)])
                     (stdin w) (token w),
               p)
          end
      | None => (w, NotRun (FileNotFoundError crate))
      end
  end.

(** [subprocess.run(cmd, shell=True, capture_output=True, text=True)]:
    the completed process, or the exception raised. *)
Definition subprocess_run (cmd : command) : M world (Z * string * string) :=
  fun w => match shell cmd w with
           | (w', Completed rc out err) => (w', Ok (rc, out, err))
           | (w', NotRun e) => (w', Raise e)
           end.

(** [run_command] of publish-hanzo-improved.py and
    publish-all-hanzo-crates.py, [run_cmd] of publish-hanzo-automated.py:

      try:
          result = subprocess.run(cmd, ...)
          return result.returncode == 0, result.stdout + result.stderr
      except Exception as e:
          return False, str(e)
*)
Definition run_command (cmd : command) : M world (bool * string) :=
  try_except
    ('(rc, out, err) <~ subprocess_run cmd ;;
     ret (Z.eqb rc 0, out ++ err))
    (fun e => ret (false, exn_str e)).

(** [input(prompt)]: the next line of standard input, [EOFError] at its
    end. *)
Definition input (crate : string) : M world string :=
  fun w => match stdin w with
           | line :: rest =>
               (World (fs w) (registry w) (trace w ++ [Prompted crate]) rest
                      (token w), Ok line)
           | [] => (w, Raise (Exn "EOFError" "EOF when reading a line"))
           end.

(** [not os.environ.get('CARGO_REGISTRY_TOKEN')] *)
Definition token_missing (w : world) : bool :=
  match token w with
  | Some t => String.eqb t ""
  | None => true
  end.

(** [HANZO_CRATES[-1]] *)
Definition last_crate (crates : list string) : string := last crates "".

(** [if crate_name != HANZO_CRATES[-1]: time.sleep(10)] *)
Definition settle (crates : list string) (crate_name : string) : M world unit :=
  if String.eqb crate_name (last_crate crates) then ret tt else emit Slept.

End Machine.

Arguments fs {remote} w.
Arguments registry {remote} w.
Arguments trace {remote} w.
Arguments stdin {remote} w.
Arguments token {remote} w.
Arguments World {remote}.
Arguments with_fs {remote}.
Arguments emit {remote}.
Arguments path_exists {remote}.
Arguments manifest {remote}.
Arguments read_manifest {remote}.
Arguments write_manifest {remote}.
Arguments shell {remote}.
Arguments subprocess_run {remote}.
Arguments run_command {remote}.
Arguments input {remote}.
Arguments token_missing {remote}.
Arguments settle {remote}.

(** How a run of [main] ends: [sys.exit(1)] before the first crate when the
    token is missing, else the two lists of the summary and
    [sys.exit(0 if not failed else 1)]. *)
Inductive finish : Type :=
| NoToken
| Summary (succeeded failed : list string).

Definition exit_code (f : finish) : Z :=
  match f with
  | NoToken => 1
  | Summary _ [] => 0
  | Summary _ _ => 1
  end.

End Os.

(* ================================================================== *)
(** ** publish-hanzo-improved.py: the resolver on the parsed document *)
(* ================================================================== *)

Module Improved.
Import Py Toml.
Local Open Scope py_scope.

Definition WORKSPACE_DEFAULTS : dict :=
  [ ("version", VStr "1.1.10");
    ("edition", VStr "2021");
    ("authors", strs ["Hanzo AI Inc"]);
    ("license", VStr "MIT");
    ("repository", VStr "https://github.com/hanzoai/hanzo-node");
    ("homepage", VStr "https://hanzo.ai");
    ("description", VStr "Hanzo AI component") ].

Definition DEPENDENCY_VERSIONS : Dict.t string :=
  [ ("tokio", "1.36"); ("serde", "1.0.219"); ("serde_json", "1.0.117");
    ("chrono", "0.4"); ("reqwest", "0.11.27"); ("log", "0.4.20");
    ("async-trait", "0.1.81"); ("futures", "0.3.30"); ("anyhow", "1.0.86");
    ("dashmap", "6.0"); ("ed25519-dalek", "2.1.1"); ("x25519-dalek", "2.0.1");
    ("base64", "0.22.0"); ("rusqlite", "0.31.0"); ("dirs", "5.0");
    ("clap", "4.5.4"); ("home", "0.5.5"); ("keyphrases", "0.3.2");
    ("utoipa", "4.2"); ("nalgebra", "0.32"); ("tracing", "0.1.40");
    ("lazy_static", "1.4.0"); ("once_cell", "1.19"); ("regex", "1");
    ("rmcp", "0.6"); ("bincode", "1.3.3"); ("uuid", "1.8.0"); ("csv", "1.3") ].

Definition HANZO_CRATES : list string :=
  [ "hanzo-message-primitives"; "hanzo-crypto-identities";
    "hanzo-non-rust-code"; "hanzo-pqc";
    "hanzo-embedding"; "hanzo-sqlite"; "hanzo-db"; "hanzo-did"; "hanzo-config";
    "hanzo-fs"; "hanzo-job-queue-manager"; "hanzo-libp2p-relayer"; "hanzo-mcp";
    "hanzo-kbs"; "hanzo-model-discovery"; "hanzo-hmm";
    "hanzo-tools-primitives"; "hanzo-llm"; "hanzo-sheet";
    "hanzo-wasm-runtime"; "hanzo-mining"; "hanzo-http-api" ].

(** [DEPENDENCY_VERSIONS.get(name)] *)
Abbreviation lookup := Dict.get.

(** [WORKSPACE_DEFAULTS[field]]; every field asked for is in the table. *)
Definition workspace_default (field : string) : value :=
  match get field WORKSPACE_DEFAULTS with
  | Some v => v
  | None => VStr ""
  end.

Definition workspace_version : string := "1.1.10".

(** The sections a dependency can be declared in. *)
Definition SECTIONS : list string :=
  [ "dependencies"; "dev-dependencies"; "build-dependencies" ].

(** *** fix_dependencies_table_syntax *)

(** The body of the loop for one key of the snapshot [list(data.keys())]. *)
Definition fix_table_key (key : string) (data : dict) : res dict :=
  if startswith key "dependencies." || startswith key "dev-dependencies."
  then
    match split_once "."%char key with
    | None => Ok data
    | Some (section, dep_name) =>
        let data := if has section data then data
                    else set section (VDict []) data in
        match get key data with
        | None => Raise (KeyError key)
        | Some dep_value =>
            let data := remove key data in
            let dep_value :=
              match dep_value with
              | VDict d =>
                  if workspace_true d then
                    let d1 : dict :=
                      match lookup dep_name DEPENDENCY_VERSIONS with
                      | Some v => [("version", VStr v)]
                      | None =>
                          if startswith dep_name "hanzo_"
                          then [("version", VStr workspace_version)]
                          else [("version", VStr "1.0")]
                      end in
                    if String.eqb dep_name "chrono"
                    then VDict (set "features" (strs ["serde"]) d1)
                    else if String.eqb dep_name "reqwest"
                    then VDict (set "features" (strs ["json"]) d1)
                    else if String.eqb dep_name "nalgebra"
                    then VDict (set "features" (strs ["serde-serialize"]) d1)
                    else VDict d1
                  else dep_value
              | _ => dep_value
              end in
            match get section data with
            | Some (VDict deps) =>
                Ok (set section (VDict (set dep_name dep_value deps)) data)
            | _ => Raise TypeError
            end
        end
    end
  else Ok data.

Definition fix_dependencies_table_syntax (data : dict) : res dict :=
  for_each fix_table_key (keys data) data.

(** *** fix_inline_tables *)

(** The version an inherited declaration of [dep_name] is given. *)
Definition inline_version (dep_name : string) : string :=
  match lookup dep_name DEPENDENCY_VERSIONS with
  | Some v => v
  | None =>
      if startswith dep_name "hanzo_" then workspace_version else "1.0"
  end.

(** [if name == n and f not in features: features.append(f)], the chain of
    the three crates that need a feature. *)
Definition add_required_feature (dep_name : string) (features : value)
  : res value :=
  let add (f : string) :=
    present <- py_in f features ;;
    if present then Ok features else py_append features (VStr f) in
  if String.eqb dep_name "chrono" then add "serde"
  else if String.eqb dep_name "reqwest" then add "json"
  else if String.eqb dep_name "nalgebra" then add "serde-serialize"
  else Ok features.

(** The body of the inner loop: what [data[section][dep_name]] holds after
    the iteration that saw [dep_value] there. *)
Definition fix_inline_entry (dep_name : string) (dep_value : value)
  : res value :=
  match dep_value with
  | VDict d =>
      if workspace_true d then
        let version := inline_version dep_name in
        let features :=
          match get "features" d with Some f => f | None => VList [] end in
        features <- add_required_feature dep_name features ;;
        if truthy features
        then Ok (VDict [("version", VStr version); ("features", features)])
        else Ok (VDict [("version", VStr version)])
      else Ok dep_value
  | VStr s =>
      if String.eqb s "" then
        match lookup dep_name DEPENDENCY_VERSIONS with
        | Some v => Ok (VStr v)
        | None => Ok (VStr "1.0")
        end
      else Ok dep_value
  | _ => Ok dep_value
  end.

(** [for dep_name, dep_value in data[section].items(): ...]: the loop only
    assigns to the key it is visiting, so every entry is rewritten in its
    place.  Only a table has [.items()]. *)
Definition fix_inline_section (section : string) (data : dict) : res dict :=
  match get section data with
  | None => Ok data
  | Some (VDict deps) =>
      deps' <- map_res (fun kv => v <- fix_inline_entry (fst kv) (snd kv) ;;
                                  Ok (fst kv, v)) deps ;;
      Ok (set section (VDict deps') data)
  | Some _ => Raise AttributeError
  end.

Definition fix_inline_tables (data : dict) : res dict :=
  for_each fix_inline_section SECTIONS data.

(** *** The feature passes of fix_workspace_inheritance *)

(** [x if x else default] for a version string. *)
Definition or_default (x default : string) : string :=
  if String.eqb x "" then default else x.

(** Lines 216-226: reqwest has to have the json feature.  A table without
    a features key is left as it is. *)
Definition fix_reqwest_entry (req : value) : res value :=
  match req with
  | VStr s =>
      Ok (VDict [("version", VStr (or_default s "0.11.27"));
                 ("features", strs ["json"])])
  | VDict d =>
      match get "features" d with
      | Some fs =>
          present <- py_in "json" fs ;;
          if present then Ok req
          else fs' <- py_append fs (VStr "json") ;;
               Ok (VDict (set "features" fs' d))
      | None => Ok req
      end
  | _ => Ok req
  end.

(** Lines 228-256: chrono has to have serde and nalgebra serde-serialize;
    a table without a features key is given one. *)
Definition fix_feature_entry (default_version feature : string) (x : value)
  : res value :=
  match x with
  | VStr s =>
      Ok (VDict [("version", VStr (or_default s default_version));
                 ("features", strs [feature])])
  | VDict d =>
      match get "features" d with
      | None => Ok (VDict (set "features" (strs [feature]) d))
      | Some fs =>
          present <- py_in feature fs ;;
          if present then Ok x
          else fs' <- py_append fs (VStr feature) ;;
               Ok (VDict (set "features" fs' d))
      end
  | _ => Ok x
  end.

(** [if section in data and name in data[section]: ...].  After
    [fix_inline_tables] every section that is present is a table; the test
    on anything else is not modelled and raises. *)
Definition fix_in_section (name : string) (fix_entry : value -> res value)
           (section : string) (data : dict) : res dict :=
  match get section data with
  | None => Ok data
  | Some (VDict deps) =>
      match get name deps with
      | None => Ok data
      | Some x =>
          x' <- fix_entry x ;;
          Ok (set section (VDict (set name x' deps)) data)
      end
  | Some _ => Raise TypeError
  end.

Definition fix_reqwest (data : dict) : res dict :=
  for_each (fix_in_section "reqwest" fix_reqwest_entry)
           [ "dependencies"; "dev-dependencies"; "build-dependencies" ] data.

Definition fix_chrono (data : dict) : res dict :=
  for_each (fix_in_section "chrono" (fix_feature_entry "0.4" "serde"))
           [ "dependencies"; "dev-dependencies" ] data.

Definition fix_nalgebra (data : dict) : res dict :=
  for_each (fix_in_section "nalgebra"
              (fix_feature_entry "0.32" "serde-serialize"))
           [ "dependencies"; "dev-dependencies" ] data.

(** *** The package metadata and the workspace table *)

Definition METADATA_FIELDS : list string :=
  [ "version"; "edition"; "authors"; "license"; "repository"; "homepage" ].

(** One field: a table that says [workspace = true] becomes the default. *)
Definition fix_metadata_field (field : string) (package : dict) : dict :=
  match get field package with
  | Some (VDict d) =>
      if workspace_true d then set field (workspace_default field) package
      else package
  | _ => package
  end.

Definition fix_description (package : dict) : dict :=
  match get "description" package with
  | None => set "description" (workspace_default "description") package
  | Some v =>
      if truthy v then package
      else set "description" (workspace_default "description") package
  end.

Definition fix_package (data : dict) : res dict :=
  match get "package" data with
  | None => Ok data
  | Some (VDict package) =>
      let package := fold_left (fun p f => fix_metadata_field f p)
                               METADATA_FIELDS package in
      Ok (set "package" (VDict (fix_description package)) data)
  | Some _ => Raise AttributeError
  end.

Definition add_workspace_table (data : dict) : dict :=
  if has "workspace" data then data else set "workspace" (VDict []) data.

(** *** The resolver, between [toml.loads] and [toml.dump] *)

Definition resolve (data : dict) : res dict :=
  data <- fix_package data ;;
  let data := add_workspace_table data in
  data <- fix_dependencies_table_syntax data ;;
  data <- fix_inline_tables data ;;
  data <- fix_reqwest data ;;
  data <- fix_chrono data ;;
  fix_nalgebra data.

(** *** The publish loop *)

Section Run.
Import St Os.
Local Open Scope st_scope.

Variable remote : Type.
Variable cargo : remote -> string -> option string
                 -> remote * proc * option string.

(** [toml.loads] and [toml.dumps] of the toml package: parsing raises on
    text that is not well-formed. *)
Variable toml_loads : string -> res dict.
Variable toml_dumps : dict -> string.

Definition fix_workspace_inheritance (crate : string) : M (world remote) unit :=
  content <~ read_manifest crate ;;
  data <~ lift (toml_loads content) ;;
  data <~ lift (resolve data) ;;
  write_manifest crate (toml_dumps data).

Definition publish_crate (crate_name : string) : M (world remote) bool :=
  '(success, output) <~ run_command cargo (CpBackup crate_name) ;;
  if negb success then ret false
  else
    try_finally
      (fix_workspace_inheritance crate_name ;;;
       '(success, output) <~ run_command cargo (CargoPublishIn crate_name) ;;
       if success then ret true else ret false)
      (run_command cargo (MvRestore crate_name)).

(** The [for crate_name in HANZO_CRATES] loop of [main]; [all] is the whole
    list, [crates] what is left of it. *)
Fixpoint publish_loop (all crates succeeded failed : list string)
  : M (world remote) (list string * list string) :=
  match crates with
  | [] => ret (succeeded, failed)
  | crate_name :: rest =>
      emit (Announced crate_name) ;;;
      found <~ path_exists crate_name ;;
      if negb found
      then publish_loop all rest succeeded (failed ++ [crate_name])
      else
        ok <~ publish_crate crate_name ;;
        if ok
        then settle all crate_name ;;;
             publish_loop all rest (succeeded ++ [crate_name]) failed
        else publish_loop all rest succeeded (failed ++ [crate_name])
  end.

Definition main (crates : list string) : M (world remote) finish :=
  missing <~ gets token_missing ;;
  if missing then ret NoToken
  else
    '(succeeded, failed) <~ publish_loop crates crates [] [] ;;
    ret (Summary succeeded failed).

End Run.

End Improved.

(* ================================================================== *)
(** ** publish-hanzo-automated.py *)
(* ================================================================== *)

Module Automated.
Import Py Re St Os.
Local Open Scope st_scope.

Definition WORKSPACE_DEPS : Dict.t string :=
  [ ("tokio", "1.36"); ("serde", "1.0.219"); ("serde_json", "1.0.117");
    ("chrono", "0.4"); ("reqwest", "0.11.27"); ("log", "0.4.20");
    ("async-trait", "0.1.81"); ("futures", "0.3.30"); ("anyhow", "1.0.86");
    ("dashmap", "6.0"); ("ed25519-dalek", "2.1.1"); ("x25519-dalek", "2.0.1");
    ("base64", "0.22.0"); ("rusqlite", "0.31.0"); ("dirs", "5.0");
    ("clap", "4.5.4"); ("home", "0.5.5"); ("utoipa", "4.2");
    ("tracing", "0.1.40"); ("lazy_static", "1.4.0"); ("once_cell", "1.19");
    ("regex", "1"); ("tempfile", "3.8") ].

Definition CRYPTO_FEATURES : Dict.t (list string) :=
  [ ("ed25519-dalek", ["rand_core"]);
    ("x25519-dalek", ["static_secrets"]);
    ("chrono", ["serde"]);
    ("tokio", ["rt"; "rt-multi-thread"; "macros"; "fs"; "io-util"; "net";
               "sync"; "time"]);
    ("serde", ["derive"]) ].

(** The registry of published crates as the module is loaded. *)
Definition PUBLISHED_HANZO : Dict.t string :=
  [ ("hanzo_message_primitives", "1.1.10");
    ("hanzo_non_rust_code", "1.1.10");
    ("hanzo_crypto_identities", "1.1.10");
    ("hanzo_tools_runner", "1.0.3") ].

Definition HANZO_CRATES : list string :=
  [ "hanzo-pqc"; "hanzo-embedding"; "hanzo-sqlite"; "hanzo-db"; "hanzo-did";
    "hanzo-config"; "hanzo-fs"; "hanzo-job-queue-manager";
    "hanzo-libp2p-relayer"; "hanzo-mcp"; "hanzo-kbs"; "hanzo-model-discovery";
    "hanzo-hmm"; "hanzo-tools-primitives"; "hanzo-llm"; "hanzo-sheet";
    "hanzo-wasm-runtime"; "hanzo-mining"; "hanzo-http-api" ].

(** [\s*] *)
Definition ws : regex := Star (Class space).

(** [key\s*=\s*\{\s*workspace\s*=\s*true\s*\}] *)
Definition inherited_field (key : string) : regex :=
  seq [ Lit key; ws; Lit "="; ws; Lit "{"; ws; Lit "workspace"; ws; Lit "=";
        ws; Lit "true"; ws; Lit "}" ].

(** Group 1 is the whole pattern [authors = .*\n]. *)
Definition authors_line : regex :=
  Group (seq [ Lit "authors = "; Star (Class dot); Lit nl ]).

(** The pattern of an inherited dependency, spaced out: group 1 is
    [\w+ (?: - \w+ )*], and after it come
    [\s* = \s* \{ \s* workspace \s* = \s* true .*? \}]. *)
Definition inherited_dep : regex :=
  seq [ Group (Cat (Plus (Class word))
                   (Star (Cat (Lit "-") (Plus (Class word)))));
        ws; Lit "="; ws; Lit "{"; ws; Lit "workspace"; ws; Lit "="; ws;
        Lit "true"; LazyStar (Class dot); Lit "}" ].

(** [name = "version"] *)
Definition plain_dep (dep_name version : string) : string :=
  dep_name ++ " = " ++ dq ++ version ++ dq.

(** [name = { version = "version", features = [...] }] *)
Definition featured_dep (dep_name version : string) (features : list string)
  : string :=
  dep_name ++ " = { version = " ++ dq ++ version ++ dq ++ ", features = "
           ++ str_list features ++ " }".

(** [replace_dep(match)], with [match.group(1)] and [match.group(0)]; the
    registry is read when the function is called. *)
Definition replace_dep (published : Dict.t string) (dep_name whole : string)
  : string :=
  let hanzo_key := replace "-" "_" dep_name in
  match Dict.get hanzo_key published with
  | Some version =>
      match Dict.get dep_name CRYPTO_FEATURES with
      | Some features => featured_dep dep_name version features
      | None => plain_dep dep_name version
      end
  | None =>
      match Dict.get dep_name WORKSPACE_DEPS with
      | Some version =>
          match Dict.get dep_name CRYPTO_FEATURES with
          | Some features => featured_dep dep_name version features
          | None => plain_dep dep_name version
          end
      | None => whole
      end
  end.

Definition replace_dep_match (published : Dict.t string)
  : string -> option string -> string :=
  fun whole g1 => match g1 with
                  | Some dep_name => replace_dep published dep_name whole
                  | None => whole
                  end.

(** The name the description is made of, and the description. *)
Definition described_name (crate_name : string) : string :=
  title (replace "-" " " (replace "hanzo-" "" crate_name)).

Definition description_of (crate_name : string) : string :=
  described_name crate_name ++ " for Hanzo AI platform".

(** [if key not in content:] the line is put after every authors line. *)
Definition add_after_authors (key line content : string) : string :=
  if contains key content then content
  else sub authors_line (after_group1 (line ++ nl)) content.

Section Text.

(** The description is put into a replacement template, which [re] reads
    for escapes before it looks for a match.  A name without a backslash is
    put in as it is; what [re] makes of a template with a name that holds
    one (an exception, or a replacement that depends on the match) is left
    to [escapes]. *)
Variable escapes : string -> res (string -> option string -> string).

Definition description_template (crate_name : string)
  : res (string -> option string -> string) :=
  if contains "\" (described_name crate_name)
  then escapes (described_name crate_name)
  else Ok (after_group1 ("description = " ++ dq ++ description_of crate_name
                         ++ dq ++ nl)).

Definition add_description (crate_name content : string) : res string :=
  if contains "description =" content then Ok content
  else Py.bind (description_template crate_name)
               (fun template => Ok (sub authors_line template content)).

(** The text [create_fixed_cargo_toml] makes of the manifest text. *)
Definition fixed_content (published : Dict.t string)
           (crate_name content : string) : res string :=
  let content := sub (inherited_field "version")
                     (const ("version = " ++ dq ++ "1.1.10" ++ dq)) content in
  let content := sub (inherited_field "edition")
                     (const ("edition = " ++ dq ++ "2021" ++ dq)) content in
  let content := sub (inherited_field "authors")
                     (const ("authors = [" ++ dq ++ "Hanzo AI Inc" ++ dq ++ "]"))
                     content in
  let content := add_after_authors "license ="
                     ("license = " ++ dq ++ "MIT" ++ dq) content in
  let content := add_after_authors "repository ="
                     ("repository = " ++ dq
                      ++ "https://github.com/hanzoai/hanzo-node" ++ dq)
                     content in
  let content := add_after_authors "homepage ="
                     ("homepage = " ++ dq ++ "https://hanzo.ai" ++ dq)
                     content in
  Py.bind (add_description crate_name content)
          (fun content =>
             Ok (sub inherited_dep (replace_dep_match published) content)).

End Text.

(** The program state: the module's registry of published crates and the
    machine. *)
Record state (remote : Type) : Type := State {
  published : Dict.t string;
  os : world remote
}.
Arguments State {remote}.
Arguments published {remote} s.
Arguments os {remote} s.

(** The state the script starts in: the registry as the module defines
    it. *)
Definition start {remote} (w : world remote) : state remote :=
  State PUBLISHED_HANZO w.

Section Run.

Variable remote : Type.
Variable cargo : remote -> string -> option string
                 -> remote * proc * option string.
Variable escapes : string -> res (string -> option string -> string).

(** A statement on the machine, run in the program state. *)
Definition on_os {A} (m : M (world remote) A) : M (state remote) A :=
  fun s => match m (os s) with
           | (w, r) => (State (published s) w, r)
           end.

(** [subprocess.run(cmd, shell=True, check=True)] *)
Definition check_run (cmd : command) : M (world remote) unit :=
  '(rc, _, _) <~ subprocess_run cargo cmd ;;
  if Z.eqb rc 0 then ret tt
  else raise (Exn "CalledProcessError" "Command returned non-zero exit status").

Definition create_fixed_cargo_toml (crate_name : string)
  : M (state remote) string :=
  content <~ on_os (read_manifest crate_name) ;;
  registry_now <~ gets published ;;
  lift (fixed_content escapes registry_now crate_name content).

(** [success or 'already uploaded' in output.lower()] *)
Definition accepted (success : bool) (output : string) : bool :=
  success || contains "already uploaded" (lower output).

Definition publish_crate (crate_name : string) : M (state remote) bool :=
  found <~ on_os (path_exists crate_name) ;;
  if negb found then ret false
  else
    on_os (emit (Announced crate_name)) ;;;
    prepared <~ try_except
        (fixed <~ create_fixed_cargo_toml crate_name ;;
         on_os (check_run (CpBackup crate_name)) ;;;
         on_os (write_manifest crate_name fixed) ;;;
         ret true)
        (fun _ => ret false) ;;
    if negb prepared then ret false
    else
      '(success, output) <~ on_os (run_command cargo (CargoPublishIn crate_name)) ;;
      on_os (subprocess_run cargo (MvRestore crate_name)) ;;;
      if accepted success output
      then
        modify (fun s => State (Dict.set (replace "-" "_" crate_name) "1.1.10"
                                         (published s)) (os s)) ;;;
        ret true
      else ret false.

Fixpoint publish_loop (all crates failed : list string)
  : M (state remote) (list string) :=
  match crates with
  | [] => ret failed
  | crate_name :: rest =>
      ok <~ publish_crate crate_name ;;
      if ok
      then on_os (settle all crate_name) ;;; publish_loop all rest failed
      else publish_loop all rest (failed ++ [crate_name])
  end.

(** [succeeded = list(PUBLISHED_HANZO.keys())] is taken before the loop
    and not changed by it. *)
Definition main (crates : list string) : M (state remote) finish :=
  missing <~ gets (fun s => token_missing (os s)) ;;
  if missing then ret NoToken
  else
    succeeded <~ gets (fun s => Dict.keys (published s)) ;;
    failed <~ publish_loop crates crates [] ;;
    ret (Summary succeeded failed).

End Run.

End Automated.

(* ================================================================== *)
(** ** publish-all-hanzo-crates.py *)
(* ================================================================== *)

Module AllCrates.
Import Py St Os.
Local Open Scope st_scope.

Definition HANZO_CRATES : list string :=
  [ "hanzo-message-primitives"; "hanzo-crypto-identities";
    "hanzo-non-rust-code"; "hanzo-pqc";
    "hanzo-embedding"; "hanzo-sqlite"; "hanzo-db"; "hanzo-did"; "hanzo-config";
    "hanzo-fs"; "hanzo-job-queue-manager"; "hanzo-libp2p-relayer"; "hanzo-mcp";
    "hanzo-kbs"; "hanzo-model-discovery"; "hanzo-hmm";
    "hanzo-tools-primitives"; "hanzo-llm"; "hanzo-sheet";
    "hanzo-wasm-runtime"; "hanzo-mining"; "hanzo-http-api" ].

(** [name = "version"] *)
Definition pinned (name version : string) : string :=
  name ++ " = " ++ dq ++ version ++ dq.

(** [name = { version = "version", features = ["feature"] }] *)
Definition pinned_with (name version feature : string) : string :=
  name ++ " = { version = " ++ dq ++ version ++ dq ++ ", features = ["
       ++ dq ++ feature ++ dq ++ "] }".

(** The text [fix_cargo_toml] makes of the manifest text. *)
Definition fixed_content (content : string) : string :=
  let content := replace (pinned "thiserror" "1.0.86")
                         (pinned "thiserror" "2.0") content in
  let content := replace (pinned "blake3" "1.8.2")
                         (pinned "blake3" "1.5") content in
  let content :=
    if contains (pinned "ed25519-dalek" "2.1.1") content
    then replace (pinned "ed25519-dalek" "2.1.1")
                 (pinned_with "ed25519-dalek" "2.1.1" "rand_core") content
    else content in
  if contains (pinned "x25519-dalek" "2.0.1") content
  then replace (pinned "x25519-dalek" "2.0.1")
               (pinned_with "x25519-dalek" "2.0.1" "static_secrets") content
  else content.

Section Run.

Variable remote : Type.
Variable cargo : remote -> string -> option string
                 -> remote * proc * option string.

(** The manifest is rewritten where it stands; no copy is kept. *)
Definition fix_cargo_toml (crate : string) : M (world remote) bool :=
  w <~ gets (fun w => w) ;;
  match manifest w crate with
  | None => ret false
  | Some original =>
      let content := fixed_content original in
      if String.eqb content original then ret false
      else write_manifest crate content ;;; ret true
  end.

(** [success or "already uploaded" in output.lower()] *)
Definition accepted (success : bool) (output : string) : bool :=
  success || contains "already uploaded" (lower output).

(** The [cargo search] probe between the fix and the publish only prints
    a note and is left out. *)
Definition publish_crate (crate_name : string) : M (world remote) bool :=
  found <~ path_exists crate_name ;;
  if negb found then ret false
  else
    emit (Announced crate_name) ;;;
    fix_cargo_toml crate_name ;;;
    '(success, output) <~ run_command cargo (CargoPublishIn crate_name) ;;
    if accepted success output then ret true else ret false.

(** The loop of [main]: the first crate of the order is skipped, and after
    a failure the operator is asked whether to go on. *)
Fixpoint publish_loop (all crates succeeded failed : list string)
  : M (world remote) (list string * list string) :=
  match crates with
  | [] => ret (succeeded, failed)
  | crate_name :: rest =>
      if String.eqb crate_name "hanzo-message-primitives"
      then publish_loop all rest succeeded failed
      else
        ok <~ publish_crate crate_name ;;
        if ok
        then settle all crate_name ;;;
             publish_loop all rest (succeeded ++ [crate_name]) failed
        else
          response <~ input crate_name ;;
          if String.eqb (lower response) "y"
          then publish_loop all rest succeeded (failed ++ [crate_name])
          else ret (succeeded, (failed ++ [crate_name])%list)
  end.

Definition main (crates : list string) : M (world remote) finish :=
  missing <~ gets token_missing ;;
  if missing then ret NoToken
  else
    '(succeeded, failed) <~ publish_loop crates crates [] [] ;;
    ret (Summary succeeded failed).

End Run.

End AllCrates.

(* ================================================================== *)
(** ** Concrete machines for the examples *)
(* ================================================================== *)

Module Demo.
Import Py Toml St Os.

(** A registry without state whose answer to [cargo publish] is looked up by
    crate name ([exit 0] for a crate that is not listed); the command
    leaves the manifest as it found it. *)
Definition cargo_by_crate (answers : Dict.t proc)
  : unit -> string -> option string -> unit * proc * option string :=
  fun r crate m =>
    (r, match Dict.get crate answers with
        | Some p => p
        | None => Completed 0 "" ""
        end, m).

(** What cargo says of a version that is on the registry already. *)
Definition already_uploaded : proc :=
  Completed 101 "" "error: crate version `1.1.10` is already uploaded".

Definition rejected : proc :=
  Completed 101 "" "error: failed to verify package tarball".

(** A file system of crates given with their manifests, no backups. *)
Definition disk (files : Dict.t string) : filesystem :=
  fun crate => match Dict.get crate files with
               | Some text => Some (Dir (Some text) None)
               | None => None
               end.

Definition boot (files : Dict.t string) (answers_to_prompts : list string)
  : world unit :=
  World (disk files) tt [] answers_to_prompts (Some "secret").

(** A parser for the examples that knows the documents in [known] by their
    text and raises on every other text, and a printer that finds the text
    of a known document. *)
Definition toml_loads (known : Dict.t dict) (text : string) : res dict :=
  match Dict.get text known with
  | Some d => Ok d
  | None => Raise (Exn "TomlDecodeError" "Invalid TOML")
  end.

(** A printer for the examples: the keys of the top level, one a line. *)
Definition toml_dumps (data : dict) : string :=
  Py.join nl (map (fun k => "[" ++ k ++ "]") (keys data)).

Definition text (lines : list string) : string :=
  String.concat "" (map (fun l => l ++ nl) lines).

(** A manifest of a workspace member, as text and as the document the
    parser makes of it. *)
Definition pqc_toml : string :=
  text [ "[package]";
         "name = " ++ dq ++ "hanzo_pqc" ++ dq;
         "version = { workspace = true }";
         "edition = { workspace = true }";
         "authors = { workspace = true }";
         "";
         "[dependencies]";
         "serde = { workspace = true }";
         "chrono = { workspace = true, features = [" ++ dq ++ "clock" ++ dq
           ++ "], optional = true }";
         "tokio = { workspace = true, features = [" ++ dq ++ "full" ++ dq ++ "] }";
         "reqwest = { version = " ++ dq ++ "0.11.27" ++ dq ++ " }";
         "foo = { workspace = true }" ].

Definition inherit : value := VDict [("workspace", VBool true)].

Definition pqc_doc : dict :=
  [ ("package", VDict [ ("name", VStr "hanzo_pqc");
                        ("version", inherit);
                        ("edition", inherit);
                        ("authors", inherit) ]);
    ("dependencies",
     VDict [ ("serde", inherit);
             ("chrono", VDict [ ("workspace", VBool true);
                                ("features", strs ["clock"]);
                                ("optional", VBool true) ]);
             ("tokio", VDict [ ("workspace", VBool true);
                               ("features", strs ["full"]) ]);
             ("reqwest", VDict [ ("version", VStr "0.11.27") ]);
             ("foo", inherit) ]) ].

(** The document publish-hanzo-improved.py makes of the example. *)
Definition pqc_resolved : dict :=
  [ ("package", VDict [ ("name", VStr "hanzo_pqc");
                        ("version", VStr "1.1.10");
                        ("edition", VStr "2021");
                        ("authors", strs ["Hanzo AI Inc"]);
                        ("description", VStr "Hanzo AI component") ]);
    ("dependencies",
     VDict [ ("serde", VDict [ ("version", VStr "1.0.219") ]);
             ("chrono", VDict [ ("version", VStr "0.4");
                                ("features", strs ["clock"; "serde"]) ]);
             ("tokio", VDict [ ("version", VStr "1.36");
                               ("features", strs ["full"]) ]);
             ("reqwest", VDict [ ("version", VStr "0.11.27") ]);
             ("foo", VDict [ ("version", VStr "1.0") ]) ]);
    ("workspace", VDict []) ].

(** A manifest that depends on the crate above. *)
Definition embedding_toml : string :=
  text [ "[package]";
         "name = " ++ dq ++ "hanzo_embedding" ++ dq;
         "version = { workspace = true }";
         "";
         "[dependencies]";
         "hanzo-pqc = { workspace = true }";
         "hanzo_tools_runner = { workspace = true }" ].

(** Text that is no TOML: a table header that is not closed. *)
Definition broken_toml : string := "[package".

(** A manifest with the two versions publish-all-hanzo-crates.py fixes. *)
Definition old_pins_toml : string :=
  text [ "[dependencies]";
         "thiserror = " ++ dq ++ "1.0.86" ++ dq;
         "ed25519-dalek = " ++ dq ++ "2.1.1" ++ dq ].

(** The machine of the examples for publish-hanzo-improved.py: one crate
    whose version is on the registry already. *)
Definition pqc_world : world unit :=
  boot [("hanzo-pqc", pqc_toml)] [].

(** The same machine with the credential set to the empty string. *)
Definition pqc_world_no_token : world unit :=
  World (disk [("hanzo-pqc", pqc_toml)]) tt [] [] (Some "").

Definition pqc_again :=
  cargo_by_crate [("hanzo-pqc", already_uploaded)].

Definition pqc_loads := toml_loads [(pqc_toml, pqc_doc)].

End Demo.

(* ================================================================== *)
(** ** Notions the properties are stated with *)
(* ================================================================== *)

Module Props.
Import Py Toml Os.

(** Some piece of [output] reads [marker] when its letters are lower-cased:
    the text contains the marker, whatever the case of its letters. *)
Definition mentions (marker output : string) : Prop :=
  exists pre mid post, output = pre ++ mid ++ post /\ lower mid = marker.

(** What [run_command] returns for a process result. *)
Definition answer (p : proc) : bool * string :=
  match p with
  | Completed rc out err => (Z.eqb rc 0, out ++ err)
  | NotRun e => (false, exn_str e)
  end.

(** The crates named on the console, in the order of their lines. *)
Fixpoint announced (t : list event) : list string :=
  match t with
  | [] => []
  | Announced c :: r => c :: announced r
  | _ :: r => announced r
  end.

(** The crates [cargo publish] was run for, in the order of the runs. *)
Fixpoint attempts (t : list event) : list string :=
  match t with
  | [] => []
  | CargoPublish c _ :: r => c :: attempts r
  | _ :: r => attempts r
  end.

(** The manifests [cargo publish] read, with their crates. *)
Fixpoint shipped (t : list event) : list (string * option string) :=
  match t with
  | [] => []
  | CargoPublish c m :: r => (c, m) :: shipped r
  | _ :: r => shipped r
  end.

(** Two machines whose crate directories hold the same manifests. *)
Definition same_manifests {remote} (w w' : world remote) : Prop :=
  forall c, option_map cargo_toml (fs w' c) = option_map cargo_toml (fs w c).

(** A document in the flat notation: no key of the top level is a dotted
    dependency key.  The parser nests a header [[dependencies.x]] into the
    table of [dependencies]; only a quoted key keeps its dot. *)
Definition dotted (key : string) : bool :=
  startswith key "dependencies." || startswith key "dev-dependencies.".

Definition flat (data : dict) : bool :=
  forallb (fun k => negb (dotted k)) (keys data).

(** [data[section][name]] when the section is a table that has the name. *)
Definition dep_of (section name : string) (data : dict) : option value :=
  match get section data with
  | Some (VDict deps) => get name deps
  | _ => None
  end.



(** The declaration [v] is a table whose feature list has the item [f]. *)
Definition lists_feature (f : value) (v : value) : Prop :=
  exists d fs, v = VDict d /\ get "features" d = Some (VList fs) /\ In f fs.

(** The declaration [v'] is a table with the sub-fields of [d], the
    features apart. *)
Definition keeps_fields (d : dict) (v' : value) : Prop :=
  exists d', v' = VDict d' /\
    forall k, k <> "features" -> get k d' = get k d.

(** The feature a crate has to be given, by the chain of tests in
    [fix_inline_tables]. *)
Definition required_feature (dep_name : string) : option string :=
  if String.eqb dep_name "chrono" then Some "serde"
  else if String.eqb dep_name "reqwest" then Some "json"
  else if String.eqb dep_name "nalgebra" then Some "serde-serialize"
  else None.

(** A declaration [fix_inline_tables] has nothing to do for: it neither
    defers to the workspace nor is the empty string. *)
Definition inline_fixed (v : value) : bool :=
  negb (inherited v) && negb (eq_str "" v).

(** A section is absent or a table. *)
Definition section_ok (section : string) (data : dict) : Prop :=
  match get section data with
  | None => True
  | Some (VDict _) => True
  | Some _ => False
  end.

(** What the passes of the resolver do, one after the other, to the
    declaration of [name] in [section]. *)
Definition resolve_entry (section name : string) (v : value) : res value :=
  Py.bind (Improved.fix_inline_entry name v) (fun v =>
  Py.bind (if String.eqb name "reqwest"
           then Improved.fix_reqwest_entry v else Ok v) (fun v =>
  Py.bind (if String.eqb name "chrono"
              && negb (String.eqb section "build-dependencies")
           then Improved.fix_feature_entry "0.4" "serde" v else Ok v) (fun v =>
  if String.eqb name "nalgebra"
     && negb (String.eqb section "build-dependencies")
  then Improved.fix_feature_entry "0.32" "serde-serialize" v else Ok v))).


(** [o'] is what [f] makes of [o], when there is something. *)
Definition dep_res (f : value -> res value) (o o' : option value) : Prop :=
  match o with
  | None => o' = None
  | Some x => exists x', f x = Ok x' /\ o' = Some x'
  end.

(** The shape the dependency passes share: the table of one section is
    rewritten by [G], an absent section is passed over, anything else
    raises [e]. *)
Definition section_pass (e : exn) (G : dict -> res dict)
           (section : string) (data : dict) : res dict :=
  match get section data with
  | None => Ok data
  | Some (VDict deps) =>
      Py.bind (G deps) (fun deps' => Ok (set section (VDict deps') data))
  | Some _ => Raise e
  end.

(** The declaration of [name] rewritten by [fx], when there is one. *)
Definition on_name (name : string) (fx : value -> res value) (deps : dict)
  : res dict :=
  match get name deps with
  | None => Ok deps
  | Some x => Py.bind (fx x) (fun x' => Ok (set name x' deps))
  end.

(** Every section of [secs] that is present is a table that satisfies
    [P]. *)
Definition sections_sat (secs : list string) (P : dict -> Prop) (data : dict)
  : Prop :=
  forall s, In s secs ->
    match get s data with
    | None => True
    | Some (VDict deps) => P deps
    | Some _ => False
    end.

(** [data'] has the keys of [data], the values of [data] outside the
    sections [secs], and in every section of [secs] the table [G] makes of
    the table of [data]. *)
Definition rewritten (secs : list string) (G : dict -> res dict)
           (data data' : dict) : Prop :=
  keys data' = keys data /\
  (forall k, ~ In k secs -> get k data' = get k data) /\
  (forall s, In s secs ->
     match get s data with
     | None => get s data' = None
     | Some (VDict deps) =>
         exists deps', G deps = Ok deps' /\ get s data' = Some (VDict deps')
     | Some _ => False
     end).

(** Whether the manifest of a crate is on the disk. *)
Definition has_manifest {remote} (w : world remote) (c : string) : bool :=
  match manifest w c with Some _ => true | None => false end.

Definition dir_exists {remote} (w : world remote) (c : string) : bool :=
  match fs w c with Some _ => true | None => false end.

(** Every manifest on the disk parses and resolves. *)
Definition resolvable {remote} (toml_loads : string -> res dict)
           (w : world remote) (crates : list string) : Prop :=
  forall c content, In c crates -> manifest w c = Some content ->
    exists data, Py.bind (toml_loads content) Improved.resolve = Ok data.

(** The registry after the crates of [registered] were published, in
    their order. *)
Definition register (registered : list string) (published : Dict.t string)
  : Dict.t string :=
  fold_left (fun p c => Dict.set (replace "-" "_" c) "1.1.10" p)
            registered published.

(** The function [map_res] applies to an entry when the values are
    rewritten by a function [g] of key and value. *)
Definition entry_fn {V} (g : string -> V -> res V) (kv : string * V)
  : res (string * V) :=
  Py.bind (g (fst kv) (snd kv)) (fun v => Ok (fst kv, v)).

Definition all_inline_fixed (deps : dict) : Prop :=
  forall n v, In (n, v) deps -> inline_fixed v = true.

Definition name_fixed (name : string) (fx : value -> res value) (deps : dict)
  : Prop :=
  forall x, get name deps = Some x -> fx x = Ok x.

(** The fields of the package table: one that does not defer to the
    workspace, the metadata pass as a whole, and a document whose package
    table the pass leaves as it is. *)
Definition field_ok (f : string) (p : dict) : Prop :=
  match get f p with
  | Some (VDict d) => workspace_true d = false
  | _ => True
  end.

Definition metadata (p : dict) : dict :=
  Improved.fix_description (fold_left (fun p f => Improved.fix_metadata_field f p)
                             Improved.METADATA_FIELDS p).

Definition package_fixed (data : dict) : Prop :=
  match get "package" data with
  | None => True
  | Some (VDict p) => metadata p = p
  | Some _ => False
  end.

(** A declaration whose features, when it is a table that has some, are a
    list. *)
Definition features_listed (v : value) : Prop :=
  match v with
  | VDict d =>
      match get "features" d with
      | Some (VList _) | None => True
      | Some _ => False
      end
  | _ => True
  end.

Definition all_features_listed (deps : dict) : Prop :=
  forall n v, In (n, v) deps -> features_listed v.

(** A document as cargo accepts it, as far as the resolver looks: in the
    flat notation, the package a table, the dependency sections tables,
    the features lists. *)
Definition well_formed (data : dict) : Prop :=
  flat data = true /\
  section_ok "package" data /\
  sections_sat Improved.SECTIONS all_features_listed data.

(** What holds of a resolved document: each pass finds its work done. *)
Record resolved (data : dict) : Prop := {
  res_package : package_fixed data;
  res_workspace : has "workspace" data = true;
  res_flat : flat data = true;
  res_inline : sections_sat Improved.SECTIONS all_inline_fixed data;
  res_reqwest : sections_sat Improved.SECTIONS (name_fixed "reqwest" Improved.fix_reqwest_entry) data;
  res_chrono : sections_sat ["dependencies"; "dev-dependencies"]
                 (name_fixed "chrono" (Improved.fix_feature_entry "0.4" "serde")) data;
  res_nalgebra : sections_sat ["dependencies"; "dev-dependencies"]
                   (name_fixed "nalgebra"
                      (Improved.fix_feature_entry "0.32" "serde-serialize")) data
}.

End Props.

(* ================================================================== *)
(** * The two one-shot fixers, and what the further properties speak of

    [fix-crypto-apis.py] (module [CryptoApis]) rewrites a call in a source
    file, [fix-all-cargo-tomls.py] (module [FixAll]) rewrites the manifests
    of a directory of crates where they stand, with the substitutions of
    publish-hanzo-automated.py and some of its own. *)
(* ================================================================== *)

(* ================================================================== *)
(** ** Texts that cannot overlap *)
(* ================================================================== *)

Module Overlap.
Import Py.

(** Two texts that agree as far as both go. *)
Definition agree (p n : string) : bool := prefix p n || prefix n p.

(** The non-empty suffixes of a text, longest first. *)
Fixpoint tails (s : string) : list string :=
  match s with
  | EmptyString => []
  | String _ t => s :: tails t
  end.

(** No occurrence of [p] can begin in, end in or lie in an inserted [new]:
    no suffix of [p] agrees with [new] and [p] agrees with no suffix of
    [new]. *)
Definition separate (p new : string) : bool :=
  forallb (fun q => negb (agree q new)) (tails p)
  && forallb (fun m => negb (agree p m)) (tails new).

End Overlap.

(* ================================================================== *)
(** ** What a pattern has to read *)
(* ================================================================== *)

Module Scan.
Import Py Re.

(** A pattern every match of which reads the text [w]: one of its literals
    on the way holds it. *)
Fixpoint needs (w : string) (r : regex) : bool :=
  match r with
  | Lit l => contains w l
  | Cat a b => needs w a || needs w b
  | Group a => needs w a
  | Class _ | Star _ | LazyStar _ => false
  end.

(** [s'] is what is left of [s] behind some of its characters. *)
Definition is_suffix (s' s : string) : Prop := exists pre, s = pre ++ s'.

(** The loop of a greedy star with [n] iterations left, as [exec] runs
    it. *)
Fixpoint star_loop {X} (a : regex) (k : string -> option string -> option X)
         (n : nat) (s : string) (g : option string) : option X :=
  match n with
  | O => k s g
  | S n' =>
      match exec a s g (fun s' g' =>
              if (String.length s' <? String.length s)%nat
              then star_loop a k n' s' g' else None) with
      | Some x => Some x
      | None => k s g
      end
  end.

End Scan.

(* ================================================================== *)
(** ** fix-crypto-apis.py *)
(* ================================================================== *)

Module CryptoApis.
Import Py Re St.
Local Open Scope st_scope.

(** The files by path; [None] is a file that does not exist. *)
Definition files : Type := string -> option string.

Definition write (fs : files) (path content : string) : files :=
  fun p => if String.eqb p path then Some content else fs p.

Definition BASE_PATH : string :=
  "/Users/z/work/shinkai/hanzo-node/hanzo-libs/hanzo-message-primitives/src".

(** [os.path.join(BASE_PATH, file_rel)] for a relative path. *)
Definition join (base rel : string) : string := base ++ "/" ++ rel.

Definition files_to_fix : list string := [ "hanzo_utils/signatures.rs" ].

(** The pattern is the text of the call up to its parenthesis, the
    replacement a text without escapes. *)
Definition generate_call : regex := Lit "SigningKey::generate(".

Definition fixed_content (content : string) : string :=
  sub generate_call (const "SigningKey::new(") content.

(** [fix_file(filepath)]: the file is written only when the text changed. *)
Definition fix_file (filepath : string) : M files bool :=
  fun fs =>
    match fs filepath with
    | None => (fs, Raise (FileNotFoundError filepath))
    | Some original =>
        let content := fixed_content original in
        if negb (String.eqb content original)
        then (write fs filepath content, Ok true)
        else (fs, Ok false)
    end.

(** The loop of [main] over the listed files: a file that is not there is
    reported and passed over.  The value is [fixed_count]. *)
Fixpoint fix_listed (listed : list string) (fixed_count : nat) : M files nat :=
  match listed with
  | [] => ret fixed_count
  | file_rel :: rest =>
      let filepath := join BASE_PATH file_rel in
      present <~ gets (fun fs => match fs filepath with
                                 | Some _ => true | None => false end) ;;
      if present
      then fixed <~ fix_file filepath ;;
           fix_listed rest (if fixed then fixed_count + 1 else fixed_count)
      else fix_listed rest fixed_count
  end.

End CryptoApis.

(* ================================================================== *)
(** ** fix-all-cargo-tomls.py *)
(* ================================================================== *)

Module FixAll.
Import Py Re St Os.
Local Open Scope st_scope.

Definition DEPS : Dict.t string :=
  [ ("tokio", "1.36"); ("serde", "1.0.219"); ("serde_json", "1.0.117");
    ("chrono", "0.4"); ("reqwest", "0.11.27"); ("log", "0.4.20");
    ("async-trait", "0.1.81"); ("futures", "0.3.30"); ("anyhow", "1.0.86");
    ("dashmap", "6.0"); ("ed25519-dalek", "2.1.1"); ("x25519-dalek", "2.0.1");
    ("base64", "0.22.0"); ("rusqlite", "0.31.0"); ("dirs", "5.0");
    ("clap", "4.5.4"); ("home", "0.5.5"); ("utoipa", "4.2");
    ("tracing", "0.1.40"); ("lazy_static", "1.4.0"); ("once_cell", "1.19");
    ("regex", "1"); ("tempfile", "3.8"); ("bincode", "1.3.3");
    ("sha2", "0.10"); ("blake3", "1.5"); ("thiserror", "2.0");
    ("hex", "0.4.3"); ("tokio-test", "0.4"); ("criterion", "0.5") ].

Definition FEATURES : Dict.t (list string) :=
  [ ("ed25519-dalek", ["rand_core"]);
    ("x25519-dalek", ["static_secrets"]);
    ("chrono", ["serde"]);
    ("serde", ["derive"]);
    ("tokio", ["rt"; "rt-multi-thread"; "macros"; "fs"; "io-util"; "net";
               "sync"; "time"]);
    ("reqwest", ["json"]);
    ("utoipa", ["yaml"]);
    ("tracing-subscriber", ["env-filter"]) ].

Definition PUBLISHED_HANZO : Dict.t string :=
  [ ("hanzo_message_primitives", "1.1.10");
    ("hanzo_non_rust_code", "1.1.10");
    ("hanzo_crypto_identities", "1.1.10");
    ("hanzo_pqc", "1.1.10");
    ("hanzo_did", "1.1.10");
    ("hanzo_mcp", "1.1.10");
    ("hanzo_tools_primitives", "1.1.10");
    ("hanzo_tools_runner", "1.0.3") ].

(** [re.search(r, s)]: the leftmost place where the pattern matches. *)
Fixpoint search (r : regex) (s : string)
  : option (string * option string * string) :=
  match match_at r s with
  | Some m => Some m
  | None => match s with
            | EmptyString => None
            | String _ t => search r t
            end
  end.

(** Whether [re.search] finds the pattern behind a caret under
    [re.MULTILINE]: the caret holds at the start of the text and behind
    every newline.  [at_bol] says whether it holds where [s] starts. *)
Fixpoint search_bol_from (at_bol : bool) (r : regex) (s : string) : bool :=
  (at_bol && match match_at r s with Some _ => true | None => false end)
  || match s with
     | EmptyString => false
     | String c t => search_bol_from (Ascii.eqb c "010"%char) r t
     end.

Definition search_bol (r : regex) (s : string) : bool :=
  search_bol_from true r s.

(** The dot under [re.DOTALL] and the class of all characters but the
    double quote. *)
Definition any (c : ascii) : bool := true.
Definition not_dq (c : ascii) : bool := negb (Ascii.eqb c "034"%char).

(** Behind the caret: [\s* key \s* =]. *)
Definition line_key (key : string) : regex :=
  seq [ Automated.ws; Lit key; Automated.ws; Lit "=" ].

(** Group 1 is the whole pattern: the package header, as little as can be
    up to [authors = ], and as little as can be up to a newline; the dot
    is that of [re.DOTALL]. *)
Definition package_to_authors : regex :=
  Group (seq [ Lit "[package]"; LazyStar (Class any); Lit "authors = ";
               LazyStar (Class any); Lit nl ]).

(** Group 1 is the whole pattern [key = .*?\n]. *)
Definition line_of (key : string) : regex :=
  Group (seq [ Lit (key ++ " = "); LazyStar (Class dot); Lit nl ]).

(** The pattern of the crate name: [name], [\s*], [=], [\s*], then between
    two double quotes group 1, one or more characters that are no double
    quote. *)
Definition name_entry : regex :=
  seq [ Lit "name"; Automated.ws; Lit "="; Automated.ws; Lit dq;
        Group (Plus (Class not_dq)); Lit dq ].

(** [workspace \s* = \s* true] *)
Definition workspace_true : regex :=
  seq [ Lit "workspace"; Automated.ws; Lit "="; Automated.ws; Lit "true" ].

(** [replace_workspace_dep(match)], with [match.group(1)] and
    [match.group(0)]. *)
Definition replace_workspace_dep (dep_name full_match : string) : string :=
  let hanzo_key := replace "-" "_" dep_name in
  match Dict.get hanzo_key PUBLISHED_HANZO with
  | Some version =>
      match Dict.get dep_name FEATURES with
      | Some features => Automated.featured_dep dep_name version features
      | None => Automated.plain_dep dep_name version
      end
  | None =>
      match Dict.get dep_name DEPS with
      | Some version =>
          match Dict.get dep_name FEATURES with
          | Some features => Automated.featured_dep dep_name version features
          | None => Automated.plain_dep dep_name version
          end
      | None => full_match
      end
  end.

Definition replace_workspace_dep_match : string -> option string -> string :=
  fun full_match g1 => match g1 with
                       | Some dep_name => replace_workspace_dep dep_name full_match
                       | None => full_match
                       end.

(** The name the description is made of. *)
Definition described_name (name : string) : string :=
  title (replace "_" " " (replace "hanzo_" "" name)).

Section Fix.

(** The description is put into a replacement template, which [re] reads
    for escapes.  A name without a backslash is put in as it is; what [re]
    makes of a template with a name that holds one (an exception, or a
    replacement that depends on the match) is left to [escapes]. *)
Variable escapes : string -> res (string -> option string -> string).

Definition description_template (crate_name : string)
  : res (string -> option string -> string) :=
  if contains "\" crate_name then escapes crate_name
  else Ok (after_group1 ("description = " ++ dq ++ crate_name
                         ++ " for Hanzo AI platform" ++ dq ++ nl)).

(** The four steps under [if '[package]' in content]. *)
Definition add_license (content : string) : string :=
  if search_bol (line_key "license") content then content
  else sub package_to_authors
           (after_group1 ("license = " ++ dq ++ "MIT" ++ dq ++ nl)) content.

Definition add_repository (content : string) : string :=
  if search_bol (line_key "repository") content then content
  else sub (line_of "license")
           (after_group1 ("repository = " ++ dq
                          ++ "https://github.com/hanzoai/hanzo-node" ++ dq ++ nl))
           content.

Definition add_homepage (content : string) : string :=
  if search_bol (line_key "homepage") content then content
  else sub (line_of "repository")
           (after_group1 ("homepage = " ++ dq ++ "https://hanzo.ai" ++ dq ++ nl))
           content.

Definition add_description (content : string) : res string :=
  if search_bol (line_key "description") content then Ok content
  else match search name_entry content with
       | Some (_, Some name, _) =>
           Py.bind (description_template (described_name name))
                   (fun template => Ok (sub (line_of "homepage") template content))
       | _ => Ok content
       end.

(** The text [fix_cargo_toml] makes of the manifest text. *)
Definition fixed_content (content : string) : res string :=
  let content := sub (Automated.inherited_field "version")
                     (const ("version = " ++ dq ++ "1.1.10" ++ dq)) content in
  let content := sub (Automated.inherited_field "edition")
                     (const ("edition = " ++ dq ++ "2021" ++ dq)) content in
  let content := sub (Automated.inherited_field "authors")
                     (const ("authors = [" ++ dq ++ "Hanzo AI Inc" ++ dq ++ "]"))
                     content in
  Py.bind
    (if contains "[package]" content
     then add_description (add_homepage (add_repository (add_license content)))
     else Ok content)
    (fun content =>
       let content := sub Automated.inherited_dep replace_workspace_dep_match
                          content in
       Ok (sub workspace_true (const "") content)).

(** [fix_cargo_toml(filepath)] on the manifest of a crate directory: the
    file is written only when the text changed. *)
Definition fix_cargo_toml (crate_dir : string) : M filesystem bool :=
  fun fs =>
    match fs crate_dir with
    | Some (Dir (Some original) saved) =>
        match fixed_content original with
        | Ok content =>
            if negb (String.eqb content original)
            then (put fs crate_dir (Dir (Some content) saved), Ok true)
            else (fs, Ok false)
        | Raise e => (fs, Raise e)
        end
    | _ => (fs, Raise (FileNotFoundError (crate_dir ++ "/Cargo.toml")))
    end.

(** The loop of [main] over [os.listdir(base_path)]: a name that does not
    start with [hanzo-] or has no manifest is passed over.  The value is
    [fixed_count]. *)
Fixpoint fix_all (listing : list string) (fixed_count : nat)
  : M filesystem nat :=
  match listing with
  | [] => ret fixed_count
  | crate_dir :: rest =>
      if negb (startswith crate_dir "hanzo-") then fix_all rest fixed_count
      else
        present <~ gets (fun fs => match fs crate_dir with
                                   | Some (Dir (Some _) _) => true
                                   | _ => false
                                   end) ;;
        if negb present then fix_all rest fixed_count
        else
          fixed <~ fix_cargo_toml crate_dir ;;
          fix_all rest (if fixed then fixed_count + 1 else fixed_count)
  end.

Definition main (listing : list string) : M filesystem nat :=
  fix_all listing 0.

End Fix.

End FixAll.

(* ================================================================== *)
(** ** Properties of the fixers and of the passes *)
(* ================================================================== *)

Module FixProps.
Import Py Re St Os.

Section Fix.
Variable escapes : string -> res (string -> option string -> string).

(** Whether [fix_cargo_toml] has something to write for a name of the
    listing: the name starts with [hanzo-], the manifest is there and the
    fixer makes another text of it. *)
Definition changes (fs : filesystem) (crate_dir : string) : bool :=
  startswith crate_dir "hanzo-" &&
  match fs crate_dir with
  | Some (Dir (Some original) _) =>
      match FixAll.fixed_content escapes original with
      | Ok content => negb (String.eqb content original)
      | Raise _ => false
      end
  | _ => false
  end.

(** The directory with the manifest the fixer makes. *)
Definition fixed_dir (d : crate_dir) : crate_dir :=
  match d with
  | Dir (Some original) saved =>
      match FixAll.fixed_content escapes original with
      | Ok content => Dir (Some content) saved
      | Raise _ => d
      end
  | _ => d
  end.

End Fix.

(** The declaration the fixer writes for a dependency of its table of
    versions: the table with the features when it has some for the name,
    the plain version else. *)
Definition pinned_by_fixer (name version : string) : string :=
  match Dict.get name FixAll.FEATURES with
  | Some features => Automated.featured_dep name version features
  | None => Automated.plain_dep name version
  end.

(** The lines [license], [repository], [homepage] and [description] are
    all there. *)
Definition has_metadata (content : string) : bool :=
  FixAll.search_bol (FixAll.line_key "license") content
  && FixAll.search_bol (FixAll.line_key "repository") content
  && FixAll.search_bol (FixAll.line_key "homepage") content
  && FixAll.search_bol (FixAll.line_key "description") content.

End FixProps.

Module MetaProps.
Import Py Toml.

(** What the metadata pass makes of the value of a field: a table that
    says [workspace = true] becomes the default of the field, anything
    else, an absent field too, stays. *)
Definition uninherit (field : string) (o : option value) : option value :=
  match o with
  | Some (VDict d) =>
      if workspace_true d then Some (Improved.workspace_default field) else o
  | _ => o
  end.

(** What it makes of the description: one that is absent or empty becomes
    the default. *)
Definition described (o : option value) : option value :=
  match o with
  | Some v => if truthy v then o
              else Some (Improved.workspace_default "description")
  | None => Some (Improved.workspace_default "description")
  end.

End MetaProps.

Module PassProps.
Import Py Toml Props.

(** A declaration none of the passes has anything to do for: it neither
    defers to the workspace nor is the empty string, and
    - under the name reqwest it is a table without a features key,
    - under the names chrono and nalgebra it stands in
      [build-dependencies],
    - under any other name it is whatever it is. *)
Definition passed_over (section name : string) (v : value) : bool :=
  inline_fixed v &&
  (if String.eqb name "reqwest"
   then match v with
        | VDict d => negb (has "features" d)
        | VStr _ => false
        | _ => true
        end
   else if String.eqb name "chrono" || String.eqb name "nalgebra"
        then String.eqb section "build-dependencies"
             || match v with VStr _ | VDict _ => false | _ => true end
        else true).

End PassProps.

Module LoopProps.

(** The order of publish-all-hanzo-crates.py without the crate its loop
    passes over. *)
Definition kept_crates (crates : list string) : list string :=
  filter (fun c => negb (String.eqb c "hanzo-message-primitives")) crates.

End LoopProps.

Module StripProps.
Import Py Re.

(** Every character of the text is of the class. *)
Fixpoint all_of (p : ascii -> bool) (s : string) : bool :=
  match s with
  | EmptyString => true
  | String c t => p c && all_of p t
  end.

(** An inherited declaration as the manifests write it, and what is left
    of it without [workspace = true]. *)
Definition inherited_line (name : string) : string :=
  name ++ " = { workspace = true }" ++ nl.

Definition decl : string := " = { workspace = true }".

Definition emptied_line (name : string) : string :=
  name ++ " = {  }" ++ nl.

(** A name the fixer has no version for and none of whose parts is one of
    the words the substitutions look for. *)
Definition unknown_name (name : string) : bool :=
  negb (String.eqb name "") && all_of word name
  && negb (contains "version" name) && negb (contains "edition" name)
  && negb (contains "authors" name) && negb (contains "workspace" name)
  && negb (Dict.has name FixAll.PUBLISHED_HANZO)
  && negb (Dict.has name FixAll.DEPS).

(** What is left of the pattern of an inherited dependency behind the
    first character of the name. *)
Definition dep_rest : regex :=
  seq [ Automated.ws; Lit "="; Automated.ws; Lit "{"; Automated.ws;
        Lit "workspace"; Automated.ws; Lit "="; Automated.ws;
        Lit "true"; LazyStar (Class dot); Lit "}" ].

(** What is behind the key in the pattern of an inherited field. *)
Definition field_rest : regex :=
  seq [ Automated.ws; Lit "="; Automated.ws; Lit "{"; Automated.ws;
        Lit "workspace"; Automated.ws; Lit "="; Automated.ws; Lit "true";
        Automated.ws; Lit "}" ].

End StripProps.

Module AutoProps.
Import Py Re Os StripProps.

(** Whether publish-hanzo-automated.py can prepare the manifest of a
    crate: [re] takes the description template, or the manifest has a
    description and none is made.  The registry has no part in it. *)
Definition prepares (escapes : string -> res (string -> option string -> string))
           (crate_name content : string) : bool :=
  match Automated.fixed_content escapes [] crate_name content with
  | Ok _ => true
  | Raise _ => false
  end.

Definition prepared {remote}
           (escapes : string -> res (string -> option string -> string))
           (w : world remote) (c : string) : bool :=
  match manifest w c with
  | Some content => prepares escapes c content
  | None => false
  end.

(** A crate name without a backslash, as the names of the order are. *)
Definition plain_name (crate_name : string) : bool :=
  negb (contains "\" crate_name).

(** A text without a backslash. *)
Definition no_backslash (s : string) : bool :=
  all_of (fun c => negb (Ascii.eqb c "\")) s.

(** What may stand in an inline declaration between [workspace = true] and
    the closing brace: no brace and no end of line. *)
Definition inline (m : string) : bool :=
  all_of (fun c => dot c && negb (Ascii.eqb c "{") && negb (Ascii.eqb c "}")) m.

(** The declaration [name = { workspace = true m}]; [m] is the rest of the
    table, blanks included. *)
Definition inherited_decl (name m : string) : string :=
  name ++ " = { workspace = true" ++ m ++ "}".

(** A text of words joined by single hyphens, [\w+ (?: - \w+ )*], read from
    the left; [after_word] says that the character before was of a
    word. *)
Fixpoint words_from (after_word : bool) (s : string) : bool :=
  match s with
  | EmptyString => after_word
  | String c t =>
      if word c then words_from true t
      else Ascii.eqb c "-" && after_word && words_from false t
  end.

(** A dependency name as group 1 of the pattern reads it, in which the
    substitutions of the package fields find nothing: words joined by
    hyphens that hold none of the words [version], [edition] and
    [authors]. *)
Definition dep_word (name : string) : bool :=
  words_from false name
  && negb (contains "version" name) && negb (contains "edition" name)
  && negb (contains "authors" name).

(** The declaration [replace_dep] formats for a name and a version: with
    the features of [CRYPTO_FEATURES] when the name has some. *)
Definition formatted (name version : string) : string :=
  match Dict.get name Automated.CRYPTO_FEATURES with
  | Some features => Automated.featured_dep name version features
  | None => Automated.plain_dep name version
  end.

End AutoProps.

Module TableProps.
Import Py Toml.

(** What [fix_dependencies_table_syntax] puts into the section for the
    value of a dotted key: a table that says [workspace = true] becomes a
    table of the version and, for the three crates, the feature; anything
    else is moved as it is. *)
Definition table_entry (dep_name : string) (dep_value : value) : value :=
  match dep_value with
  | VDict d =>
      if workspace_true d then
        let d1 : dict := [("version", VStr (Improved.inline_version dep_name))] in
        match Props.required_feature dep_name with
        | Some f => VDict (set "features" (strs [f]) d1)
        | None => VDict d1
        end
      else dep_value
  | _ => dep_value
  end.

End TableProps.

(* ================================================================== *)
(** ** More machines and texts for the examples *)
(* ================================================================== *)

Module Samples.
Import Py Toml St Os.

(** Two crates, the first of which cargo rejects. *)
Definition two_crates : list string := [ "hanzo-pqc"; "hanzo-did" ].

Definition pqc_rejected :=
  Demo.cargo_by_crate [("hanzo-pqc", Demo.rejected)].

(** The machine with the lines the operator will type. *)
Definition two_crates_world (answers : list string) : world unit :=
  Demo.boot [("hanzo-pqc", Demo.pqc_toml); ("hanzo-did", Demo.pqc_toml)]
            answers.

(** A source file with one call of the old constructor. *)
Definition signatures_rs : string :=
  "let key = SigningKey::generate(&mut csprng);".

Definition one_source_file : CryptoApis.files :=
  fun p => if String.eqb p "signatures.rs" then Some signatures_rs else None.

(** A manifest that inherits nothing and has its metadata. *)
Definition explicit_toml : string :=
  Demo.text [ "[package]";
              "name = " ++ dq ++ "hanzo_pqc" ++ dq;
              "version = " ++ dq ++ "1.1.10" ++ dq;
              "authors = [" ++ dq ++ "Hanzo AI Inc" ++ dq ++ "]";
              "license = " ++ dq ++ "MIT" ++ dq;
              "repository = " ++ dq ++ "https://github.com/hanzoai/hanzo-node" ++ dq;
              "homepage = " ++ dq ++ "https://hanzo.ai" ++ dq;
              "description = " ++ dq ++ "Post-quantum cryptography" ++ dq;
              "";
              "[dependencies]";
              "serde = " ++ dq ++ "1.0.219" ++ dq ].

(** A base directory with an inheriting crate, an explicit crate and a
    directory that is no hanzo crate. *)
Definition libs : filesystem :=
  Demo.disk [ ("hanzo-pqc", Demo.pqc_toml);
              ("hanzo-did", explicit_toml);
              ("notes", Demo.pqc_toml) ].

Definition libs_listing : list string := [ "notes"; "hanzo-did"; "hanzo-pqc" ].

(** A document with a dotted key, and what the pass of the table syntax
    makes of it. *)
Definition dotted_doc : dict :=
  [ ("package", VDict [("name", VStr "hanzo_kbs")]);
    ("dependencies.chrono", Demo.inherit);
    ("dependencies", VDict [("serde", VStr "1.0")]) ].

Definition nested_doc : dict :=
  [ ("package", VDict [("name", VStr "hanzo_kbs")]);
    ("dependencies",
     VDict [ ("serde", VStr "1.0");
             ("chrono", VDict [ ("version", VStr "0.4");
                                ("features", strs ["serde"]) ]) ]) ].




(** A reading of templates with escapes that refuses them all. *)
Definition no_escapes : string -> res (string -> option string -> string) :=
  fun _ => Raise (Exn "re.error" "bad escape").

End Samples.

(* ================================================================== *)
(** ** Facts about strings *)
(* ================================================================== *)

Module StringFacts.
Import Py.

Lemma prefix_app (p r : string) : prefix p (p ++ r) = true.
Proof.
  induction p as [|c p IH]; simpl.
  - destruct r; reflexivity.
  - destruct (ascii_dec c c); [apply IH | congruence].
Qed.

Lemma prefix_inv (p s : string) :
  prefix p s = true -> exists r, s = p ++ r.
Proof.
  revert s; induction p as [|c p IH]; intros s H.
  - exists s; reflexivity.
  - destruct s as [|c' s]; simpl in H; [discriminate|].
    destruct (ascii_dec c c') as [->|]; [|discriminate].
    destruct (IH _ H) as [r ->]. exists r; reflexivity.
Qed.

Lemma app_assoc (a b c : string) : (a ++ b) ++ c = a ++ b ++ c.
Proof. induction a; simpl; congruence. Qed.

Lemma app_empty_r (a : string) : a ++ "" = a.
Proof. induction a; simpl; congruence. Qed.

Lemma length_app (a b : string) :
  String.length (a ++ b) = String.length a + String.length b.
Proof. induction a; simpl; congruence. Qed.

Lemma contains_eq (needle hay : string) :
  contains needle hay =
  if prefix needle hay then true
  else match hay with
       | EmptyString => false
       | String _ t => contains needle t
       end.
Proof. destruct hay; reflexivity. Qed.

Lemma contains_of_prefix (needle hay : string) :
  prefix needle hay = true -> contains needle hay = true.
Proof. intros H. rewrite contains_eq, H. reflexivity. Qed.

(** [needle in hay] holds exactly when [hay] splits around [needle]. *)
Lemma contains_iff (needle hay : string) :
  contains needle hay = true <->
  exists pre post, hay = pre ++ needle ++ post.
Proof.
  split.
  - induction hay as [|c hay IH]; rewrite contains_eq;
      destruct (prefix needle _) eqn:E.
    + intros _. destruct (prefix_inv _ _ E) as [r Hr].
      exists "", r. exact Hr.
    + discriminate.
    + intros _. destruct (prefix_inv _ _ E) as [r Hr].
      exists "", r. exact Hr.
    + intros H. destruct (IH H) as (pre & post & ->).
      exists (String c pre), post. reflexivity.
  - intros (pre & post & ->).
    induction pre as [|c pre IH].
    + cbn [append]. apply contains_of_prefix, prefix_app.
    + cbn [append]. rewrite contains_eq, IH.
      destruct (prefix needle (String c (pre ++ needle ++ post)));
        reflexivity.
Qed.

Lemma lower_app (a b : string) : lower (a ++ b) = lower a ++ lower b.
Proof. induction a; simpl; congruence. Qed.

Lemma lower_split (s a b : string) :
  lower s = a ++ b ->
  exists a' b', s = a' ++ b' /\ lower a' = a /\ lower b' = b.
Proof.
  revert s; induction a as [|c a IH]; intros s H.
  - exists "", s. auto.
  - destruct s as [|c' s]; simpl in H; [discriminate|].
    injection H as Hc Hs. destruct (IH _ Hs) as (a' & b' & -> & <- & <-).
    exists (String c' a'), b'. simpl. rewrite Hc. auto.
Qed.

End StringFacts.

(* ================================================================== *)
(** ** The command runner and the classification of its result *)
(* ================================================================== *)

Module RunFacts.
Import Py St Os Props StringFacts.

Ltac st_unfold :=
  unfold St.bind, St.ret, St.raise, St.try_except, St.try_finally, St.lift,
         St.gets, St.modify in *.

Lemma subprocess_run_shell {remote} cargo (cmd : command) (w : world remote) :
  subprocess_run cargo cmd w =
  match shell cargo cmd w with
  | (w', Completed rc out err) => (w', Ok (rc, out, err))
  | (w', NotRun e) => (w', Raise e)
  end.
Proof. reflexivity. Qed.

(** [run_command] answers for every process result. *)
Lemma run_command_answer {remote} cargo (cmd : command) (w : world remote) :
  run_command cargo cmd w =
  (fst (shell cargo cmd w), Ok (answer (snd (shell cargo cmd w)))).
Proof.
  unfold run_command, subprocess_run. st_unfold.
  destruct (shell cargo cmd w) as [w' [rc out err|e]]; reflexivity.
Qed.

(** The marker test of the two scripts that have one. *)
Lemma marker_test (marker output : string) :
  contains marker (lower output) = true <-> mentions marker output.
Proof.
  rewrite contains_iff. unfold mentions. split.
  - intros (pre & post & H).
    destruct (lower_split _ _ _ H) as (a & b & -> & <- & Hb).
    destruct (lower_split _ _ _ Hb) as (m & c & -> & <- & <-).
    exists a, m, c. auto.
  - intros (pre & mid & post & -> & <-).
    exists (lower pre), (lower post). now rewrite !lower_app.
Qed.

End RunFacts.

(* ================================================================== *)
(** ** One crate: backup, resolution, publish, restore *)
(* ================================================================== *)

Module CrateFacts.
Import Py Toml St Os Props StringFacts RunFacts.

Lemma manifest_put {remote} (w : world remote) f crate d c :
  manifest (with_fs w (put f crate d)) c =
  if String.eqb c crate then cargo_toml d else manifest (with_fs w f) c.
Proof.
  unfold manifest, with_fs, put; simpl. destruct (String.eqb c crate); reflexivity.
Qed.

Lemma put_same (f : filesystem) crate d : put f crate d crate = Some d.
Proof. unfold put. now rewrite String.eqb_refl. Qed.

Lemma put_other (f : filesystem) crate d c :
  c <> crate -> put f crate d c = f c.
Proof. unfold put. intros H. apply String.eqb_neq in H. now rewrite H. Qed.

Ltac run :=
  repeat (progress (cbn -[put String.eqb Improved.resolve
                          Automated.fixed_content AllCrates.fixed_content
                          Automated.accepted AllCrates.accepted];
                    rewrite ?put_same)).

Section OneCrate.
Variable remote : Type.
Variable cargo : remote -> string -> option string
                 -> remote * proc * option string.
Variable toml_loads : string -> res dict.
Variable toml_dumps : dict -> string.
Variable escapes : string -> res (string -> option string -> string).

#[local] Abbreviation improved_publish := (Improved.publish_crate remote cargo toml_loads toml_dumps).

(** publish-hanzo-improved.py: whatever the parser, the resolver and cargo
    do, the manifest of every crate reads after [publish_crate] as it did
    before. *)
Lemma same_manifests_refl (w : world remote) : same_manifests w w.
Proof. intros c; reflexivity. Qed.

Lemma same_manifests_trans (w1 w2 w3 : world remote) :
  same_manifests w1 w2 -> same_manifests w2 w3 -> same_manifests w1 w3.
Proof. intros H1 H2 c. now rewrite H2, H1. Qed.

Lemma same_manifests_manifest (w w' : world remote) :
  same_manifests w w' -> forall c, manifest w' c = manifest w c.
Proof.
  intros H c. specialize (H c). unfold manifest.
  destruct (fs w' c), (fs w c); simpl in H; congruence.
Qed.

Lemma same_manifests_exists (w w' : world remote) :
  same_manifests w w' ->
  forall c, fst (path_exists c w') = w' /\
            snd (path_exists c w') = snd (path_exists c w).
Proof.
  intros H c. specialize (H c). unfold path_exists, St.gets; simpl.
  destruct (fs w' c), (fs w c); simpl in H; try discriminate; auto.
Qed.

(** The directory of [crate] holds [content] again and every other
    directory is as it was. *)
Lemma restored_same (w : world remote) (f : filesystem) crate content saved :
  fs w crate = Some (Dir (Some content) saved) ->
  (forall c, c <> crate -> f c = fs w c) ->
  (exists b, f crate = Some (Dir (Some content) b)) ->
  forall c, option_map cargo_toml (f c) = option_map cargo_toml (fs w c).
Proof.
  intros Hfs Hother [b Hsame] c.
  destruct (string_dec c crate) as [->|Hne].
  - now rewrite Hsame, Hfs.
  - now rewrite Hother.
Qed.

(** What [publish_crate] of publish-hanzo-improved.py does, by cases on
    the manifest, the parser, the resolver and cargo. *)
Lemma announced_snoc_publish t crate e :
  announced (t ++ [CargoPublish crate e]) = announced t.
Proof. induction t as [|[] t IH]; simpl; rewrite ?IH; reflexivity. Qed.

Lemma announced_app t1 t2 : announced (t1 ++ t2) = (announced t1 ++ announced t2)%list.
Proof. induction t1 as [|[] t IH]; simpl; rewrite ?IH; reflexivity. Qed.

Lemma attempts_app t1 t2 : attempts (t1 ++ t2) = (attempts t1 ++ attempts t2)%list.
Proof. induction t1 as [|[] t IH]; simpl; rewrite ?IH; reflexivity. Qed.

Lemma shipped_app t1 t2 : shipped (t1 ++ t2) = (shipped t1 ++ shipped t2)%list.
Proof. induction t1 as [|[] t IH]; simpl; rewrite ?IH; reflexivity. Qed.

Lemma improved_publish_crate_spec (crate : string) (w : world remote) :
  let '(w', r) := improved_publish crate w in
  same_manifests w w' /\ token w' = token w /\ stdin w' = stdin w /\
  announced (trace w') = announced (trace w) /\
  match manifest w crate with
  | None => r = Ok false /\ trace w' = trace w /\ registry w' = registry w
  | Some content =>
      match Py.bind (toml_loads content) Improved.resolve with
      | Raise e => r = Raise e /\ trace w' = trace w /\ registry w' = registry w
      | Ok data' =>
          let text := toml_dumps data' in
          let '(rg, p, _) := cargo (registry w) crate (Some text) in
          r = Ok (fst (answer p)) /\
          trace w' = (trace w ++ [CargoPublish crate (Some text)])%list /\
          registry w' = rg
      end
  end.
Proof.
  unfold Improved.publish_crate, Improved.fix_workspace_inheritance, run_command,
    subprocess_run, read_manifest, write_manifest, manifest.
  st_unfold. unfold shell at 1.
  destruct (fs w crate) as [[[content|] saved]|] eqn:Hfs.
  2,3: cbn; rewrite ?Hfs; repeat split; reflexivity.
  run.
  assert (Hrest : forall f : filesystem,
             (forall c, c <> crate -> f c = fs w c) ->
             (exists b, f crate = Some (Dir (Some content) b)) ->
             forall c, option_map cargo_toml (f c) = option_map cargo_toml (fs w c))
    by (intros f; apply (restored_same w f crate content saved Hfs)).
  destruct (toml_loads content) as [data|e]; run.
  2:{ repeat split; try reflexivity.
      unfold same_manifests; cbn -[put]; apply Hrest;
        [intros c Hc; now rewrite !put_other|rewrite put_same; eauto]. }
  destruct (Improved.resolve data) as [data'|e]; run.
  2:{ repeat split; try reflexivity.
      unfold same_manifests; cbn -[put]; apply Hrest;
        [intros c Hc; now rewrite !put_other|rewrite put_same; eauto]. }
  destruct (cargo (registry w) crate (Some (toml_dumps data'))) as [[rg p] m].
  run.
  destruct p as [rc out err|e]; run; [destruct (Z.eqb rc 0); run|];
    (repeat split; try reflexivity; try apply announced_snoc_publish;
     unfold same_manifests; cbn -[put]; apply Hrest;
        [intros c Hc; now rewrite !put_other|rewrite put_same; eauto]).
Qed.

(** The manifest of every crate reads after [publish_crate] as it did
    before, on every way out. *)
Lemma improved_publish_crate_restores (crate : string) (w : world remote) :
  forall c, manifest (fst (improved_publish crate w)) c = manifest w c.
Proof.
  pose proof (improved_publish_crate_spec crate w) as H.
  destruct (improved_publish crate w) as [w' r].
  destruct H as (H & _). now apply same_manifests_manifest.
Qed.

#[local] Abbreviation automated_publish :=
  (Automated.publish_crate remote cargo escapes).

(** What [publish_crate] of publish-hanzo-automated.py does. *)
Lemma automated_publish_crate_spec (crate : string) (s : Automated.state remote) :
  let w := Automated.os s in
  let '(s', r) := automated_publish crate s in
  let w' := Automated.os s' in
  same_manifests w w' /\ token w' = token w /\ stdin w' = stdin w /\
  match fs w crate with
  | None =>
      r = Ok false /\ trace w' = trace w /\ registry w' = registry w /\
      Automated.published s' = Automated.published s
  | Some d =>
      match cargo_toml d with
      | None =>
          r = Ok false /\ trace w' = (trace w ++ [Announced crate])%list /\
          registry w' = registry w /\
          Automated.published s' = Automated.published s
      | Some content =>
          match Automated.fixed_content escapes (Automated.published s) crate
                  content with
          | Raise _ =>
              r = Ok false /\ trace w' = (trace w ++ [Announced crate])%list /\
              registry w' = registry w /\
              Automated.published s' = Automated.published s
          | Ok text =>
              let '(rg, p, _) := cargo (registry w) crate (Some text) in
              let ok := Automated.accepted (fst (answer p)) (snd (answer p)) in
              r = Ok ok /\
              trace w' = (trace w ++ [Announced crate;
                                      CargoPublish crate (Some text)])%list /\
              registry w' = rg /\
              Automated.published s' =
                if ok then Dict.set (replace "-" "_" crate) "1.1.10"
                                    (Automated.published s)
                else Automated.published s
          end
      end
  end.
Proof.
  destruct s as [pub w].
  unfold Automated.publish_crate, Automated.create_fixed_cargo_toml,
    Automated.check_run, Automated.on_os, run_command,
    subprocess_run, read_manifest, write_manifest, manifest, path_exists, emit.
  st_unfold. cbn -[put Automated.fixed_content Automated.accepted shell].
  destruct (fs w crate) as [[[content|] saved]|] eqn:Hfs.
  3: cbn; repeat split; reflexivity.
  2:{ cbn -[put Automated.fixed_content Automated.accepted]. rewrite Hfs.
      cbn. repeat split; reflexivity. }
  cbn -[put Automated.fixed_content Automated.accepted]. rewrite !Hfs.
  run.
  destruct (Automated.fixed_content escapes pub crate content) as [text|e] eqn:Ef.
  2:{ run. repeat split; reflexivity. }
  run. rewrite !Hfs. run.
  assert (Hrest : forall f : filesystem,
             (forall c, c <> crate -> f c = fs w c) ->
             (exists b, f crate = Some (Dir (Some content) b)) ->
             forall c, option_map cargo_toml (f c) = option_map cargo_toml (fs w c))
    by (intros f; apply (restored_same w f crate content saved Hfs)).
  destruct (cargo (registry w) crate (Some text)) as [[rg p] m].
  run.
  rewrite <- List.app_assoc. cbn [List.app].
  destruct p as [rc out err|e]; run;
    (match goal with |- context [Automated.accepted ?a ?b] =>
       destruct (Automated.accepted a b) end); run;
    (repeat split; try reflexivity;
     unfold same_manifests; cbn -[put]; apply Hrest;
        [intros c Hc; now rewrite !put_other|rewrite put_same; eauto]).
Qed.

#[local] Abbreviation allcrates_publish := (AllCrates.publish_crate remote cargo).

(** What [publish_crate] of publish-all-hanzo-crates.py does: the manifest
    cargo reads is the fixed one, and it is the fixed one that stays. *)
Lemma allcrates_publish_crate_spec (crate : string) (w : world remote) :
  let '(w', r) := allcrates_publish crate w in
  token w' = token w /\ stdin w' = stdin w /\
  (forall c, c <> crate -> fs w' c = fs w c) /\
  match fs w crate with
  | None => r = Ok false /\ w' = w
  | Some d =>
      let seen := option_map AllCrates.fixed_content (cargo_toml d) in
      let '(rg, p, m) := cargo (registry w) crate seen in
      r = Ok (AllCrates.accepted (fst (answer p)) (snd (answer p))) /\
      trace w' = (trace w ++ [Announced crate; CargoPublish crate seen])%list /\
      registry w' = rg /\
      manifest w' crate = m
  end.
Proof.
  unfold AllCrates.publish_crate, AllCrates.fix_cargo_toml, run_command,
    subprocess_run, read_manifest, write_manifest, manifest, path_exists, emit.
  st_unfold. cbn -[put AllCrates.fixed_content AllCrates.accepted shell].
  destruct (fs w crate) as [[[content|] saved]|] eqn:Hfs.
  3: cbn; repeat split; reflexivity.
  - cbn -[put AllCrates.fixed_content AllCrates.accepted]. rewrite !Hfs.
    cbn -[put AllCrates.fixed_content AllCrates.accepted].
    destruct (String.eqb (AllCrates.fixed_content content) content) eqn:E.
    + apply String.eqb_eq in E. rewrite E.
      cbn -[put AllCrates.fixed_content AllCrates.accepted]. rewrite !Hfs.
      run.
      destruct (cargo (registry w) crate (Some content)) as [[rg p] m].
      rewrite <- List.app_assoc. cbn [List.app].
      destruct p as [rc out err|e]; run;
        (match goal with |- context [AllCrates.accepted ?a ?b] =>
           destruct (AllCrates.accepted a b) end); run;
        (repeat split;
         first [reflexivity | intros c Hc; now rewrite !put_other
               | now rewrite ?put_same, ?Hfs ]).
    + cbn -[put AllCrates.fixed_content AllCrates.accepted]. rewrite !Hfs.
      run.
      destruct (cargo (registry w) crate
                  (Some (AllCrates.fixed_content content))) as [[rg p] m].
      rewrite <- List.app_assoc. cbn [List.app].
      destruct p as [rc out err|e]; run;
        (match goal with |- context [AllCrates.accepted ?a ?b] =>
           destruct (AllCrates.accepted a b) end); run;
        (repeat split;
         first [reflexivity | intros c Hc; now rewrite !put_other
               | now rewrite ?put_same, ?Hfs ]).
  - cbn -[put AllCrates.fixed_content AllCrates.accepted]. rewrite !Hfs.
    cbn -[put AllCrates.fixed_content AllCrates.accepted]. rewrite !Hfs.
    run.
    destruct (cargo (registry w) crate None) as [[rg p] m].
    rewrite <- List.app_assoc. cbn [List.app].
    destruct p as [rc out err|e]; run;
      (match goal with |- context [AllCrates.accepted ?a ?b] =>
         destruct (AllCrates.accepted a b) end); run;
      (repeat split;
         first [reflexivity | intros c Hc; now rewrite !put_other
               | now rewrite ?put_same, ?Hfs ]).
Qed.

End OneCrate.
End CrateFacts.

(* ================================================================== *)
(** ** The publish loops *)
(* ================================================================== *)

Module LoopFacts.
Import Py Toml St Os Props StringFacts RunFacts CrateFacts.


Lemma has_manifest_same {remote} (w w' : world remote) :
  same_manifests w w' -> forall c, has_manifest w' c = has_manifest w c.
Proof.
  intros H c. unfold has_manifest. now rewrite (same_manifests_manifest _ w w' H).
Qed.

Lemma dir_exists_same {remote} (w w' : world remote) :
  same_manifests w w' -> forall c, dir_exists w' c = dir_exists w c.
Proof.
  intros H c. specialize (H c). unfold dir_exists.
  destruct (fs w' c), (fs w c); simpl in H; try discriminate; auto.
Qed.

Lemma filter_ext_in_eq {A} (f g : A -> bool) (l : list A) :
  (forall x, f x = g x) -> filter f l = filter g l.
Proof. intros H. apply filter_ext. exact H. Qed.

Lemma perm_snoc_left {A} (a : A) (s s' f l : list A) :
  Permutation (s' ++ f) l -> s = s' ->
  Permutation ((a :: s) ++ f) (a :: l).
Proof. intros H ->. simpl. now constructor. Qed.

Lemma perm_snoc_right {A} (a : A) (s f l : list A) :
  Permutation (s ++ f) l -> Permutation (s ++ a :: f) (a :: l).
Proof.
  intros H. apply Permutation_sym, Permutation_cons_app, Permutation_sym, H.
Qed.

Lemma settle_same {remote} (all : list string) (c : string) (w : world remote) :
  exists w', settle all c w = (w', Ok tt) /\ same_manifests w w'.
Proof.
  unfold settle. destruct (String.eqb c (last_crate all));
    eexists; (split; [reflexivity|]); intros x; reflexivity.
Qed.

Section Improved.
Variable remote : Type.
Variable cargo : remote -> string -> option string
                 -> remote * proc * option string.
Variable toml_loads : string -> res dict.
Variable toml_dumps : dict -> string.


Lemma improved_publish_loop_spec (all crates : list string) :
  forall (w : world remote) (succeeded failed : list string),
    resolvable toml_loads w crates ->
    exists w' succeeded' failed',
      Improved.publish_loop remote cargo toml_loads toml_dumps
        all crates succeeded failed w
      = (w', Ok ((succeeded ++ succeeded')%list, (failed ++ failed')%list)) /\
      same_manifests w w' /\
      announced (trace w') = (announced (trace w) ++ crates)%list /\
      attempts (trace w') =
        (attempts (trace w) ++ filter (has_manifest w) crates)%list /\
      Permutation (succeeded' ++ failed') crates.
Proof.
  induction crates as [|c rest IH]; intros w succeeded failed Hres.
  - exists w, [], []. cbn. rewrite !app_nil_r.
    repeat split; auto using same_manifests_refl.
  - cbn [Improved.publish_loop]. unfold St.bind at 1. cbn [emit St.modify].
    set (w1 := World (fs w) (registry w) (trace w ++ [Announced c]) (stdin w) (token w)).
    assert (Hsame1 : same_manifests w w1) by (intros x; reflexivity).
    assert (Hres_rest : forall w2, same_manifests w w2 -> resolvable toml_loads w2 rest).
    { intros w2 H2 x content Hin Hm. apply (Hres x content); [now right|].
      now rewrite <- (same_manifests_manifest _ w w2 H2). }
    unfold St.bind at 1. unfold path_exists at 1, St.gets at 1. cbn [fs w1].
    destruct (fs w c) as [d|] eqn:Hfs; cbn [negb].
    + unfold St.bind at 1.
      pose proof (improved_publish_crate_spec remote cargo toml_loads toml_dumps c w1)
        as Hspec.
      destruct (Improved.publish_crate remote cargo toml_loads toml_dumps c w1)
        as [w2 r].
      destruct Hspec as (Hsame2 & _ & _ & Hann & Hcase).
      assert (Hsame12 : same_manifests w w2)
        by (apply (same_manifests_trans _ w w1 w2); assumption).
      change (manifest w1 c) with (manifest w c) in Hcase.
      unfold manifest in Hcase at 1. rewrite Hfs in Hcase.
      assert (Hhas : has_manifest w c =
                     match cargo_toml d with Some _ => true | None => false end).
      { unfold has_manifest, manifest. now rewrite Hfs. }
      destruct (cargo_toml d) as [content|] eqn:Hct.
      * destruct (Hres c content) as [data Hdata]; [now left| |].
        { unfold manifest. now rewrite Hfs. }
        rewrite Hdata in Hcase. cbn zeta in Hcase.
        destruct (cargo (registry w1) c (Some (toml_dumps data))) as [[rg p] m].
        destruct Hcase as (-> & Htrace & _).
        destruct (fst (answer p)).
        -- unfold St.bind at 1.
           assert (Hset : exists w3, settle all c w2 = (w3, Ok tt) /\
                     same_manifests w2 w3 /\
                     announced (trace w3) = announced (trace w2) /\
                     attempts (trace w3) = attempts (trace w2)).
           { unfold settle. destruct (String.eqb c (last_crate all));
               eexists; (split; [reflexivity|]); cbn;
               rewrite ?announced_app, ?attempts_app; cbn;
               rewrite ?app_nil_r; repeat split; auto; intros x; reflexivity. }
           destruct Hset as (w3 & -> & Hsame3 & Hann3 & Hatt3).
           assert (Hsame13 : same_manifests w w3)
             by (apply (same_manifests_trans _ w w2 w3); assumption).
           destruct (IH w3 (succeeded ++ [c])%list failed (Hres_rest _ Hsame13))
             as (w' & s' & f' & -> & Hs' & Ha' & Ht' & Hp').
           exists w', (c :: s'), f'. rewrite <- List.app_assoc. cbn [List.app].
           split; [reflexivity|]. split; [eapply same_manifests_trans; [|exact Hs']; assumption|].
           split.
           { rewrite Ha', Hann3, Hann. subst w1; cbn [trace].
             rewrite announced_app. cbn. now rewrite <- List.app_assoc. }
           split.
           { rewrite Ht', Hatt3, Htrace. subst w1; cbn [trace].
             rewrite !attempts_app. cbn. rewrite Hhas, app_nil_r.
             rewrite <- List.app_assoc. cbn.
             f_equal. f_equal. apply filter_ext.
             intros x. now apply has_manifest_same. }
           cbn. now constructor.
        -- destruct (IH w2 succeeded (failed ++ [c])%list (Hres_rest _ Hsame12))
             as (w' & s' & f' & -> & Hs' & Ha' & Ht' & Hp').
           exists w', s', (c :: f'). rewrite <- List.app_assoc. cbn [List.app].
           split; [reflexivity|]. split; [eapply same_manifests_trans; [|exact Hs']; assumption|].
           split.
           { rewrite Ha', Hann. subst w1; cbn [trace].
             rewrite announced_app. cbn. now rewrite <- List.app_assoc. }
           split.
           { rewrite Ht', Htrace. subst w1; cbn [trace].
             rewrite !attempts_app. cbn. rewrite Hhas, app_nil_r.
             rewrite <- List.app_assoc. cbn.
             f_equal. f_equal. apply filter_ext.
             intros x. now apply has_manifest_same. }
           now apply perm_snoc_right.
      * destruct Hcase as (-> & Htrace & _).
        destruct (IH w2 succeeded (failed ++ [c])%list (Hres_rest _ Hsame12))
          as (w' & s' & f' & -> & Hs' & Ha' & Ht' & Hp').
        exists w', s', (c :: f'). rewrite <- List.app_assoc. cbn [List.app].
        split; [reflexivity|]. split; [eapply same_manifests_trans; [|exact Hs']; assumption|].
        split.
        { rewrite Ha', Hann. subst w1; cbn [trace].
          rewrite announced_app. cbn. now rewrite <- List.app_assoc. }
        split.
        { rewrite Ht', Htrace. subst w1; cbn [trace].
          rewrite !attempts_app. cbn. rewrite Hhas, app_nil_r.
          f_equal. apply filter_ext.
          intros x. now apply has_manifest_same. }
        now apply perm_snoc_right.
    + destruct (IH w1 succeeded (failed ++ [c])%list (Hres_rest _ Hsame1))
        as (w' & s' & f' & -> & Hs' & Ha' & Ht' & Hp').
      exists w', s', (c :: f'). rewrite <- List.app_assoc. cbn [List.app].
      split; [reflexivity|]. split; [eapply same_manifests_trans; [|exact Hs']; assumption|].
      split.
      { rewrite Ha'. subst w1; cbn [trace].
        rewrite announced_app. cbn. now rewrite <- List.app_assoc. }
      split.
      { rewrite Ht'. subst w1; cbn [trace].
        rewrite !attempts_app. cbn.
        assert (Hhas : has_manifest w c = false)
          by (unfold has_manifest, manifest; now rewrite Hfs).
        rewrite Hhas, app_nil_r.
        f_equal. }
      now apply perm_snoc_right.
Qed.

(** Whatever happens in the loop, also when an exception ends it, the
    manifests read afterwards as they did before. *)
Lemma improved_publish_loop_restores (all crates : list string) :
  forall (w : world remote) (succeeded failed : list string),
    same_manifests w
      (fst (Improved.publish_loop remote cargo toml_loads toml_dumps
              all crates succeeded failed w)).
Proof.
  induction crates as [|c rest IH]; intros w succeeded failed.
  - cbn. intros x; reflexivity.
  - cbn [Improved.publish_loop]. unfold St.bind at 1. cbn [emit St.modify].
    set (w1 := World (fs w) (registry w) (trace w ++ [Announced c]) (stdin w) (token w)).
    assert (Hsame1 : same_manifests w w1) by (intros x; reflexivity).
    unfold St.bind at 1. unfold path_exists at 1, St.gets at 1. cbn [fs w1].
    destruct (fs w c) as [d|]; cbn [negb].
    + unfold St.bind at 1.
      pose proof (improved_publish_crate_spec remote cargo toml_loads toml_dumps c w1)
        as Hspec.
      destruct (Improved.publish_crate remote cargo toml_loads toml_dumps c w1)
        as [w2 r].
      destruct Hspec as (Hsame2 & _).
      assert (Hsame12 : same_manifests w w2)
        by (apply (same_manifests_trans _ w w1 w2); assumption).
      destruct r as [[|]|e].
      * unfold St.bind at 1.
        destruct (settle_same all c w2) as (w3 & -> & Hsame3).
        eapply same_manifests_trans; [|apply IH].
        apply (same_manifests_trans _ w w2 w3); assumption.
      * eapply same_manifests_trans; [exact Hsame12|apply IH].
      * exact Hsame12.
    + eapply same_manifests_trans; [exact Hsame1|apply IH].
Qed.

Lemma improved_main_restores (crates : list string) (w : world remote) :
  same_manifests w
    (fst (Improved.main remote cargo toml_loads toml_dumps crates w)).
Proof.
  unfold Improved.main. unfold St.bind at 1, St.gets.
  destruct (token_missing w); [intros x; reflexivity|].
  unfold St.bind.
  pose proof (improved_publish_loop_restores crates crates w [] []) as H.
  destruct (Improved.publish_loop _ _ _ _ crates crates [] [] w) as [w' [[s f]|e]];
    exact H.
Qed.

End Improved.


Section Automated.
Variable remote : Type.
Variable cargo : remote -> string -> option string
                 -> remote * proc * option string.
Variable escapes : string -> res (string -> option string -> string).

Lemma settle_spec (all : list string) (c : string) (w : world remote) :
  exists w', settle all c w = (w', Ok tt) /\
    same_manifests w w' /\
    announced (trace w') = announced (trace w) /\
    attempts (trace w') = attempts (trace w) /\
    shipped (trace w') = shipped (trace w).
Proof.
  unfold settle. destruct (String.eqb c (last_crate all));
    eexists; (split; [reflexivity|]); cbn;
    rewrite ?announced_app, ?attempts_app, ?shipped_app; cbn;
    rewrite ?app_nil_r; repeat split; auto; intros x; reflexivity.
Qed.

(** Whether the preparation raises does not depend on the registry. *)
Lemma prepares_registry (published : Dict.t string) (crate content : string) :
  AutoProps.prepares escapes crate content =
  match Automated.fixed_content escapes published crate content with
  | Ok _ => true
  | Raise _ => false
  end.
Proof.
  unfold AutoProps.prepares, Automated.fixed_content.
  destruct (Automated.add_description _ _ _); reflexivity.
Qed.

Lemma prepared_same (w w' : world remote) :
  same_manifests w w' ->
  forall c, AutoProps.prepared escapes w' c = AutoProps.prepared escapes w c.
Proof.
  intros H c. unfold AutoProps.prepared.
  now rewrite (same_manifests_manifest _ w w' H).
Qed.

Lemma automated_publish_loop_spec (all crates : list string) :
  forall (s : Automated.state remote) (failed : list string),
    exists s' registered failed',
      Automated.publish_loop remote cargo escapes all crates failed s
      = (s', Ok (failed ++ failed')%list) /\
      same_manifests (Automated.os s) (Automated.os s') /\
      announced (trace (Automated.os s')) =
        (announced (trace (Automated.os s))
         ++ filter (dir_exists (Automated.os s)) crates)%list /\
      attempts (trace (Automated.os s')) =
        (attempts (trace (Automated.os s))
         ++ filter (AutoProps.prepared escapes (Automated.os s)) crates)%list /\
      Permutation (registered ++ failed') crates /\
      Automated.published s' = register registered (Automated.published s).
Proof.
  induction crates as [|c rest IH]; intros s failed.
  - exists s, [], []. cbn. rewrite !app_nil_r.
    repeat split; auto; intros x; reflexivity.
  - cbn [Automated.publish_loop]. unfold St.bind at 1.
    pose proof (automated_publish_crate_spec remote cargo escapes c s) as Hspec.
    cbn zeta in Hspec.
    destruct (Automated.publish_crate remote cargo escapes c s) as [s1 r].
    destruct Hspec as (Hsame1 & _ & _ & Hcase).
    assert (Hd : dir_exists (Automated.os s) c =
                 match fs (Automated.os s) c with Some _ => true | None => false end)
      by reflexivity.
    assert (Hm : AutoProps.prepared escapes (Automated.os s) c =
                 match fs (Automated.os s) c with
                 | Some d =>
                     match cargo_toml d with
                     | Some content =>
                         match Automated.fixed_content escapes
                                 (Automated.published s) c content with
                         | Ok _ => true
                         | Raise _ => false
                         end
                     | None => false
                     end
                 | None => false end).
    { unfold AutoProps.prepared, manifest.
      destruct (fs (Automated.os s) c) as [d|]; [|reflexivity].
      destruct (cargo_toml d); [|reflexivity]. apply prepares_registry. }
    assert (Hfail : forall tr,
      r = Ok false ->
      trace (Automated.os s1) = (trace (Automated.os s) ++ tr)%list ->
      announced tr = (if dir_exists (Automated.os s) c then [c] else []) ->
      attempts tr = (if AutoProps.prepared escapes (Automated.os s) c
                     then [c] else []) ->
      Automated.published s1 = Automated.published s ->
      exists s' registered failed',
        (if false then
           St.bind (Automated.on_os remote (settle all c))
             (fun _ => Automated.publish_loop remote cargo escapes all rest failed)
         else Automated.publish_loop remote cargo escapes all rest (failed ++ [c])) s1
        = (s', Ok (failed ++ failed')%list) /\
        same_manifests (Automated.os s) (Automated.os s') /\
        announced (trace (Automated.os s')) =
          (announced (trace (Automated.os s))
           ++ filter (dir_exists (Automated.os s)) (c :: rest))%list /\
        attempts (trace (Automated.os s')) =
          (attempts (trace (Automated.os s))
           ++ filter (AutoProps.prepared escapes (Automated.os s)) (c :: rest))%list /\
        Permutation (registered ++ failed') (c :: rest) /\
        Automated.published s' = register registered (Automated.published s)).
    { intros tr _ Htr Han Hat Hpub.
      destruct (IH s1 (failed ++ [c])%list)
        as (s' & reg & f' & Heq & Hs' & Ha' & Ht' & Hp' & Hr').
      exists s', reg, (c :: f'). rewrite <- List.app_assoc in Heq.
      split; [exact Heq|].
      split; [eapply same_manifests_trans; [|exact Hs']; assumption|].
      split.
      { rewrite Ha', Htr, announced_app, Han. cbn [filter].
        rewrite <- List.app_assoc. f_equal.
        rewrite (filter_ext _ _ (dir_exists_same _ _ Hsame1)).
        destruct (dir_exists (Automated.os s) c); reflexivity. }
      split.
      { rewrite Ht', Htr, attempts_app, Hat. cbn [filter].
        rewrite <- List.app_assoc. f_equal.
        rewrite (filter_ext _ _ (prepared_same _ _ Hsame1)).
        destruct (AutoProps.prepared escapes (Automated.os s) c); reflexivity. }
      split; [now apply perm_snoc_right|].
      now rewrite Hr', Hpub. }
    destruct (fs (Automated.os s) c) as [d|] eqn:Hfs.
    + destruct (cargo_toml d) as [content|] eqn:Hct.
      * destruct (Automated.fixed_content escapes (Automated.published s) c content)
          as [text|e] eqn:Ef.
        2:{ destruct Hcase as (-> & Htrace & _ & Hpub).
            apply (Hfail [Announced c]); auto; rewrite ?Hd, ?Hm; reflexivity. }
        destruct (cargo (registry (Automated.os s)) c (Some text))
          as [[rg p] m].
        destruct Hcase as (Hr & Htrace & _ & Hpub).
        destruct (Automated.accepted (fst (answer p)) (snd (answer p))); subst r.
        -- unfold St.bind at 1. unfold Automated.on_os at 1.
           destruct (settle_spec all c (Automated.os s1))
             as (w2 & -> & Hsame2 & Hann2 & Hatt2 & _).
           destruct (IH (Automated.State (Automated.published s1) w2) failed)
             as (s' & reg & f' & -> & Hs' & Ha' & Ht' & Hp' & Hr').
           cbn [Automated.os Automated.published] in *.
           exists s', (c :: reg), f'.
           split; [reflexivity|].
           assert (Hsame02 : same_manifests (Automated.os s) w2)
             by (eapply same_manifests_trans; eassumption).
           split; [eapply same_manifests_trans; [|exact Hs']; assumption|].
           split.
           { rewrite Ha', Hann2, Htrace, announced_app. cbn [filter announced].
             rewrite Hd, <- List.app_assoc. f_equal. cbn. f_equal.
             apply filter_ext, dir_exists_same, Hsame02. }
           split.
           { rewrite Ht', Hatt2, Htrace, attempts_app. cbn [filter attempts].
             rewrite Hm, <- List.app_assoc. f_equal. cbn. f_equal.
             apply filter_ext, prepared_same, Hsame02. }
           split; [cbn; now constructor|].
           rewrite Hr', Hpub. reflexivity.
        -- apply (Hfail [Announced c; CargoPublish c (Some text)]);
             auto; rewrite ?Hd, ?Hm; reflexivity.
      * destruct Hcase as (-> & Htrace & _ & Hpub).
        apply (Hfail [Announced c]); auto; rewrite ?Hd, ?Hm; reflexivity.
    + destruct Hcase as (-> & Htrace & _ & Hpub).
      apply (Hfail []); rewrite ?Hd, ?Hm, ?app_nil_r; auto.
Qed.

Lemma automated_main_restores (crates : list string) (s : Automated.state remote) :
  same_manifests (Automated.os s)
    (Automated.os (fst (Automated.main remote cargo escapes crates s))).
Proof.
  unfold Automated.main. unfold St.bind at 1, St.gets.
  destruct (token_missing (Automated.os s)); [intros x; reflexivity|].
  unfold St.bind.
  destruct (automated_publish_loop_spec crates crates s [])
    as (s' & registered & failed & -> & H & _).
  exact H.
Qed.

End Automated.

End LoopFacts.

(* ================================================================== *)
(** ** Facts about dictionaries *)
(* ================================================================== *)

Module DictFacts.
Import Py Props.

Section Generic.
Context {V : Type}.
Implicit Types (d : Dict.t V) (k : string) (v : V).

Lemma get_set_same k v d : Dict.get k (Dict.set k v d) = Some v.
Proof.
  induction d as [|[k' v'] d IH]; simpl.
  - now rewrite String.eqb_refl.
  - destruct (String.eqb k k') eqn:E; simpl.
    + now rewrite String.eqb_refl.
    + now rewrite E.
Qed.

Lemma get_set_other k k' v d :
  k <> k' -> Dict.get k (Dict.set k' v d) = Dict.get k d.
Proof.
  intros Hne. induction d as [|[k0 v0] d IH]; simpl.
  - apply String.eqb_neq in Hne. now rewrite Hne.
  - destruct (String.eqb k' k0) eqn:E; simpl.
    + apply String.eqb_eq in E; subst k0.
      apply String.eqb_neq in Hne. now rewrite Hne.
    + now rewrite IH.
Qed.

(** Writing what is there changes nothing. *)
Lemma set_get_id k v d : Dict.get k d = Some v -> Dict.set k v d = d.
Proof.
  induction d as [|[k0 v0] d IH]; simpl; [discriminate|].
  destruct (String.eqb k k0) eqn:E.
  - apply String.eqb_eq in E; subst. now intros [= ->].
  - intros H. now rewrite IH.
Qed.

Lemma set_set k v v' d : Dict.set k v (Dict.set k v' d) = Dict.set k v d.
Proof.
  induction d as [|[k0 v0] d IH]; simpl.
  - now rewrite String.eqb_refl.
  - destruct (String.eqb k k0) eqn:E; simpl.
    + now rewrite String.eqb_refl.
    + now rewrite E, IH.
Qed.

Lemma has_set_same k v d : Dict.has k (Dict.set k v d) = true.
Proof. unfold Dict.has. now rewrite get_set_same. Qed.


Lemma has_true k d : Dict.has k d = true <-> exists v, Dict.get k d = Some v.
Proof.
  unfold Dict.has. destruct (Dict.get k d); split; eauto; try discriminate.
  intros [v H]; discriminate.
Qed.

Lemma has_false k d : Dict.has k d = false <-> Dict.get k d = None.
Proof. unfold Dict.has. destruct (Dict.get k d); split; congruence. Qed.

Lemma has_in_keys k d : Dict.has k d = true <-> In k (Dict.keys d).
Proof.
  unfold Dict.has. induction d as [|[k0 v0] d IH]; simpl.
  - split; [discriminate|tauto].
  - destruct (String.eqb k k0) eqn:E.
    + apply String.eqb_eq in E. split; auto.
    + apply String.eqb_neq in E. rewrite IH. split; [auto|].
      intros [H|H]; [congruence|exact H].
Qed.

(** An assignment to a key that exists keeps the keys and their order. *)
Lemma keys_set_present k v d :
  Dict.has k d = true -> Dict.keys (Dict.set k v d) = Dict.keys d.
Proof.
  unfold Dict.has. induction d as [|[k0 v0] d IH]; simpl; [discriminate|].
  destruct (String.eqb k k0) eqn:E; simpl.
  - apply String.eqb_eq in E. now subst.
  - intros H. now rewrite IH.
Qed.

Lemma keys_set_absent k v d :
  Dict.has k d = false -> Dict.keys (Dict.set k v d) = (Dict.keys d ++ [k])%list.
Proof.
  unfold Dict.has. induction d as [|[k0 v0] d IH]; simpl; [reflexivity|].
  destruct (String.eqb k k0) eqn:E; simpl; [discriminate|].
  intros H. now rewrite IH.
Qed.

Lemma in_keys_set k k' v d :
  In k (Dict.keys (Dict.set k' v d)) -> k = k' \/ In k (Dict.keys d).
Proof.
  destruct (Dict.has k' d) eqn:E.
  - rewrite keys_set_present by exact E. auto.
  - rewrite keys_set_absent by exact E. rewrite in_app_iff. simpl.
    intuition.
Qed.

Lemma get_remove_same k d : Dict.get k (Dict.remove k d) = None.
Proof.
  unfold Dict.remove. induction d as [|[k0 v0] d IH]; simpl; [reflexivity|].
  destruct (String.eqb k k0) eqn:E; simpl; [exact IH|]. now rewrite E.
Qed.

Lemma get_remove_other k k' d :
  k <> k' -> Dict.get k (Dict.remove k' d) = Dict.get k d.
Proof.
  intros Hne. unfold Dict.remove.
  induction d as [|[k0 v0] d IH]; simpl; [reflexivity|].
  destruct (String.eqb k' k0) eqn:E; simpl.
  - apply String.eqb_eq in E; subst k0.
    apply String.eqb_neq in Hne. now rewrite Hne.
  - now rewrite IH.
Qed.

Lemma in_keys_remove k k' d :
  In k (Dict.keys (Dict.remove k' d)) -> k <> k' /\ In k (Dict.keys d).
Proof.
  unfold Dict.remove, Dict.keys.
  induction d as [|[k0 v0] d IH]; simpl; [tauto|].
  destruct (String.eqb k' k0) eqn:E; simpl.
  - intros H. destruct (IH H). auto.
  - intros [->|H].
    + apply String.eqb_neq in E. split; auto.
    + destruct (IH H). auto.
Qed.

Lemma get_in k v d : Dict.get k d = Some v -> In (k, v) d.
Proof.
  induction d as [|[k0 v0] d IH]; simpl; [discriminate|].
  destruct (String.eqb k k0) eqn:E.
  - apply String.eqb_eq in E; subst. intros [= ->]. now left.
  - intros H. right. now apply IH.
Qed.

(** Every entry of a dictionary after an assignment is the entry assigned
    or was there before. *)
Lemma in_set k v d kv :
  In kv (Dict.set k v d) -> kv = (k, v) \/ In kv d.
Proof.
  induction d as [|[k0 v0] d IH]; simpl.
  - intuition.
  - destruct (String.eqb k k0); simpl; intuition.
Qed.

End Generic.

(** The entries rewritten in place by a function of key and value. *)
Section Rewrite.
Context {V : Type}.
Variable g : string -> V -> res V.


Lemma map_res_get (d d' : Dict.t V) :
  map_res (entry_fn g) d = Ok d' ->
  forall k, match Dict.get k d with
            | Some v => exists v', g k v = Ok v' /\ Dict.get k d' = Some v'
            | None => Dict.get k d' = None
            end.
Proof.
  revert d'. induction d as [|[k0 v0] d IH]; intros d' H k; simpl in *.
  - now injection H as <-.
  - unfold entry_fn in H at 1. simpl in H.
    destruct (g k0 v0) as [v1|] eqn:Hg; simpl in H; [|discriminate].
    destruct (map_res (entry_fn g) d) as [d1|] eqn:Hd; simpl in H; [|discriminate].
    injection H as <-. simpl.
    destruct (String.eqb k k0) eqn:E.
    + apply String.eqb_eq in E; subst. eauto.
    + apply (IH d1 eq_refl k).
Qed.

Lemma map_res_in (d d' : Dict.t V) :
  map_res (entry_fn g) d = Ok d' ->
  forall k v', In (k, v') d' -> exists v, In (k, v) d /\ g k v = Ok v'.
Proof.
  revert d'. induction d as [|[k0 v0] d IH]; intros d' H k v' Hin; simpl in *.
  - injection H as <-. destruct Hin.
  - unfold entry_fn in H at 1. simpl in H.
    destruct (g k0 v0) as [v1|] eqn:Hg; simpl in H; [|discriminate].
    destruct (map_res (entry_fn g) d) as [d1|] eqn:Hd; simpl in H; [|discriminate].
    injection H as <-. destruct Hin as [[= <- <-]|Hin].
    + eauto.
    + destruct (IH d1 eq_refl k v' Hin) as (v & ? & ?). eauto.
Qed.

Lemma map_res_fixed (d : Dict.t V) :
  (forall k v, In (k, v) d -> g k v = Ok v) -> map_res (entry_fn g) d = Ok d.
Proof.
  induction d as [|[k0 v0] d IH]; intros H; simpl; [reflexivity|].
  unfold entry_fn at 1. simpl. rewrite (H k0 v0) by now left. simpl.
  rewrite IH; [reflexivity|]. intros k v Hin. apply H. now right.
Qed.

Lemma map_res_keys (d d' : Dict.t V) :
  map_res (entry_fn g) d = Ok d' -> Dict.keys d' = Dict.keys d.
Proof.
  revert d'. induction d as [|[k0 v0] d IH]; intros d' H; simpl in *.
  - now injection H as <-.
  - unfold entry_fn in H at 1. simpl in H.
    destruct (g k0 v0) as [v1|] eqn:Hg; simpl in H; [|discriminate].
    destruct (map_res (entry_fn g) d) as [d1|] eqn:Hd; simpl in H; [|discriminate].
    injection H as <-. simpl. f_equal. now apply IH.
Qed.

End Rewrite.

End DictFacts.

(* ================================================================== *)
(** ** The resolver on one declaration *)
(* ================================================================== *)

Module EntryFacts.
Import Py Toml Props DictFacts.
Import Improved.

Lemma versions_not_empty (name v : string) :
  Dict.get name DEPENDENCY_VERSIONS = Some v -> v <> "".
Proof.
  intros H. apply get_in in H.
  assert (Hall : forallb (fun kv => negb (String.eqb (snd kv) ""))
                         DEPENDENCY_VERSIONS = true) by reflexivity.
  rewrite forallb_forall in Hall. specialize (Hall _ H). simpl in Hall.
  intros ->. discriminate.
Qed.

Lemma eq_str_empty (v : string) : v <> "" -> eq_str "" (VStr v) = false.
Proof. intros H. simpl. destruct v; [congruence|reflexivity]. Qed.

Lemma existsb_snoc (f : string) (l : list value) :
  existsb (eq_str f) (l ++ [VStr f]) = true.
Proof.
  rewrite existsb_app. simpl. rewrite String.eqb_refl.
  now rewrite orb_true_r.
Qed.

Lemma py_in_single (f : string) : py_in f (strs [f]) = Ok true.
Proof. simpl. now rewrite String.eqb_refl. Qed.

(** After [features.append(f)] the test [f in features] holds. *)
Lemma py_in_append (f : string) (fs fs' : value) :
  py_append fs (VStr f) = Ok fs' -> py_in f fs' = Ok true.
Proof.
  destruct fs; simpl; try discriminate. intros [= <-]. simpl.
  now rewrite existsb_snoc.
Qed.

Lemma workspace_true_set_features (fs : value) (d : dict) :
  workspace_true (set "features" fs d) = workspace_true d.
Proof. unfold workspace_true. now rewrite get_set_other by discriminate. Qed.

(** *** fix_inline_tables *)

Lemma add_required_feature_ok (name : string) (fs fs' : value) :
  add_required_feature name fs = Ok fs' ->
  fs' = fs \/ exists f, required_feature name = Some f /\
                        py_in f fs = Ok false /\ py_append fs (VStr f) = Ok fs'.
Proof.
  unfold add_required_feature, required_feature.
  destruct (String.eqb name "chrono");
    [|destruct (String.eqb name "reqwest");
      [|destruct (String.eqb name "nalgebra")]];
    try (intros [= <-]; now left);
    (destruct (py_in _ fs) as [[|]|] eqn:E; simpl; try discriminate;
     [intros [= <-]; now left | intros H; right; eauto]).
Qed.

(** The declaration an iteration of [fix_inline_tables] leaves behind needs
    no further fixing. *)
Lemma fix_inline_entry_fixed (name : string) (v v' : value) :
  fix_inline_entry name v = Ok v' -> inline_fixed v' = true.
Proof.
  unfold fix_inline_entry, inline_fixed.
  destruct v as [s| | | |d]; try (intros [= <-]; reflexivity).
  - destruct (String.eqb s "") eqn:E.
    + destruct (lookup name DEPENDENCY_VERSIONS) as [ver|] eqn:Hv;
        intros [= <-]; [|reflexivity].
      cbn [inherited negb andb]. now rewrite eq_str_empty by
        (eapply versions_not_empty; eauto).
    + intros [= <-]. destruct s; [discriminate E|reflexivity].
  - destruct (workspace_true d) eqn:W.
    + destruct (add_required_feature name _) as [fs|]; simpl; [|discriminate].
      destruct (truthy fs); intros [= <-]; reflexivity.
    + intros [= <-]. cbn. now rewrite W.
Qed.

Lemma inline_fixed_id (name : string) (v : value) :
  inline_fixed v = true -> fix_inline_entry name v = Ok v.
Proof.
  unfold inline_fixed, fix_inline_entry.
  destruct v as [s| | | |d]; try reflexivity; cbn.
  - destruct s; [discriminate|reflexivity].
  - destruct (workspace_true d); [discriminate|reflexivity].
Qed.

(** *** The feature passes *)

Lemma fix_reqwest_entry_idem (x x' : value) :
  fix_reqwest_entry x = Ok x' -> fix_reqwest_entry x' = Ok x'.
Proof.
  unfold fix_reqwest_entry at 1.
  destruct x as [s| | | |d]; try (intros [= <-]; reflexivity).
  destruct (get "features" d) as [fs|] eqn:Hf.
  - destruct (py_in "json" fs) as [[|]|] eqn:Hin; simpl; try discriminate.
    + intros [= <-]. simpl. now rewrite Hf, Hin.
    + destruct (py_append fs (VStr "json")) as [fs'|] eqn:Ha; simpl;
        [|discriminate].
      intros [= <-]. simpl. rewrite get_set_same.
      now rewrite (py_in_append _ _ _ Ha).
  - intros [= <-]. simpl. now rewrite Hf.
Qed.

Lemma fix_feature_entry_idem (dv f : string) (x x' : value) :
  fix_feature_entry dv f x = Ok x' -> fix_feature_entry dv f x' = Ok x'.
Proof.
  unfold fix_feature_entry at 1.
  destruct x as [s| | | |d]; try (intros [= <-]; reflexivity).
  - intros [= <-]. simpl. now rewrite String.eqb_refl.
  - destruct (get "features" d) as [fs|] eqn:Hf.
    + destruct (py_in f fs) as [[|]|] eqn:Hin; simpl; try discriminate.
      * intros [= <-]. simpl. now rewrite Hf, Hin.
      * destruct (py_append fs (VStr f)) as [fs'|] eqn:Ha; simpl;
          [|discriminate].
        intros [= <-]. simpl. rewrite get_set_same.
        now rewrite (py_in_append _ _ _ Ha).
    + intros [= <-]. simpl. rewrite get_set_same.
      now rewrite py_in_single.
Qed.

(** The feature passes leave a fixed declaration fixed. *)
Lemma fix_reqwest_entry_inline (x x' : value) :
  fix_reqwest_entry x = Ok x' -> inline_fixed x = true -> inline_fixed x' = true.
Proof.
  unfold fix_reqwest_entry, inline_fixed.
  destruct x as [s| | | |d]; try (intros [= <-]; auto).
  destruct (get "features" d) as [fs|] eqn:Hf; [|intros [= <-]; auto].
  destruct (py_in "json" fs) as [[|]|]; simpl; try discriminate;
    [intros [= <-]; auto|].
  destruct (py_append fs (VStr "json")) as [fs'|]; simpl; [|discriminate].
  intros [= <-]. cbn. now rewrite workspace_true_set_features.
Qed.

Lemma fix_feature_entry_inline (dv f : string) (x x' : value) :
  fix_feature_entry dv f x = Ok x' ->
  inline_fixed x = true -> inline_fixed x' = true.
Proof.
  unfold fix_feature_entry, inline_fixed.
  destruct x as [s| | | |d]; try (intros [= <-]; auto).
  destruct (get "features" d) as [fs|] eqn:Hf.
  - destruct (py_in f fs) as [[|]|]; simpl; try discriminate;
      [intros [= <-]; auto|].
    destruct (py_append fs (VStr f)) as [fs'|]; simpl; [|discriminate].
    intros [= <-]. cbn. now rewrite workspace_true_set_features.
  - intros [= <-]. cbn. now rewrite workspace_true_set_features.
Qed.

End EntryFacts.

(* ================================================================== *)
(** ** The passes of the resolver on the document *)
(* ================================================================== *)

Module PassFacts.
Import Py Toml Props DictFacts EntryFacts.
Import Improved.

(** *** Passes over sections *)

Lemma section_pass_inv e G section data data' :
  section_pass e G section data = Ok data' ->
  match get section data with
  | None => data' = data
  | Some (VDict deps) =>
      exists deps', G deps = Ok deps' /\ data' = set section (VDict deps') data
  | Some _ => False
  end.
Proof.
  unfold section_pass.
  destruct (get section data) as [[| | | |deps]|]; try discriminate.
  - destruct (G deps) as [deps'|]; simpl; [|discriminate].
    intros [= <-]. eauto.
  - now intros [= <-].
Qed.

Lemma for_each_section_pass e G (secs : list string) :
  NoDup secs ->
  forall data data',
    for_each (section_pass e G) secs data = Ok data' ->
    rewritten secs G data data'.
Proof.
  induction 1 as [|a secs Hnotin Hnd IH]; intros data data' H; simpl in H.
  - injection H as <-. repeat split; auto. intros s [].
  - destruct (section_pass e G a data) as [d1|] eqn:H1; simpl in H;
      [|discriminate].
    destruct (IH _ _ H) as (Hk & Ho & Hs).
    apply section_pass_inv in H1.
    assert (Hk1 : keys d1 = keys data).
    { destruct (get a data) as [[| | | |deps]|] eqn:Ha; try contradiction.
      - destruct H1 as (deps' & _ & ->). apply keys_set_present.
        apply has_true; eauto.
      - now subst. }
    assert (Ho1 : forall k, k <> a -> get k d1 = get k data).
    { intros k Hne.
      destruct (get a data) as [[| | | |deps]|] eqn:Ha; try contradiction.
      - destruct H1 as (deps' & _ & ->). now apply get_set_other.
      - now subst. }
    split; [congruence|]. split.
    + intros k Hk'. rewrite Ho by (intros ?; apply Hk'; now right).
      apply Ho1. intros ->. apply Hk'. now left.
    + intros s [<-|Hin].
      * rewrite (Ho a Hnotin).
        destruct (get a data) as [[| | | |deps]|] eqn:Ha; try contradiction.
        -- destruct H1 as (deps' & HG & ->). exists deps'.
           split; [exact HG|apply get_set_same].
        -- subst. exact Ha.
      * specialize (Hs s Hin). rewrite Ho1 in Hs; [exact Hs|].
        intros ->. contradiction.
Qed.

(** A pass has nothing to do where [G] returns what it is given. *)
Lemma for_each_section_pass_fixed e G (secs : list string) (data : dict) :
  sections_sat secs (fun deps => G deps = Ok deps) data ->
  for_each (section_pass e G) secs data = Ok data.
Proof.
  induction secs as [|a secs IH]; intros H; simpl; [reflexivity|].
  assert (Ha : section_pass e G a data = Ok data).
  { unfold section_pass. specialize (H a (or_introl eq_refl)).
    destruct (get a data) as [[| | | |deps]|] eqn:E; try contradiction.
    - rewrite H. simpl. now rewrite set_get_id.
    - reflexivity. }
  rewrite Ha. simpl. apply IH. intros s Hs. apply H. now right.
Qed.

Lemma rewritten_establishes secs G (P : dict -> Prop) data data' :
  rewritten secs G data data' ->
  (forall deps deps', G deps = Ok deps' -> P deps') ->
  sections_sat secs P data'.
Proof.
  intros (_ & _ & Hs) HP s Hin. specialize (Hs s Hin).
  destruct (get s data) as [[| | | |deps]|]; try contradiction.
  - destruct Hs as (deps' & HG & ->). eauto.
  - now rewrite Hs.
Qed.

Lemma rewritten_preserves secs G secs1 (P : dict -> Prop) data data' :
  rewritten secs G data data' ->
  (forall deps deps', G deps = Ok deps' -> P deps -> P deps') ->
  sections_sat secs1 P data -> sections_sat secs1 P data'.
Proof.
  intros (_ & Ho & Hs) HP Hsat s Hin. specialize (Hsat s Hin).
  destruct (in_dec string_dec s secs) as [Hin'|Hout].
  - specialize (Hs s Hin').
    destruct (get s data) as [[| | | |deps]|]; try contradiction.
    + destruct Hs as (deps' & HG & ->). eauto.
    + now rewrite Hs.
  - now rewrite (Ho s Hout).
Qed.

Lemma rewritten_flat secs G data data' :
  rewritten secs G data data' -> flat data = true -> flat data' = true.
Proof. intros (Hk & _) H. unfold flat. now rewrite Hk. Qed.

(** The passes as section passes. *)
Lemma fix_inline_section_pass section data :
  fix_inline_section section data =
  section_pass AttributeError (map_res (entry_fn fix_inline_entry)) section data.
Proof. reflexivity. Qed.

Lemma fix_in_section_pass name fx section data :
  fix_in_section name fx section data =
  section_pass TypeError (on_name name fx) section data.
Proof.
  unfold fix_in_section, section_pass, on_name.
  destruct (get section data) as [[| | | |deps]|] eqn:E; try reflexivity.
  destruct (get name deps) as [x|]; [destruct (fx x); reflexivity|].
  simpl. now rewrite set_get_id.
Qed.

Lemma for_each_ext {A S} (f g : A -> S -> res S) (l : list A) (s : S) :
  (forall a s, f a s = g a s) -> for_each f l s = for_each g l s.
Proof.
  intros H. revert s. induction l as [|a l IH]; intros s; simpl; [reflexivity|].
  rewrite H. destruct (g a s); simpl; auto.
Qed.

Lemma sections_nodup : NoDup SECTIONS.
Proof.
  unfold SECTIONS. repeat constructor; simpl; intuition discriminate.
Qed.

Lemma two_sections_nodup : NoDup ["dependencies"; "dev-dependencies"].
Proof. repeat constructor; simpl; intuition discriminate. Qed.

Lemma fix_inline_tables_rewritten data data' :
  fix_inline_tables data = Ok data' ->
  rewritten SECTIONS (map_res (entry_fn fix_inline_entry)) data data'.
Proof.
  unfold fix_inline_tables. intros H.
  eapply for_each_section_pass; [apply sections_nodup|exact H].
Qed.

Lemma fix_reqwest_rewritten data data' :
  fix_reqwest data = Ok data' ->
  rewritten SECTIONS (on_name "reqwest" fix_reqwest_entry) data data'.
Proof.
  unfold fix_reqwest. intros H.
  rewrite (for_each_ext _ _ _ _ (fix_in_section_pass _ _)) in H.
  eapply for_each_section_pass; [apply sections_nodup|exact H].
Qed.

Lemma fix_chrono_rewritten data data' :
  fix_chrono data = Ok data' ->
  rewritten ["dependencies"; "dev-dependencies"]
            (on_name "chrono" (fix_feature_entry "0.4" "serde")) data data'.
Proof.
  unfold fix_chrono. intros H.
  rewrite (for_each_ext _ _ _ _ (fix_in_section_pass _ _)) in H.
  eapply for_each_section_pass; [apply two_sections_nodup|exact H].
Qed.

Lemma fix_nalgebra_rewritten data data' :
  fix_nalgebra data = Ok data' ->
  rewritten ["dependencies"; "dev-dependencies"]
            (on_name "nalgebra" (fix_feature_entry "0.32" "serde-serialize"))
            data data'.
Proof.
  unfold fix_nalgebra. intros H.
  rewrite (for_each_ext _ _ _ _ (fix_in_section_pass _ _)) in H.
  eapply for_each_section_pass; [apply two_sections_nodup|exact H].
Qed.

(** *** What the passes do to the tables *)


Lemma inline_establishes deps deps' :
  map_res (entry_fn fix_inline_entry) deps = Ok deps' -> all_inline_fixed deps'.
Proof.
  intros H n v' Hin.
  destruct (map_res_in _ _ _ H n v' Hin) as (v & _ & Hv).
  eapply fix_inline_entry_fixed; eauto.
Qed.

Lemma inline_fixed_point deps :
  all_inline_fixed deps -> map_res (entry_fn fix_inline_entry) deps = Ok deps.
Proof.
  intros H. apply map_res_fixed. intros k v Hin.
  apply inline_fixed_id. eapply H; eauto.
Qed.

Lemma on_name_inv name fx deps deps' :
  on_name name fx deps = Ok deps' ->
  match get name deps with
  | None => deps' = deps
  | Some x => exists x', fx x = Ok x' /\ deps' = set name x' deps
  end.
Proof.
  unfold on_name. destruct (get name deps) as [x|]; [|now intros [= <-]].
  destruct (fx x) as [x'|]; simpl; [|discriminate].
  intros [= <-]. eauto.
Qed.

Lemma on_name_establishes name fx deps deps' :
  (forall x x', fx x = Ok x' -> fx x' = Ok x') ->
  on_name name fx deps = Ok deps' -> name_fixed name fx deps'.
Proof.
  intros Hidem H. apply on_name_inv in H. intros y Hy.
  destruct (get name deps) as [x|] eqn:E.
  - destruct H as (x' & Hx & ->). rewrite get_set_same in Hy.
    injection Hy as <-. eauto.
  - subst. congruence.
Qed.

Lemma on_name_fixed_point name fx deps :
  name_fixed name fx deps -> on_name name fx deps = Ok deps.
Proof.
  intros H. unfold on_name. destruct (get name deps) as [x|] eqn:E;
    [|reflexivity].
  rewrite (H x E). simpl. now rewrite set_get_id.
Qed.

Lemma on_name_preserves_inline name fx deps deps' :
  (forall x x', fx x = Ok x' -> inline_fixed x = true -> inline_fixed x' = true) ->
  on_name name fx deps = Ok deps' ->
  all_inline_fixed deps -> all_inline_fixed deps'.
Proof.
  intros Hfix H Hall. apply on_name_inv in H.
  destruct (get name deps) as [x|] eqn:E; [|now subst].
  destruct H as (x' & Hx & ->). intros n v Hin.
  apply in_set in Hin. destruct Hin as [[= -> ->]|Hin]; [|eauto].
  eapply Hfix; eauto. eapply Hall. eapply get_in; eauto.
Qed.

Lemma on_name_preserves_other name fx name' fx' deps deps' :
  name' <> name ->
  on_name name fx deps = Ok deps' ->
  name_fixed name' fx' deps -> name_fixed name' fx' deps'.
Proof.
  intros Hne H Hfixed. apply on_name_inv in H.
  destruct (get name deps) as [x|] eqn:E; [|now subst].
  destruct H as (x' & Hx & ->). intros y Hy.
  rewrite get_set_other in Hy by exact Hne. eauto.
Qed.

End PassFacts.

(* ================================================================== *)
(** ** The whole resolver *)
(* ================================================================== *)

Module ResolveFacts.
Import Py Toml Props StringFacts DictFacts EntryFacts PassFacts.
Import Improved.

(** *** The dotted keys *)

Lemma dotted_split (key : string) :
  dotted key = true ->
  exists section dep,
    split_once "."%char key = Some (section, dep) /\
    (section = "dependencies" \/ section = "dev-dependencies").
Proof.
  unfold dotted, startswith. intros H. apply orb_true_iff in H.
  destruct H as [H|H]; apply prefix_inv in H; destruct H as [r ->].
  - exists "dependencies", r. split; [reflexivity|now left].
  - exists "dev-dependencies", r. split; [reflexivity|now right].
Qed.

Lemma section_not_dotted (section : string) :
  section = "dependencies" \/ section = "dev-dependencies" ->
  dotted section = false.
Proof. intros [->| ->]; reflexivity. Qed.

Lemma fix_table_key_plain key data :
  dotted key = false -> fix_table_key key data = Ok data.
Proof.
  unfold fix_table_key, dotted. intros ->. reflexivity.
Qed.

(** What one iteration on a dotted key does to the top level. *)
Lemma fix_table_key_dotted key data data' :
  dotted key = true ->
  fix_table_key key data = Ok data' ->
  exists section dep data1 v deps,
    (section = "dependencies" \/ section = "dev-dependencies") /\
    data1 = (if has section data then data else set section (VDict []) data) /\
    get section (remove key data1) = Some (VDict deps) /\
    data' = set section (VDict (set dep v deps)) (remove key data1).
Proof.
  intros Hd. unfold fix_table_key. fold (dotted key). rewrite Hd.
  destruct (dotted_split key Hd) as (section & dep & -> & Hsec).
  set (data1 := if has section data then data else set section (VDict []) data).
  destruct (get key data1) as [v0|]; [|discriminate].
  destruct (get section (remove key data1)) as [[| | | |deps]|] eqn:E;
    try discriminate.
  intros [= <-]. exists section, dep, data1. eexists. exists deps.
  repeat split; auto.
Qed.

Lemma fix_table_key_keys key data data' k :
  dotted key = true ->
  fix_table_key key data = Ok data' ->
  In k (keys data') -> dotted k = true ->
  In k (keys data) /\ k <> key.
Proof.
  intros Hd H Hin Hk.
  destruct (fix_table_key_dotted _ _ _ Hd H)
    as (section & dep & data1 & v & deps & Hsec & Hd1 & Hget & ->).
  rewrite keys_set_present in Hin by (apply has_true; eauto).
  apply in_keys_remove in Hin. destruct Hin as [Hne Hin]. split; [|exact Hne].
  subst data1. destruct (has section data); [exact Hin|].
  apply in_keys_set in Hin. destruct Hin as [->|Hin]; [|exact Hin].
  rewrite (section_not_dotted _ Hsec) in Hk. discriminate.
Qed.

Lemma fix_table_key_get key data data' k :
  fix_table_key key data = Ok data' ->
  dotted k = false -> k <> "dependencies" -> k <> "dev-dependencies" ->
  get k data' = get k data.
Proof.
  intros H Hk Hk1 Hk2. destruct (dotted key) eqn:Hd.
  - destruct (fix_table_key_dotted _ _ _ Hd H)
      as (section & dep & data1 & v & deps & Hsec & Hd1 & Hget & ->).
    assert (Hks : k <> section) by (destruct Hsec; congruence).
    assert (Hkk : k <> key) by congruence.
    rewrite get_set_other, get_remove_other by assumption.
    subst data1. destruct (has section data); [reflexivity|].
    now apply get_set_other.
  - rewrite fix_table_key_plain in H by exact Hd. now injection H as <-.
Qed.

Lemma tables_flat_from (l : list string) :
  forall data data',
    for_each fix_table_key l data = Ok data' ->
    (forall k, In k (keys data) -> dotted k = true -> In k l) ->
    flat data' = true.
Proof.
  induction l as [|a l IH]; intros data data' H Hcov; simpl in H.
  - injection H as <-. unfold flat. apply forallb_forall. intros k Hin.
    destruct (dotted k) eqn:E; [|reflexivity].
    destruct (Hcov k Hin E).
  - destruct (fix_table_key a data) as [d1|] eqn:H1; simpl in H; [|discriminate].
    apply (IH d1 data' H). intros k Hin Hk.
    destruct (dotted a) eqn:Ha.
    + destruct (fix_table_key_keys _ _ _ k Ha H1 Hin Hk) as [Hin0 Hne].
      destruct (Hcov k Hin0 Hk) as [->|]; [congruence|assumption].
    + rewrite fix_table_key_plain in H1 by exact Ha. injection H1 as <-.
      destruct (Hcov k Hin Hk) as [->|]; [congruence|assumption].
Qed.

(** After the pass no dotted key is left. *)
Lemma tables_flat data data' :
  fix_dependencies_table_syntax data = Ok data' -> flat data' = true.
Proof.
  intros H. apply (tables_flat_from _ _ _ H). auto.
Qed.

Lemma tables_get data data' k :
  fix_dependencies_table_syntax data = Ok data' ->
  dotted k = false -> k <> "dependencies" -> k <> "dev-dependencies" ->
  get k data' = get k data.
Proof.
  unfold fix_dependencies_table_syntax. generalize (keys data) as l.
  intros l. revert data. induction l as [|a l IH]; intros data H Hk H1 H2;
    simpl in H.
  - now injection H as <-.
  - destruct (fix_table_key a data) as [d1|] eqn:Ha; simpl in H; [|discriminate].
    rewrite (IH d1 H Hk H1 H2). eapply fix_table_key_get; eauto.
Qed.

(** On a flat document the pass does nothing. *)
Lemma tables_flat_id data :
  flat data = true -> fix_dependencies_table_syntax data = Ok data.
Proof.
  unfold flat, fix_dependencies_table_syntax. generalize (keys data) as l.
  intros l. induction l as [|a l IH]; intros H; simpl in *; [reflexivity|].
  apply andb_true_iff in H. destruct H as [Ha Hl].
  rewrite fix_table_key_plain by (now destruct (dotted a)).
  simpl. auto.
Qed.

(** *** The package metadata *)


Lemma workspace_default_plain (f : string) :
  match workspace_default f with VDict _ => False | _ => True end.
Proof.
  unfold workspace_default, WORKSPACE_DEFAULTS. simpl.
  repeat (destruct (String.eqb f _); [exact I|]). exact I.
Qed.

Lemma field_ok_id f p : field_ok f p -> fix_metadata_field f p = p.
Proof.
  unfold field_ok, fix_metadata_field.
  destruct (get f p) as [[| | | |d]|]; auto. now intros ->.
Qed.

Lemma fix_metadata_field_ok g f p :
  f = g \/ field_ok f p -> field_ok f (fix_metadata_field g p).
Proof.
  intros H. unfold fix_metadata_field.
  destruct (get g p) as [[| | | |d]|] eqn:E;
    try (destruct H as [->|H]; [unfold field_ok; now rewrite E|exact H]).
  destruct (workspace_true d) eqn:W.
  - unfold field_ok. destruct (string_dec f g) as [->|Hne].
    + rewrite get_set_same. pose proof (workspace_default_plain g).
      destruct (workspace_default g); auto. contradiction.
    + rewrite get_set_other by exact Hne. destruct H; [contradiction|exact H].
  - destruct H as [->|H]; [unfold field_ok; now rewrite E|exact H].
Qed.

Lemma fold_fields_ok (l : list string) :
  forall p f, In f l \/ field_ok f p ->
    field_ok f (fold_left (fun p f => fix_metadata_field f p) l p).
Proof.
  induction l as [|g l IH]; intros p f H; simpl.
  - destruct H as [[]|H]; exact H.
  - apply IH. destruct H as [[->|H]|H]; auto;
      right; apply fix_metadata_field_ok; auto.
Qed.

Lemma fold_fields_id (l : list string) (p : dict) :
  (forall f, In f l -> field_ok f p) ->
  fold_left (fun p f => fix_metadata_field f p) l p = p.
Proof.
  induction l as [|g l IH]; intros H; simpl; [reflexivity|].
  rewrite field_ok_id by (apply H; now left).
  apply IH. intros f Hf. apply H. now right.
Qed.

Lemma fix_description_ok f p : field_ok f p -> field_ok f (fix_description p).
Proof.
  intros H. unfold fix_description.
  assert (Hset : field_ok f (set "description" (workspace_default "description") p)).
  { unfold field_ok. destruct (string_dec f "description") as [->|Hne].
    - now rewrite get_set_same.
    - now rewrite get_set_other. }
  destruct (get "description" p) as [v|]; [|exact Hset].
  destruct (truthy v); [exact H|exact Hset].
Qed.

Lemma fix_description_idem p : fix_description (fix_description p) = fix_description p.
Proof.
  unfold fix_description.
  destruct (get "description" p) as [v|] eqn:E.
  - destruct (truthy v) eqn:T.
    + now rewrite E, T.
    + rewrite get_set_same. reflexivity.
  - rewrite get_set_same. reflexivity.
Qed.

Lemma metadata_idem p : metadata (metadata p) = metadata p.
Proof.
  unfold metadata at 1.
  rewrite fold_fields_id.
  - apply fix_description_idem.
  - intros f Hf. unfold metadata. apply fix_description_ok.
    apply fold_fields_ok. now left.
Qed.

Lemma fix_package_inv data data' :
  fix_package data = Ok data' ->
  match get "package" data with
  | None => data' = data
  | Some (VDict p) => data' = set "package" (VDict (metadata p)) data
  | Some _ => False
  end.
Proof.
  unfold fix_package.
  destruct (get "package" data) as [[| | | |p]|]; try discriminate;
    now intros [= <-].
Qed.

Lemma fix_package_fixed data data' :
  fix_package data = Ok data' -> package_fixed data'.
Proof.
  intros H. apply fix_package_inv in H. unfold package_fixed.
  destruct (get "package" data) as [[| | | |p]|] eqn:E; try contradiction.
  - subst. rewrite get_set_same. apply metadata_idem.
  - subst. now rewrite E.
Qed.

Lemma package_fixed_id data : package_fixed data -> fix_package data = Ok data.
Proof.
  unfold package_fixed, fix_package.
  destruct (get "package" data) as [[| | | |p]|] eqn:E; try contradiction; auto.
  intros H. fold (metadata p). rewrite H. now rewrite set_get_id.
Qed.

Lemma fix_package_keys data data' :
  fix_package data = Ok data' -> keys data' = keys data.
Proof.
  intros H. apply fix_package_inv in H.
  destruct (get "package" data) as [[| | | |p]|] eqn:E; try contradiction;
    subst; [|reflexivity].
  apply keys_set_present. apply has_true; eauto.
Qed.

Lemma fix_package_get data data' k :
  fix_package data = Ok data' -> k <> "package" -> get k data' = get k data.
Proof.
  intros H Hk. apply fix_package_inv in H.
  destruct (get "package" data) as [[| | | |p]|] eqn:E; try contradiction;
    subst; [|reflexivity].
  now apply get_set_other.
Qed.

(** *** The workspace table *)

Lemma add_workspace_table_has data : has "workspace" (add_workspace_table data) = true.
Proof.
  unfold add_workspace_table. destruct (has "workspace" data) eqn:E; [exact E|].
  apply has_set_same.
Qed.

Lemma add_workspace_table_id data :
  has "workspace" data = true -> add_workspace_table data = data.
Proof. unfold add_workspace_table. now intros ->. Qed.

Lemma add_workspace_table_get data k :
  k <> "workspace" -> get k (add_workspace_table data) = get k data.
Proof.
  intros Hk. unfold add_workspace_table.
  destruct (has "workspace" data); [reflexivity|]. now apply get_set_other.
Qed.

Lemma add_workspace_table_flat data :
  flat data = true -> flat (add_workspace_table data) = true.
Proof.
  unfold add_workspace_table. destruct (has "workspace" data) eqn:E; [auto|].
  unfold flat. rewrite keys_set_absent by exact E.
  rewrite forallb_app. intros ->. reflexivity.
Qed.

End ResolveFacts.

Module ComposeFacts.
Import Py Toml Props StringFacts DictFacts EntryFacts PassFacts ResolveFacts.
Import Improved.

Lemma resolve_inv data data' :
  resolve data = Ok data' ->
  exists d1 d3 d4 d5 d6,
    fix_package data = Ok d1 /\
    fix_dependencies_table_syntax (add_workspace_table d1) = Ok d3 /\
    fix_inline_tables d3 = Ok d4 /\
    fix_reqwest d4 = Ok d5 /\
    fix_chrono d5 = Ok d6 /\
    fix_nalgebra d6 = Ok data'.
Proof.
  unfold resolve. intros H.
  destruct (fix_package data) as [d1|]; simpl in H; [|discriminate].
  destruct (fix_dependencies_table_syntax _) as [d3|] eqn:H3; simpl in H;
    [|discriminate].
  destruct (fix_inline_tables d3) as [d4|] eqn:H4; simpl in H; [|discriminate].
  destruct (fix_reqwest d4) as [d5|] eqn:H5; simpl in H; [|discriminate].
  destruct (fix_chrono d5) as [d6|] eqn:H6; simpl in H; [|discriminate].
  exists d1, d3, d4, d5, d6. repeat split; auto.
Qed.

Lemma sections_sat_impl secs (P Q : dict -> Prop) data :
  (forall deps, P deps -> Q deps) ->
  sections_sat secs P data -> sections_sat secs Q data.
Proof.
  intros HPQ H s Hin. specialize (H s Hin).
  destruct (get s data) as [[| | | |deps]|]; auto.
Qed.

Lemma rewritten_get secs G data data' k :
  rewritten secs G data data' -> ~ In k secs -> get k data' = get k data.
Proof. intros (_ & Ho & _). apply Ho. Qed.

Ltac not_a_section := simpl; intuition discriminate.


Lemma resolve_resolved data data' : resolve data = Ok data' -> resolved data'.
Proof.
  intros H. destruct (resolve_inv _ _ H)
    as (d1 & d3 & d4 & d5 & d6 & H1 & H3 & H4 & H5 & H6 & H7).
  pose proof (fix_inline_tables_rewritten _ _ H4) as R4.
  pose proof (fix_reqwest_rewritten _ _ H5) as R5.
  pose proof (fix_chrono_rewritten _ _ H6) as R6.
  pose proof (fix_nalgebra_rewritten _ _ H7) as R7.
  assert (Hget : forall k, dotted k = false ->
            ~ In k SECTIONS -> get k data' = get k (add_workspace_table d1)).
  { intros k Hk Hs.
    rewrite (rewritten_get _ _ _ _ k R7) by (intros Hin; apply Hs; simpl in *; tauto).
    rewrite (rewritten_get _ _ _ _ k R6) by (intros Hin; apply Hs; simpl in *; tauto).
    rewrite (rewritten_get _ _ _ _ k R5 Hs), (rewritten_get _ _ _ _ k R4 Hs).
    apply (tables_get _ _ k H3 Hk); intros ->; apply Hs; simpl; tauto. }
  split.
  - pose proof (fix_package_fixed _ _ H1) as P. unfold package_fixed in *.
    rewrite Hget by (reflexivity || not_a_section).
    now rewrite add_workspace_table_get by discriminate.
  - unfold has. rewrite Hget by (reflexivity || not_a_section).
    apply add_workspace_table_has.
  - eapply rewritten_flat; [exact R7|]. eapply rewritten_flat; [exact R6|].
    eapply rewritten_flat; [exact R5|]. eapply rewritten_flat; [exact R4|].
    eapply tables_flat; eauto.
  - eapply rewritten_preserves; [exact R7| |].
    { intros; eapply on_name_preserves_inline; eauto.
      apply fix_feature_entry_inline. }
    eapply rewritten_preserves; [exact R6| |].
    { intros; eapply on_name_preserves_inline; eauto.
      apply fix_feature_entry_inline. }
    eapply rewritten_preserves; [exact R5| |].
    { intros; eapply on_name_preserves_inline; eauto.
      apply fix_reqwest_entry_inline. }
    eapply rewritten_establishes; [exact R4|]. apply inline_establishes.
  - eapply rewritten_preserves; [exact R7| |].
    { intros; eapply on_name_preserves_other; eauto. discriminate. }
    eapply rewritten_preserves; [exact R6| |].
    { intros; eapply on_name_preserves_other; eauto. discriminate. }
    eapply rewritten_establishes; [exact R5|].
    intros; eapply on_name_establishes; eauto. apply fix_reqwest_entry_idem.
  - eapply rewritten_preserves; [exact R7| |].
    { intros; eapply on_name_preserves_other; eauto. discriminate. }
    eapply rewritten_establishes; [exact R6|].
    intros; eapply on_name_establishes; eauto. apply fix_feature_entry_idem.
  - eapply rewritten_establishes; [exact R7|].
    intros; eapply on_name_establishes; eauto. apply fix_feature_entry_idem.
Qed.

Lemma resolved_fixed_point data : resolved data -> resolve data = Ok data.
Proof.
  intros [Hp Hw Hf Hi Hr Hc Hn]. unfold resolve.
  rewrite (package_fixed_id _ Hp). simpl.
  rewrite (add_workspace_table_id _ Hw).
  rewrite (tables_flat_id _ Hf). simpl.
  assert (E4 : fix_inline_tables data = Ok data).
  { unfold fix_inline_tables. apply for_each_section_pass_fixed.
    eapply sections_sat_impl; [|exact Hi]. apply inline_fixed_point. }
  rewrite E4. simpl.
  assert (E5 : fix_reqwest data = Ok data).
  { unfold fix_reqwest.
    rewrite (for_each_ext _ _ _ _ (fix_in_section_pass _ _)).
    apply for_each_section_pass_fixed.
    eapply sections_sat_impl; [|exact Hr]. apply on_name_fixed_point. }
  rewrite E5. simpl.
  assert (E6 : fix_chrono data = Ok data).
  { unfold fix_chrono.
    rewrite (for_each_ext _ _ _ _ (fix_in_section_pass _ _)).
    apply for_each_section_pass_fixed.
    eapply sections_sat_impl; [|exact Hc]. apply on_name_fixed_point. }
  rewrite E6. simpl.
  unfold fix_nalgebra.
  rewrite (for_each_ext _ _ _ _ (fix_in_section_pass _ _)).
  apply for_each_section_pass_fixed.
  eapply sections_sat_impl; [|exact Hn]. apply on_name_fixed_point.
Qed.

End ComposeFacts.

(* ================================================================== *)
(** ** The resolver followed on one declaration *)
(* ================================================================== *)

Module TrackFacts.
Import Py Toml Props StringFacts DictFacts EntryFacts PassFacts ResolveFacts
       ComposeFacts.
Import Improved.

Lemma on_name_some name fx deps deps' n v :
  on_name name fx deps = Ok deps' -> get n deps = Some v ->
  exists v', (if String.eqb n name then fx v else Ok v) = Ok v' /\
             get n deps' = Some v'.
Proof.
  intros H Hn. apply on_name_inv in H.
  destruct (String.eqb n name) eqn:E.
  - apply String.eqb_eq in E; subst n. rewrite Hn in H.
    destruct H as (x' & Hx & ->). exists x'. now rewrite get_set_same.
  - apply String.eqb_neq in E. exists v. split; [reflexivity|].
    destruct (get name deps); [|now subst].
    destruct H as (x' & _ & ->). now rewrite get_set_other.
Qed.

Lemma on_name_none name fx deps deps' n :
  on_name name fx deps = Ok deps' -> get n deps = None -> get n deps' = None.
Proof.
  intros H Hn. apply on_name_inv in H.
  destruct (get name deps) as [x|] eqn:E; [|now subst].
  destruct H as (x' & _ & ->).
  destruct (string_dec n name) as [->|Hne]; [congruence|].
  now rewrite get_set_other.
Qed.

Lemma in_sections s :
  In s SECTIONS ->
  s = "build-dependencies" \/ In s ["dependencies"; "dev-dependencies"].
Proof. simpl. intuition. Qed.

(** On a flat document the resolver acts on each declaration of a
    dependency section as [resolve_entry] does. *)
Lemma resolve_dep_of data data' :
  flat data = true -> resolve data = Ok data' ->
  forall s n, In s SECTIONS ->
    dep_res (resolve_entry s n) (dep_of s n data) (dep_of s n data').
Proof.
  intros Hflat H s n Hs.
  destruct (resolve_inv _ _ H)
    as (d1 & d3 & d4 & d5 & d6 & H1 & H3 & H4 & H5 & H6 & H7).
  assert (Hflat1 : flat (add_workspace_table d1) = true).
  { apply add_workspace_table_flat. unfold flat.
    now rewrite (fix_package_keys _ _ H1). }
  rewrite (tables_flat_id _ Hflat1) in H3. injection H3 as <-.
  assert (G0 : get s (add_workspace_table d1) = get s data).
  { rewrite add_workspace_table_get, (fix_package_get _ _ s H1);
      [reflexivity| |]; intros ->; revert Hs; not_a_section. }
  destruct (fix_inline_tables_rewritten _ _ H4) as (_ & _ & S4).
  destruct (fix_reqwest_rewritten _ _ H5) as (_ & _ & S5).
  destruct (fix_chrono_rewritten _ _ H6) as (_ & O6 & S6).
  destruct (fix_nalgebra_rewritten _ _ H7) as (_ & O7 & S7).
  specialize (S4 s Hs). specialize (S5 s Hs). rewrite G0 in S4.
  unfold dep_of, dep_res.
  destruct (get s data) as [[| | | |deps]|] eqn:E; try contradiction.
  2:{ rewrite S4 in S5.
      destruct (in_sections s Hs) as [->|Hin].
      - rewrite O7, O6, S5 by not_a_section. reflexivity.
      - specialize (S6 s Hin). rewrite S5 in S6.
        specialize (S7 s Hin). rewrite S6 in S7. now rewrite S7. }
  destruct S4 as (deps4 & M4 & G4). rewrite G4 in S5.
  destruct S5 as (deps5 & M5 & G5).
  pose proof (map_res_get _ _ _ M4 n) as T4.
  unfold resolve_entry.
  destruct (in_sections s Hs) as [->|Hin].
  - rewrite O7, O6, G5 by not_a_section.
    change (String.eqb "build-dependencies" "build-dependencies") with true.
    rewrite !andb_false_r.
    destruct (get n deps) as [v|].
    + destruct T4 as (v4 & F4 & N4).
      destruct (on_name_some _ _ _ _ n v4 M5 N4) as (v5 & F5 & N5).
      exists v5. rewrite F4. simpl. rewrite F5. simpl. auto.
    + now apply (on_name_none _ _ _ _ n M5).
  - specialize (S6 s Hin). rewrite G5 in S6.
    destruct S6 as (deps6 & M6 & G6).
    specialize (S7 s Hin). rewrite G6 in S7.
    destruct S7 as (deps7 & M7 & G7). rewrite G7.
    assert (Hnb : String.eqb s "build-dependencies" = false).
    { apply String.eqb_neq. intros ->. revert Hin. not_a_section. }
    rewrite Hnb. cbn [negb]. rewrite !andb_true_r.
    destruct (get n deps) as [v|].
    + destruct T4 as (v4 & F4 & N4).
      destruct (on_name_some _ _ _ _ n v4 M5 N4) as (v5 & F5 & N5).
      destruct (on_name_some _ _ _ _ n v5 M6 N5) as (v6 & F6 & N6).
      destruct (on_name_some _ _ _ _ n v6 M7 N6) as (v7 & F7 & N7).
      exists v7. rewrite F4. simpl. rewrite F5. simpl. rewrite F6. simpl.
      auto.
    + apply (on_name_none _ _ _ _ n M7), (on_name_none _ _ _ _ n M6),
        (on_name_none _ _ _ _ n M5), T4.
Qed.

End TrackFacts.

(* ================================================================== *)
(** ** Features and sub-fields of one declaration *)
(* ================================================================== *)

Module FeatureFacts.
Import Py Toml Props StringFacts DictFacts EntryFacts.
Import Improved.










(** *** Declared features and sub-fields are kept *)

Lemma append_lists f fs x fs' :
  py_append (VList fs) x = Ok fs' -> In f fs ->
  exists l, fs' = VList l /\ In f l.
Proof.
  simpl. intros [= <-] Hin. eexists. split; [reflexivity|].
  apply in_or_app. now left.
Qed.

Lemma fix_reqwest_entry_lists f x x' :
  fix_reqwest_entry x = Ok x' -> lists_feature f x -> lists_feature f x'.
Proof.
  intros H (d & fs & -> & Hf & Hin). unfold fix_reqwest_entry in H.
  rewrite Hf in H.
  destruct (py_in "json" (VList fs)) as [[|]|]; simpl in H; try discriminate.
  - injection H as <-. exists d, fs. auto.
  - injection H as <-. eexists. eexists. split; [reflexivity|].
    rewrite get_set_same. split; [reflexivity|]. apply in_or_app. now left.
Qed.

Lemma fix_feature_entry_lists dv g f x x' :
  fix_feature_entry dv g x = Ok x' -> lists_feature f x -> lists_feature f x'.
Proof.
  intros H (d & fs & -> & Hf & Hin). unfold fix_feature_entry in H.
  rewrite Hf in H.
  destruct (py_in g (VList fs)) as [[|]|]; simpl in H; try discriminate.
  - injection H as <-. exists d, fs. auto.
  - injection H as <-. eexists. eexists. split; [reflexivity|].
    rewrite get_set_same. split; [reflexivity|]. apply in_or_app. now left.
Qed.

Lemma fix_inline_entry_lists name f v v' :
  fix_inline_entry name v = Ok v' -> lists_feature f v -> lists_feature f v'.
Proof.
  intros H (d & fs & -> & Hf & Hin). unfold fix_inline_entry in H.
  destruct (workspace_true d); [|injection H as <-; exists d, fs; auto].
  rewrite Hf in H.
  destruct (add_required_feature name (VList fs)) as [fs1|] eqn:Ha;
    simpl in H; [|discriminate].
  assert (Hl : exists l, fs1 = VList l /\ In f l).
  { apply add_required_feature_ok in Ha.
    destruct Ha as [->|(g & _ & _ & Happ)]; [eauto|].
    eapply append_lists; eauto. }
  destruct Hl as (l & -> & Hl).
  assert (Ht : truthy (VList l) = true) by (destruct l; [destruct Hl|reflexivity]).
  rewrite Ht in H. injection H as <-.
  eexists. exists l. split; [reflexivity|]. split; [reflexivity|exact Hl].
Qed.

Lemma cond_lists (b : bool) (fx : value -> res value) (v v' : value) f :
  (forall x x', fx x = Ok x' -> lists_feature f x -> lists_feature f x') ->
  (if b then fx v else Ok v) = Ok v' ->
  lists_feature f v -> lists_feature f v'.
Proof. destruct b; [eauto|]. intros _ [= <-]. auto. Qed.

(** Every item of the feature list of a declaration is in the feature
    list of the resolved declaration. *)
Lemma resolve_entry_lists s name f v v' :
  resolve_entry s name v = Ok v' -> lists_feature f v -> lists_feature f v'.
Proof.
  intros H D. unfold resolve_entry in H.
  destruct (fix_inline_entry name v) as [v1|] eqn:H1; simpl in H; [|discriminate].
  apply (fix_inline_entry_lists _ f _ _ H1) in D.
  destruct (if String.eqb name "reqwest" then _ else _) as [v2|] eqn:H2;
    simpl in H; [|discriminate].
  apply (cond_lists _ _ _ _ f (fix_reqwest_entry_lists f) H2) in D.
  destruct (if String.eqb name "chrono" && _ then _ else _) as [v3|] eqn:H3;
    simpl in H; [|discriminate].
  apply (cond_lists _ _ _ _ f (fix_feature_entry_lists _ _ f) H3) in D.
  apply (cond_lists _ _ _ _ f (fix_feature_entry_lists _ _ f) H) in D.
  exact D.
Qed.

Lemma keeps_fields_refl d : keeps_fields d (VDict d).
Proof. exists d. auto. Qed.

Lemma keeps_fields_set d d1 fs :
  keeps_fields d (VDict d1) -> keeps_fields d (VDict (set "features" fs d1)).
Proof.
  intros (d' & [= <-] & H). eexists. split; [reflexivity|].
  intros k Hk. rewrite get_set_other by exact Hk. auto.
Qed.

Lemma fix_reqwest_entry_fields d x x' :
  fix_reqwest_entry x = Ok x' -> keeps_fields d x -> keeps_fields d x'.
Proof.
  intros H (d1 & -> & Hk). unfold fix_reqwest_entry in H.
  destruct (get "features" d1) as [fs|];
    [|injection H as <-; exists d1; auto].
  destruct (py_in "json" fs) as [[|]|]; simpl in H; try discriminate;
    [injection H as <-; exists d1; auto|].
  destruct (py_append fs (VStr "json")) as [fs'|]; simpl in H; [|discriminate].
  injection H as <-. apply keeps_fields_set. exists d1. auto.
Qed.

Lemma fix_feature_entry_fields dv g d x x' :
  fix_feature_entry dv g x = Ok x' -> keeps_fields d x -> keeps_fields d x'.
Proof.
  intros H (d1 & -> & Hk). unfold fix_feature_entry in H.
  destruct (get "features" d1) as [fs|].
  - destruct (py_in g fs) as [[|]|]; simpl in H; try discriminate;
      [injection H as <-; exists d1; auto|].
    destruct (py_append fs (VStr g)) as [fs'|]; simpl in H; [|discriminate].
    injection H as <-. apply keeps_fields_set. exists d1. auto.
  - injection H as <-. apply keeps_fields_set. exists d1. auto.
Qed.

Lemma cond_fields (b : bool) (fx : value -> res value) (v v' : value) d :
  (forall x x', fx x = Ok x' -> keeps_fields d x -> keeps_fields d x') ->
  (if b then fx v else Ok v) = Ok v' ->
  keeps_fields d v -> keeps_fields d v'.
Proof. destruct b; [eauto|]. intros _ [= <-]. auto. Qed.

(** An explicit table keeps every sub-field but its features. *)
Lemma resolve_entry_fields s name d v' :
  workspace_true d = false ->
  resolve_entry s name (VDict d) = Ok v' -> keeps_fields d v'.
Proof.
  intros W H. unfold resolve_entry in H.
  unfold fix_inline_entry in H. rewrite W in H. simpl in H.
  pose proof (keeps_fields_refl d) as D.
  destruct (if String.eqb name "reqwest" then _ else _) as [v2|] eqn:H2;
    simpl in H; [|discriminate].
  apply (cond_fields _ _ _ _ d (fix_reqwest_entry_fields d) H2) in D.
  destruct (if String.eqb name "chrono" && _ then _ else _) as [v3|] eqn:H3;
    simpl in H; [|discriminate].
  apply (cond_fields _ _ _ _ d (fix_feature_entry_fields _ _ d) H3) in D.
  apply (cond_fields _ _ _ _ d (fix_feature_entry_fields _ _ d) H) in D.
  exact D.
Qed.

(** An inherited declaration of a crate that is in no table is given the
    version 1.0, and nothing in the passes raises on it. *)
Lemma resolve_entry_unknown s name d :
  workspace_true d = true ->
  lookup name DEPENDENCY_VERSIONS = None ->
  startswith name "hanzo_" = false ->
  exists d', resolve_entry s name (VDict d) = Ok (VDict d') /\
             get "version" d' = Some (VStr "1.0") /\
             workspace_true d' = false.
Proof.
  intros W Hl Hh.
  assert (Hr : String.eqb name "reqwest" = false).
  { apply String.eqb_neq. intros ->. discriminate. }
  assert (Hc : String.eqb name "chrono" = false).
  { apply String.eqb_neq. intros ->. discriminate. }
  assert (Hn : String.eqb name "nalgebra" = false).
  { apply String.eqb_neq. intros ->. discriminate. }
  unfold resolve_entry, fix_inline_entry, inline_version, add_required_feature.
  rewrite W, Hl, Hh, Hr, Hc, Hn. simpl.
  destruct (truthy _); simpl; eexists; repeat split; reflexivity.
Qed.

End FeatureFacts.

(* ================================================================== *)
(** ** Facts about [re.sub] *)
(* ================================================================== *)

Module ReFacts.
Import Py Re StringFacts.

(** Passing over [k] characters is dropping them. *)
Lemma sub_from_skip r repl (t : string) :
  forall k, sub_from r repl t k = sub_from r repl (drop k t) 0.
Proof.
  induction t as [|c t IH]; intros k.
  - destruct k; reflexivity.
  - destruct k as [|k]; [reflexivity|]. simpl. apply IH.
Qed.

(** Whatever the matcher returns was returned by its continuation. *)
Lemma exec_result {X} (P : X -> Prop) (r : regex) :
  forall (s : string) (g : option string)
         (k : string -> option string -> option X) (x : X),
    (forall s' g' y, k s' g' = Some y -> P y) ->
    exec r s g k = Some x -> P x.
Proof.
  induction r as [l|p|a IHa b IHb|a IHa|a IHa|a IHa]; intros s g k x Hk Hx;
    cbn [exec] in Hx.
  - destruct (prefix l s); [eauto|discriminate].
  - destruct s as [|c t]; [discriminate|]. destruct (p c); [eauto|discriminate].
  - eapply IHa; [|exact Hx]. intros s' g' y Hy.
    eapply IHb; [|exact Hy]. exact Hk.
  - revert x Hx. generalize (String.length s) as n. intros n. revert s g.
    induction n as [|n IHn]; intros s g x Hx; [eauto|].
    destruct (exec a s g _) as [y|] eqn:E.
    + injection Hx as <-. eapply IHa; [|exact E].
      intros s' g' y' Hy'. cbn beta in Hy'.
      destruct (String.length s' <? String.length s)%nat; [eauto|discriminate].
    + eauto.
  - revert x Hx. generalize (String.length s) as n. intros n. revert s g.
    induction n as [|n IHn]; intros s g x Hx; [eauto|].
    destruct (k s g) as [y|] eqn:E.
    + injection Hx as <-. eauto.
    + eapply IHa; [|exact Hx].
      intros s' g' y' Hy'. cbn beta in Hy'.
      destruct (String.length s' <? String.length s)%nat; [eauto|discriminate].
  - eapply IHa; [|exact Hx]. intros s' g' y Hy. cbn beta in Hy.
    eapply Hk. exact Hy.
Qed.

(** The text of a match is cut from the front of the subject. *)
Lemma match_at_take r (s m rest : string) (g : option string) :
  match_at r s = Some (m, g, rest) ->
  m = take (String.length s - String.length rest) s.
Proof.
  intros H. unfold match_at in H.
  apply (exec_result
           (fun y => fst (fst y) = take (String.length s - String.length (snd y)) s)
           r s None _ (m, g, rest)) in H; [exact H|].
  intros s' g' y [= <-]. reflexivity.
Qed.

(** Where the pattern matches a non-empty text, the text is replaced by
    what [repl] makes of the match, and the substitution goes on behind
    it. *)
Lemma sub_at_match r repl (s m rest : string) (g : option string) :
  match_at r s = Some (m, g, rest) -> m <> "" ->
  sub r repl s = repl m g ++ sub r repl (drop (String.length m) s).
Proof.
  intros H Hm. unfold sub. destruct s as [|c t].
  - apply match_at_take in H. destruct (String.length "" - String.length rest);
      simpl in H; congruence.
  - cbn [sub_from]. rewrite H.
    destruct m as [|a m]; [congruence|]. cbn [String.length].
    f_equal. rewrite sub_from_skip. reflexivity.
Qed.

(** Where the pattern does not match, the character is kept. *)
Lemma sub_no_match r repl (c : ascii) (t : string) :
  match_at r (String c t) = None ->
  sub r repl (String c t) = String c (sub r repl t).
Proof. intros H. unfold sub. cbn [sub_from]. now rewrite H. Qed.



Lemma exec_cat {X} (a b : regex) s g (k : string -> option string -> option X) :
  exec (Cat a b) s g k = exec a s g (fun s' g' => exec b s' g' k).
Proof. reflexivity. Qed.


End ReFacts.

(* ================================================================== *)
(** ** The resolver never raises on a well-formed document *)
(* ================================================================== *)

Module TotalFacts.
Import Py Toml Props StringFacts DictFacts EntryFacts PassFacts ResolveFacts
       ComposeFacts.
Import Improved.

Lemma map_res_total {V} (g : string -> V -> res V) (d : Dict.t V) :
  (forall k v, In (k, v) d -> exists v', g k v = Ok v') ->
  exists d', map_res (entry_fn g) d = Ok d'.
Proof.
  induction d as [|[k0 v0] d IH]; intros H; simpl; [eauto|].
  destruct (H k0 v0) as [v1 Hv1]; [now left|].
  destruct IH as [d1 Hd1]; [intros k v Hin; apply H; now right|].
  unfold entry_fn at 1. simpl. rewrite Hv1. simpl. rewrite Hd1. simpl. eauto.
Qed.

Lemma for_each_section_pass_total e G (secs : list string) :
  NoDup secs ->
  forall data,
    sections_sat secs (fun deps => exists deps', G deps = Ok deps') data ->
    exists data', for_each (section_pass e G) secs data = Ok data'.
Proof.
  induction 1 as [|a secs Hnotin Hnd IH]; intros data H; simpl; [eauto|].
  assert (Ha : exists d1, section_pass e G a data = Ok d1 /\
                          forall k, k <> a -> Dict.get k d1 = Dict.get k data).
  { unfold section_pass. specialize (H a (or_introl eq_refl)).
    destruct (Dict.get a data) as [[| | | |deps]|] eqn:E; try contradiction.
    - destruct H as [deps' ->]. simpl. eexists. split; [reflexivity|].
      intros k Hk. now apply get_set_other.
    - eauto. }
  destruct Ha as (d1 & -> & Hget). simpl. apply IH.
  intros s Hs. rewrite Hget by (intros ->; contradiction).
  apply H. now right.
Qed.

Lemma add_required_feature_listed name l :
  exists l', add_required_feature name (VList l) = Ok (VList l').
Proof.
  unfold add_required_feature.
  repeat (destruct (String.eqb name _);
          [simpl; destruct (existsb _ l); simpl; eauto|]).
  eauto.
Qed.

Lemma fix_inline_entry_total name v :
  features_listed v ->
  exists v', fix_inline_entry name v = Ok v' /\ features_listed v'.
Proof.
  intros H. unfold fix_inline_entry. destruct v as [s| | | |d]; eauto.
  - destruct (String.eqb s ""); [destruct (lookup _ _)|];
      eexists; split; try reflexivity; exact I.
  - destruct (workspace_true d); [|eauto].
    assert (Hl : exists l, match Dict.get "features" d with
                           | Some f => f | None => VList [] end = VList l).
    { unfold features_listed in H.
      destruct (Dict.get "features" d) as [[| | |l|]|];
        try contradiction; eauto. }
    destruct Hl as [l ->].
    destruct (add_required_feature_listed name l) as [l' ->]. simpl.
    destruct l'; eexists; split; try reflexivity; exact I.
Qed.

Lemma fix_reqwest_entry_total x :
  features_listed x ->
  exists x', fix_reqwest_entry x = Ok x' /\ features_listed x'.
Proof.
  intros H. unfold fix_reqwest_entry.
  destruct x as [s|z|b|l|d]; [eexists; split; [reflexivity|exact I]|eauto..|].
  - unfold features_listed in H. destruct (Dict.get "features" d) as [[| | |l|]|] eqn:E;
      try contradiction.
    + simpl. destruct (existsb _ l); simpl.
      * eexists. split; [reflexivity|]. simpl. now rewrite E.
      * eexists. split; [reflexivity|]. simpl. now rewrite get_set_same.
    + eexists. split; [reflexivity|]. simpl. now rewrite E.
Qed.

Lemma fix_feature_entry_total dv f x :
  features_listed x ->
  exists x', fix_feature_entry dv f x = Ok x' /\ features_listed x'.
Proof.
  intros H. unfold fix_feature_entry.
  destruct x as [s|z|b|l|d]; [eexists; split; [reflexivity|exact I]|eauto..|].
  - unfold features_listed in H. destruct (Dict.get "features" d) as [[| | |l|]|] eqn:E;
      try contradiction.
    + simpl. destruct (existsb _ l); simpl.
      * eexists. split; [reflexivity|]. simpl. now rewrite E.
      * eexists. split; [reflexivity|]. simpl. now rewrite get_set_same.
    + eexists. split; [reflexivity|]. simpl. now rewrite get_set_same.
Qed.

Lemma inline_total deps :
  all_features_listed deps ->
  exists deps', map_res (entry_fn fix_inline_entry) deps = Ok deps'.
Proof.
  intros H. apply map_res_total. intros k v Hin.
  destruct (fix_inline_entry_total k v (H k v Hin)) as (v' & Hv' & _). eauto.
Qed.

Lemma inline_listed deps deps' :
  map_res (entry_fn fix_inline_entry) deps = Ok deps' ->
  all_features_listed deps -> all_features_listed deps'.
Proof.
  intros H Hall n v' Hin.
  destruct (map_res_in _ _ _ H n v' Hin) as (v & Hv & Hf).
  destruct (fix_inline_entry_total n v (Hall n v Hv)) as (v1 & Hv1 & Hl).
  congruence.
Qed.

Lemma on_name_total name fx deps :
  (forall x, features_listed x -> exists x', fx x = Ok x' /\ features_listed x') ->
  all_features_listed deps ->
  exists deps', on_name name fx deps = Ok deps'.
Proof.
  intros Hfx Hall. unfold on_name.
  destruct (Dict.get name deps) as [x|] eqn:E; [|eauto].
  destruct (Hfx x) as (x' & -> & _); [|simpl; eauto].
  eapply Hall. eapply get_in; eauto.
Qed.

Lemma on_name_listed name fx deps deps' :
  (forall x, features_listed x -> exists x', fx x = Ok x' /\ features_listed x') ->
  on_name name fx deps = Ok deps' ->
  all_features_listed deps -> all_features_listed deps'.
Proof.
  intros Hfx H Hall. apply on_name_inv in H.
  destruct (Dict.get name deps) as [x|] eqn:E; [|now subst].
  destruct H as (x' & Hx & ->). intros n v Hin.
  apply in_set in Hin. destruct Hin as [[= -> ->]|Hin]; [|eauto].
  destruct (Hfx x) as (x1 & Hx1 & Hl); [|congruence].
  eapply Hall. eapply get_in; eauto.
Qed.

Lemma sections_sat_sub (secs secs' : list string) (P : dict -> Prop) data :
  incl secs' secs -> sections_sat secs P data -> sections_sat secs' P data.
Proof. intros Hi H s Hs. apply H, Hi, Hs. Qed.

Lemma two_in_three : incl ["dependencies"; "dev-dependencies"] SECTIONS.
Proof. intros s Hs. simpl in *. tauto. Qed.

(** On a well-formed document no pass raises. *)
Lemma resolve_total data :
  well_formed data -> exists data', resolve data = Ok data'.
Proof.
  intros (Hflat & Hpkg & Hsat). unfold resolve.
  assert (H1 : exists d1, fix_package data = Ok d1).
  { unfold fix_package. unfold section_ok in Hpkg.
    destruct (Dict.get "package" data) as [[| | | |p]|]; try contradiction; eauto. }
  destruct H1 as [d1 H1]. rewrite H1. simpl.
  set (d2 := add_workspace_table d1).
  assert (Hflat2 : flat d2 = true).
  { apply add_workspace_table_flat. unfold flat.
    now rewrite (fix_package_keys _ _ H1). }
  rewrite (tables_flat_id _ Hflat2). simpl.
  assert (Hsat2 : sections_sat SECTIONS all_features_listed d2).
  { intros s Hs. unfold d2.
    rewrite add_workspace_table_get, (fix_package_get _ _ s H1);
      [apply Hsat, Hs| |]; intros ->; revert Hs; not_a_section. }
  destruct (for_each_section_pass_total AttributeError
              (map_res (entry_fn fix_inline_entry)) SECTIONS sections_nodup d2)
    as [d4 H4].
  { eapply sections_sat_impl; [|exact Hsat2]. apply inline_total. }
  change (fix_inline_tables d2 = Ok d4) in H4. rewrite H4. simpl.
  pose proof (fix_inline_tables_rewritten _ _ H4) as R4.
  assert (Hsat4 : sections_sat SECTIONS all_features_listed d4).
  { eapply rewritten_preserves; [exact R4| |exact Hsat2]. apply inline_listed. }
  assert (H5 : exists d5, fix_reqwest d4 = Ok d5).
  { unfold fix_reqwest.
    rewrite (for_each_ext _ _ _ _ (fix_in_section_pass _ _)).
    apply for_each_section_pass_total; [apply sections_nodup|].
    eapply sections_sat_impl; [|exact Hsat4].
    intros deps Hd. eapply on_name_total; [|exact Hd].
    apply fix_reqwest_entry_total. }
  destruct H5 as [d5 H5]. rewrite H5. simpl.
  pose proof (fix_reqwest_rewritten _ _ H5) as R5.
  assert (Hsat5 : sections_sat SECTIONS all_features_listed d5).
  { eapply rewritten_preserves; [exact R5| |exact Hsat4].
    intros deps deps'. apply on_name_listed. apply fix_reqwest_entry_total. }
  assert (H6 : exists d6, fix_chrono d5 = Ok d6).
  { unfold fix_chrono.
    rewrite (for_each_ext _ _ _ _ (fix_in_section_pass _ _)).
    apply for_each_section_pass_total; [apply two_sections_nodup|].
    eapply sections_sat_impl;
      [|eapply sections_sat_sub; [apply two_in_three|exact Hsat5]].
    intros deps Hd. eapply on_name_total; [|exact Hd].
    apply fix_feature_entry_total. }
  destruct H6 as [d6 H6]. rewrite H6. simpl.
  pose proof (fix_chrono_rewritten _ _ H6) as R6.
  assert (Hsat6 : sections_sat SECTIONS all_features_listed d6).
  { eapply rewritten_preserves; [exact R6| |exact Hsat5].
    intros deps deps'. apply on_name_listed. apply fix_feature_entry_total. }
  unfold fix_nalgebra.
  rewrite (for_each_ext _ _ _ _ (fix_in_section_pass _ _)).
  apply for_each_section_pass_total; [apply two_sections_nodup|].
  eapply sections_sat_impl;
    [|eapply sections_sat_sub; [apply two_in_three|exact Hsat6]].
  intros deps Hd. eapply on_name_total; [|exact Hd].
  apply fix_feature_entry_total.
Qed.

End TotalFacts.

(* ================================================================== *)
(** ** Facts about [str.replace] *)
(* ================================================================== *)

Module ReplaceFacts.
Import Py Overlap StringFacts.

Lemma replace_from_skip old new (t : string) :
  forall k, replace_from old new t k = replace_from old new (drop k t) 0.
Proof.
  induction t as [|c t IH]; intros [|k]; try reflexivity.
  simpl. apply IH.
Qed.

Lemma replace_eq old new c t :
  old <> "" ->
  replace old new (String c t) =
  if prefix old (String c t)
  then new ++ replace old new (drop (String.length old) (String c t))
  else String c (replace old new t).
Proof.
  intros Hold. unfold replace. cbn [replace_from].
  destruct (prefix old (String c t)); [|reflexivity].
  rewrite replace_from_skip. destruct old as [|a old]; [congruence|].
  simpl. now rewrite Nat.sub_0_r.
Qed.

Lemma drop_length_le n (s : string) : String.length (drop n s) <= String.length s.
Proof.
  revert s; induction n as [|n IH]; intros [|c s]; simpl; try lia.
  specialize (IH s). lia.
Qed.

Lemma prefix_empty (s : string) : prefix "" s = true.
Proof. destruct s; reflexivity. Qed.

Lemma prefix_cons a p c s :
  prefix (String a p) (String c s) = Ascii.eqb a c && prefix p s.
Proof.
  simpl. destruct (ascii_dec a c) as [->|Hn].
  - now rewrite Ascii.eqb_refl.
  - apply Ascii.eqb_neq in Hn. now rewrite Hn.
Qed.

(** Texts that do not agree stay apart whatever follows. *)
Lemma clash_app (q n y : string) :
  agree q n = false -> prefix q (n ++ y) = false.
Proof.
  unfold agree. revert n; induction q as [|a q IH]; intros n H.
  - rewrite prefix_empty in H. discriminate.
  - destruct n as [|c n].
    + rewrite (prefix_empty (String a q)), orb_true_r in H. discriminate.
    + cbn [append]. rewrite !prefix_cons in *.
      destruct (Ascii.eqb a c) eqn:E; [|reflexivity].
      apply Ascii.eqb_eq in E. subst c. rewrite Ascii.eqb_refl in H.
      simpl in *. apply IH, H.
Qed.

Lemma contains_app_clash (p new y : string) :
  forallb (fun m => negb (agree p m)) (tails new) = true ->
  contains p (new ++ y) = contains p y.
Proof.
  induction new as [|c new IH]; intros H; [reflexivity|].
  simpl in H. apply andb_true_iff in H. destruct H as [H1 H2].
  apply negb_true_iff in H1.
  cbn [append]. rewrite contains_eq.
  change (String c (new ++ y)) with (String c new ++ y).
  rewrite (clash_app _ _ _ H1). apply IH, H2.
Qed.

Lemma contains_drop (p : string) n (s : string) :
  contains p s = false -> contains p (drop n s) = false.
Proof.
  revert s; induction n as [|n IH]; intros [|c s] H; try exact H.
  simpl. apply IH. rewrite contains_eq in H.
  destruct (prefix p (String c s)); [discriminate|exact H].
Qed.

Lemma contains_false_prefix (p s : string) :
  contains p s = false -> prefix p s = false.
Proof.
  intros H. rewrite contains_eq in H. destruct (prefix p s); [discriminate|reflexivity].
Qed.

(** A text without the old text is returned as it is. *)
Lemma replace_absent old new (s : string) :
  old <> "" -> contains old s = false -> replace old new s = s.
Proof.
  intros Hold. induction s as [|c s IH]; intros H; [reflexivity|].
  rewrite replace_eq by exact Hold.
  rewrite (contains_false_prefix _ _ H). f_equal. apply IH.
  rewrite contains_eq in H.
  destruct (prefix old (String c s)); [discriminate|exact H].
Qed.

Lemma tails_tail a (q p : string) :
  In (String a q) (tails p) -> q = "" \/ In q (tails p).
Proof.
  induction p as [|x p IHp]; [contradiction|].
  simpl. intros [Hq|Hq].
  - injection Hq as _ Hq. subst p. destruct q; [now left|right; right].
    simpl. now left.
  - destruct (IHp Hq) as [->|H]; [now left|right; now right].
Qed.

(** The replacement makes no beginning of [p] where there was none. *)
Lemma replace_no_new_prefix old new (p : string) :
  old <> "" ->
  forallb (fun q => negb (agree q new)) (tails p) = true ->
  forall n (s : string), String.length s <= n ->
  forall q, q = "" \/ In q (tails p) ->
    prefix q (replace old new s) = true -> prefix q s = true.
Proof.
  intros Hold Hsep. induction n as [|n IH]; intros s Hn q Hq Hp.
  - destruct s; [exact Hp|simpl in Hn; lia].
  - destruct s as [|c t]; [exact Hp|].
    destruct Hq as [->|Hq]; [apply prefix_empty|].
    rewrite replace_eq in Hp by exact Hold.
    destruct (prefix old (String c t)) eqn:E.
    + rewrite forallb_forall in Hsep. specialize (Hsep q Hq).
      apply negb_true_iff in Hsep. rewrite (clash_app _ _ _ Hsep) in Hp.
      discriminate.
    + destruct q as [|a q]; [apply prefix_empty|].
      rewrite prefix_cons in *. apply andb_true_iff in Hp.
      destruct Hp as [Ha Hp]. rewrite Ha. simpl.
      apply (IH t); [simpl in Hn; lia| |exact Hp].
      eapply tails_tail, Hq.
Qed.

(** After the replacement there is no [p] in the text, when there was none
    before or [p] is the text replaced. *)
Lemma replace_free old new (p : string) :
  old <> "" -> p <> "" -> separate p new = true ->
  forall (s : string), p = old \/ contains p s = false ->
    contains p (replace old new s) = false.
Proof.
  intros Hold Hp Hsep. unfold separate in Hsep.
  apply andb_true_iff in Hsep. destruct Hsep as [H0 H1].
  assert (G : forall n (s : string), String.length s <= n ->
              p = old \/ contains p s = false ->
              contains p (replace old new s) = false).
  { induction n as [|n IH]; intros s Hn Hs.
    - destruct s; [|simpl in Hn; lia]. destruct p; [congruence|reflexivity].
    - destruct s as [|c t]; [destruct p; [congruence|reflexivity]|].
      rewrite replace_eq by exact Hold.
      destruct (prefix old (String c t)) eqn:E.
      + rewrite contains_app_clash by exact H1. apply IH.
        * pose proof (drop_length_le (String.length old) (String c t)) as Hd.
          destruct old as [|a old]; [congruence|]. simpl in *.
          pose proof (drop_length_le (String.length old) t). lia.
        * destruct Hs as [Hs|Hs]; [now left|right].
          now apply contains_drop.
      + rewrite contains_eq.
        assert (Hpre : prefix p (String c (replace old new t)) = false).
        { destruct (prefix p (String c (replace old new t))) eqn:Hpp; [|reflexivity].
          assert (Hps : prefix p (String c t) = true).
          { apply (replace_no_new_prefix old new p Hold H0 (S n) (String c t) Hn p).
            - right. destruct p; [congruence|now left].
            - rewrite replace_eq by exact Hold. now rewrite E. }
          destruct Hs as [->|Hs]; [congruence|].
          apply contains_false_prefix in Hs. congruence. }
        rewrite Hpre. apply IH; [simpl in Hn; lia|].
        destruct Hs as [Hs|Hs]; [now left|right].
        rewrite contains_eq in Hs.
        destruct (prefix p (String c t)); [discriminate|exact Hs]. }
  intros s. apply (G (String.length s)). lia.
Qed.

End ReplaceFacts.

(* ================================================================== *)
(** ** publish-all-hanzo-crates.py: the fixer and the loop *)
(* ================================================================== *)

Module AllCratesFacts.
Import Py St Os Props Overlap LoopProps StringFacts ReplaceFacts RunFacts
       CrateFacts LoopFacts.

Lemma pinned_not_empty n v : AllCrates.pinned n v <> "".
Proof. unfold AllCrates.pinned. destruct n; discriminate. Qed.

Lemma allcrates_fixed_content_free (content : string) :
  let fixed := AllCrates.fixed_content content in
  contains (AllCrates.pinned "thiserror" "1.0.86") fixed = false /\
  contains (AllCrates.pinned "blake3" "1.8.2") fixed = false /\
  contains (AllCrates.pinned "ed25519-dalek" "2.1.1") fixed = false /\
  contains (AllCrates.pinned "x25519-dalek" "2.0.1") fixed = false.
Proof.
  cbv zeta. unfold AllCrates.fixed_content.
  set (c1 := replace (AllCrates.pinned "thiserror" "1.0.86") _ content).
  set (c2 := replace (AllCrates.pinned "blake3" "1.8.2") _ c1).
  set (o3 := AllCrates.pinned "ed25519-dalek" "2.1.1").
  set (o4 := AllCrates.pinned "x25519-dalek" "2.0.1").
  assert (E3 : (if contains o3 c2 then replace o3 (AllCrates.pinned_with "ed25519-dalek" "2.1.1" "rand_core") c2 else c2)
               = replace o3 (AllCrates.pinned_with "ed25519-dalek" "2.1.1" "rand_core") c2).
  { destruct (contains o3 c2) eqn:E; [reflexivity|].
    symmetry. apply replace_absent; [apply pinned_not_empty|exact E]. }
  rewrite E3. set (c3 := replace o3 _ c2).
  assert (E4 : (if contains o4 c3 then replace o4 (AllCrates.pinned_with "x25519-dalek" "2.0.1" "static_secrets") c3 else c3)
               = replace o4 (AllCrates.pinned_with "x25519-dalek" "2.0.1" "static_secrets") c3).
  { destruct (contains o4 c3) eqn:E; [reflexivity|].
    symmetry. apply replace_absent; [apply pinned_not_empty|exact E]. }
  rewrite E4.
  assert (F1 : contains (AllCrates.pinned "thiserror" "1.0.86") c1 = false).
  { apply replace_free; try apply pinned_not_empty; [reflexivity|now left]. }
  assert (F2 : contains (AllCrates.pinned "thiserror" "1.0.86") c2 = false /\
               contains (AllCrates.pinned "blake3" "1.8.2") c2 = false).
  { split; apply replace_free; try apply pinned_not_empty;
      try reflexivity; [now right|now left]. }
  destruct F2 as [F21 F22].
  assert (F3 : contains (AllCrates.pinned "thiserror" "1.0.86") c3 = false /\
               contains (AllCrates.pinned "blake3" "1.8.2") c3 = false /\
               contains o3 c3 = false).
  { repeat split; apply replace_free; try apply pinned_not_empty;
      try reflexivity; [now right|now right|now left]. }
  destruct F3 as (F31 & F32 & F33).
  repeat split; apply replace_free; try apply pinned_not_empty;
    try reflexivity; [now right|now right|now right|now left].
Qed.

Lemma allcrates_fixed_content_idem (content : string) :
  AllCrates.fixed_content (AllCrates.fixed_content content)
  = AllCrates.fixed_content content.
Proof.
  destruct (allcrates_fixed_content_free content) as (F1 & F2 & F3 & F4).
  cbv zeta in *. set (fixed := AllCrates.fixed_content content) in *.
  unfold AllCrates.fixed_content at 1.
  rewrite (replace_absent _ _ fixed (pinned_not_empty _ _) F1).
  rewrite (replace_absent _ _ fixed (pinned_not_empty _ _) F2).
  rewrite F3, F4. reflexivity.
Qed.

Section Loop.
Variable remote : Type.
Variable cargo : remote -> string -> option string
                 -> remote * proc * option string.

#[local] Abbreviation publish := (AllCrates.publish_crate remote cargo).

(** [publish_crate] makes and removes no directory. *)
Lemma allcrates_publish_dirs (crate : string) (w : world remote) :
  forall c, dir_exists (fst (publish crate w)) c = dir_exists w c.
Proof.
  intros c. unfold dir_exists.
  unfold AllCrates.publish_crate, AllCrates.fix_cargo_toml, run_command,
    subprocess_run, read_manifest, write_manifest, manifest, path_exists, emit.
  st_unfold. cbn -[put AllCrates.fixed_content AllCrates.accepted shell].
  destruct (fs w crate) as [[[content|] saved]|] eqn:Hfs.
  3: reflexivity.
  - cbn -[put AllCrates.fixed_content AllCrates.accepted]. rewrite !Hfs.
    cbn -[put AllCrates.fixed_content AllCrates.accepted].
    destruct (String.eqb (AllCrates.fixed_content content) content) eqn:E;
      cbn -[put AllCrates.fixed_content AllCrates.accepted]; rewrite ?Hfs; run;
      (lazymatch goal with |- context [cargo ?a ?b ?x] =>
         destruct (cargo a b x) as [[rg p] m] end);
      destruct p as [rc out err|e]; run;
      (lazymatch goal with |- context [AllCrates.accepted ?a ?b] =>
         destruct (AllCrates.accepted a b) end); run;
      unfold put; destruct (String.eqb c crate) eqn:Ec;
      try reflexivity; apply String.eqb_eq in Ec; subst c; now rewrite Hfs.
  - cbn -[put AllCrates.fixed_content AllCrates.accepted]. rewrite !Hfs.
    run. rewrite !Hfs. run.
    (lazymatch goal with |- context [cargo ?a ?b ?x] =>
         destruct (cargo a b x) as [[rg p] m] end);
      destruct p as [rc out err|e]; run;
      (lazymatch goal with |- context [AllCrates.accepted ?a ?b] =>
         destruct (AllCrates.accepted a b) end); run;
      unfold put; destruct (String.eqb c crate) eqn:Ec;
      try reflexivity; apply String.eqb_eq in Ec; subst c; now rewrite Hfs.
Qed.


(** What one turn of the loop of publish-all-hanzo-crates.py shows of a
    crate that is not the skipped one. *)
Lemma allcrates_publish_summary (c : string) (w : world remote) :
  c <> "hanzo-message-primitives" ->
  exists w1 ok,
    publish c w = (w1, Ok ok) /\
    token w1 = token w /\ stdin w1 = stdin w /\
    (forall x, dir_exists w1 x = dir_exists w x) /\
    fs w1 "hanzo-message-primitives" = fs w "hanzo-message-primitives" /\
    announced (trace w1) =
      (announced (trace w) ++ filter (dir_exists w) [c])%list /\
    attempts (trace w1) =
      (attempts (trace w) ++ filter (dir_exists w) [c])%list.
Proof.
  intros Hc.
  pose proof (allcrates_publish_crate_spec remote cargo c w) as Hspec.
  pose proof (allcrates_publish_dirs c w) as Hdirs.
  destruct (publish c w) as [w1 r]. cbn [fst] in Hdirs.
  destruct Hspec as (Htok & Hin & Hfs & Hcase).
  assert (Hde : dir_exists w c =
                match fs w c with Some _ => true | None => false end)
    by reflexivity.
  cbn [filter]. rewrite Hde. clear Hde.
  destruct (fs w c) as [d|] eqn:E.
  - cbv zeta in Hcase.
    destruct (cargo (registry w) c
                (option_map AllCrates.fixed_content (cargo_toml d)))
      as [[rg p] m].
    destruct Hcase as (-> & Htr & _ & _).
    exists w1, (AllCrates.accepted (fst (answer p)) (snd (answer p))).
    split; [reflexivity|]. split; [exact Htok|]. split; [exact Hin|].
    split; [exact Hdirs|]. split; [apply Hfs; congruence|].
    split; [rewrite Htr, announced_app|rewrite Htr, attempts_app]; reflexivity.
  - destruct Hcase as (-> & ->). exists w, false.
    rewrite !app_nil_r. repeat split; auto.
Qed.

Lemma allcrates_settle (all : list string) (c : string) (w : world remote) :
  exists w', settle all c w = (w', Ok tt) /\
    fs w' = fs w /\ stdin w' = stdin w /\ token w' = token w /\
    announced (trace w') = announced (trace w) /\
    attempts (trace w') = attempts (trace w).
Proof.
  unfold settle. destruct (String.eqb c (last_crate all));
    eexists; (split; [reflexivity|]); cbn;
    rewrite ?announced_app, ?attempts_app; cbn;
    rewrite ?app_nil_r; repeat split; auto.
Qed.

(** The loop of publish-all-hanzo-crates.py: the crates gone through are an
    initial part [done] of the order without the skipped crate, and the
    lines read from the operator are an initial part of the input. *)
Lemma allcrates_publish_loop_spec (all crates : list string) :
  forall (w : world remote) (succeeded failed : list string),
  exists w' r done rest answers,
    AllCrates.publish_loop remote cargo all crates succeeded failed w = (w', r) /\
    filter (fun c => negb (String.eqb c "hanzo-message-primitives")) crates
      = (done ++ rest)%list /\
    stdin w = (answers ++ stdin w')%list /\
    token w' = token w /\
    (forall c, dir_exists w' c = dir_exists w c) /\
    fs w' "hanzo-message-primitives" = fs w "hanzo-message-primitives" /\
    announced (trace w') = (announced (trace w) ++ filter (dir_exists w) done)%list /\
    attempts (trace w') = (attempts (trace w) ++ filter (dir_exists w) done)%list /\
    match r with
    | Ok (s', f') =>
        exists ds df,
          s' = (succeeded ++ ds)%list /\ f' = (failed ++ df)%list /\
          Permutation (ds ++ df) done /\
          List.length answers = List.length df /\
          (rest = [] \/ exists a, In a answers /\ lower a <> "y")
    | Raise e =>
        exn_class e = "EOFError" /\ stdin w' = [] /\
        List.length answers < List.length done
    end.
Proof.
  induction crates as [|c rest0 IH]; intros w succeeded failed.
  - exists w, (Ok (succeeded, failed)), [], [], [].
    cbn. rewrite !app_nil_r. repeat split; auto.
    exists [], []. rewrite !app_nil_r. repeat split; auto.
  - cbn [AllCrates.publish_loop filter].
    destruct (String.eqb c "hanzo-message-primitives") eqn:Ec.
    + cbn [negb]. apply IH.
    + cbn [negb]. apply String.eqb_neq in Ec.
      destruct (allcrates_publish_summary c w Ec)
        as (w1 & ok & Hpub & Htok1 & Hin1 & Hdir1 & Hskip1 & Han1 & Hat1).
      unfold St.bind at 1. rewrite Hpub.
      destruct ok.
      * unfold St.bind at 1.
        destruct (allcrates_settle all c w1)
          as (w2 & -> & Hfs2 & Hin2 & Htok2 & Han2 & Hat2).
        destruct (IH w2 (succeeded ++ [c])%list failed)
          as (w' & r & done & rest & answers & -> & Hfil & Hst & Htok & Hdir
              & Hskip & Han & Hat & Hr).
        assert (Hdir2 : forall x, dir_exists w2 x = dir_exists w x).
        { intros x. unfold dir_exists. rewrite Hfs2. apply Hdir1. }
        exists w', r, (c :: done), rest, answers.
        split; [reflexivity|]. split; [cbn; now rewrite Hfil|].
        split; [congruence|]. split; [congruence|].
        split; [intros x; now rewrite Hdir, Hdir2|].
        split; [now rewrite Hskip, Hfs2, Hskip1|].
        split.
        { rewrite Han, Han2, Han1, <- List.app_assoc. f_equal.
          rewrite (filter_ext _ _ Hdir2). cbn [filter].
          destruct (dir_exists w c); reflexivity. }
        split.
        { rewrite Hat, Hat2, Hat1, <- List.app_assoc. f_equal.
          rewrite (filter_ext _ _ Hdir2). cbn [filter].
          destruct (dir_exists w c); reflexivity. }
        destruct r as [[s' f']|e].
        -- destruct Hr as (ds & df & -> & -> & Hp & Hlen & Hrest).
           exists (c :: ds), df. rewrite <- List.app_assoc.
           repeat split; auto. cbn. now constructor.
        -- destruct Hr as (He & Hs & Hl). repeat split; auto. cbn. lia.
      * unfold St.bind at 1. unfold input at 1.
        destruct (stdin w1) as [|line more] eqn:Hstdin.
        -- exists w1, (Raise (Exn "EOFError" "EOF when reading a line")),
             [c], (filter (fun c => negb (String.eqb c "hanzo-message-primitives")) rest0),
             [].
           split; [reflexivity|]. split; [reflexivity|].
           split; [cbn; congruence|]. split; [exact Htok1|].
           split; [exact Hdir1|]. split; [exact Hskip1|].
           split; [exact Han1|]. split; [exact Hat1|].
           cbn. repeat split; auto.
        -- set (w1' := World (fs w1) (registry w1) (trace w1 ++ [Prompted c])
                             more (token w1)).
           destruct (String.eqb (lower line) "y") eqn:Ey.
           ++ destruct (IH w1' succeeded (failed ++ [c])%list)
                as (w' & r & done & rest & answers & -> & Hfil & Hst & Htok & Hdir
                    & Hskip & Han & Hat & Hr).
              assert (Hdir' : forall x, dir_exists w1' x = dir_exists w x)
                by (intros x; apply Hdir1).
              exists w', r, (c :: done), rest, (line :: answers).
              split; [reflexivity|]. split; [cbn; now rewrite Hfil|].
              split; [rewrite <- Hin1; cbn; f_equal; exact Hst|].
              split; [rewrite Htok; exact Htok1|].
              split; [intros x; now rewrite Hdir, Hdir'|].
              split; [rewrite Hskip; exact Hskip1|].
              split.
              { rewrite Han. cbn [trace w1']. rewrite announced_app, Han1. cbn.
                rewrite app_nil_r, <- List.app_assoc. f_equal.
                rewrite (filter_ext _ _ Hdir').
                destruct (dir_exists w c); reflexivity. }
              split.
              { rewrite Hat. cbn [trace w1']. rewrite attempts_app, Hat1. cbn.
                rewrite app_nil_r, <- List.app_assoc. f_equal.
                rewrite (filter_ext _ _ Hdir').
                destruct (dir_exists w c); reflexivity. }
              destruct r as [[s' f']|e].
              ** destruct Hr as (ds & df & -> & -> & Hp & Hlen & Hrest).
                 exists ds, (c :: df). rewrite <- List.app_assoc.
                 split; [reflexivity|]. split; [reflexivity|].
                 split; [now apply perm_snoc_right|].
                 split; [cbn; now rewrite Hlen|].
                 destruct Hrest as [->|(a & Ha & Hy)]; [now left|right].
                 exists a. split; [now right|exact Hy].
              ** destruct Hr as (He & Hs & Hl). repeat split; auto. cbn. lia.
           ++ exists w1', (Ok (succeeded, (failed ++ [c])%list)),
                [c], (filter (fun c => negb (String.eqb c "hanzo-message-primitives")) rest0),
                [line].
              split; [reflexivity|]. split; [reflexivity|].
              split; [rewrite <- Hin1; reflexivity|].
              split; [exact Htok1|]. split; [exact Hdir1|].
              split; [exact Hskip1|].
              split; [cbn [trace w1']; rewrite announced_app, Han1; cbn;
                      now rewrite app_nil_r|].
              split; [cbn [trace w1']; rewrite attempts_app, Hat1; cbn;
                      now rewrite app_nil_r|].
              exists [], [c]. rewrite app_nil_r.
              split; [reflexivity|]. split; [reflexivity|].
              split; [apply Permutation_refl|]. split; [reflexivity|].
              right. exists line. split; [now left|].
              apply String.eqb_neq, Ey.
Qed.

End Loop.

Lemma kept_crates_spec crates c :
  In c (kept_crates crates) -> c <> "hanzo-message-primitives".
Proof.
  unfold kept_crates. rewrite filter_In. intros [_ H].
  apply negb_true_iff in H. now apply String.eqb_neq.
Qed.

Lemma allcrates_main_eq remote cargo (crates : list string) (w : world remote) :
  AllCrates.main remote cargo crates w =
  if token_missing w then (w, Ok NoToken)
  else match AllCrates.publish_loop remote cargo crates crates [] [] w with
       | (w', Ok (s, f)) => (w', Ok (Summary s f))
       | (w', Raise e) => (w', Raise e)
       end.
Proof.
  unfold AllCrates.main. st_unfold. cbn.
  destruct (token_missing w); [reflexivity|].
  destruct (AllCrates.publish_loop remote cargo crates crates [] [] w)
    as [w' [[s f]|e]]; reflexivity.
Qed.

(** The run of [main] with a credential, from the loop. *)
Lemma allcrates_main_spec :
  forall remote cargo (crates : list string) (w : world remote),
  token_missing w = false ->
  exists w' r done rest answers,
    AllCrates.main remote cargo crates w = (w', r) /\
    kept_crates crates = (done ++ rest)%list /\
    stdin w = (answers ++ stdin w')%list /\
    attempts (trace w') = (attempts (trace w) ++ filter (dir_exists w) done)%list /\
    match r with
    | Ok (Summary succeeded failed) =>
        Permutation (succeeded ++ failed) done /\
        List.length answers = List.length failed /\
        (rest = [] \/ exists a, In a answers /\ lower a <> "y")
    | Ok NoToken => False
    | Raise e =>
        exn_class e = "EOFError" /\ stdin w' = [] /\
        List.length answers < List.length done
    end.
Proof.
  intros remote cargo crates w Htok.
  rewrite allcrates_main_eq, Htok.
  destruct (allcrates_publish_loop_spec remote cargo crates crates w [] [])
    as (w' & r & done & rest & answers & -> & Hfil & Hst & _ & Hdir & Hskip
        & Han & Hat & Hr).
  destruct r as [[s f]|e].
  - exists w', (Ok (Summary s f)), done, rest, answers.
    destruct Hr as (ds & df & -> & -> & Hp & Hl & Hrest). cbn.
    repeat split; auto.
  - exists w', (Raise e), done, rest, answers. repeat split; auto; tauto.
Qed.

End AllCratesFacts.

(* ================================================================== *)
(** ** Facts about what a pattern has to read *)
(* ================================================================== *)

Module ScanFacts.
Import Py Re Scan StringFacts ReplaceFacts ReFacts.

Lemma is_suffix_refl s : is_suffix s s.
Proof. now exists "". Qed.

Lemma is_suffix_trans a b c : is_suffix a b -> is_suffix b c -> is_suffix a c.
Proof.
  intros [p ->] [q ->]. exists (q ++ p). now rewrite app_assoc.
Qed.

Lemma is_suffix_tail c t : is_suffix t (String c t).
Proof. now exists (String c ""). Qed.

Lemma is_suffix_drop n (s : string) : is_suffix (drop n s) s.
Proof.
  revert s; induction n as [|n IH]; intros [|c s]; try apply is_suffix_refl.
  simpl. eapply is_suffix_trans; [apply IH|apply is_suffix_tail].
Qed.

Lemma contains_suffix w (s' s : string) :
  is_suffix s' s -> contains w s' = true -> contains w s = true.
Proof.
  intros [p ->] H. apply contains_iff in H. destruct H as (a & b & ->).
  apply contains_iff. exists (p ++ a), b. now rewrite app_assoc.
Qed.

Lemma contains_suffix_false w (s' s : string) :
  is_suffix s' s -> contains w s = false -> contains w s' = false.
Proof.
  intros Hs H. destruct (contains w s') eqn:E; [|reflexivity].
  rewrite (contains_suffix _ _ _ Hs E) in H. discriminate.
Qed.

(** The continuation is handed what is left of the subject. *)
Lemma exec_rest {X} (P : X -> Prop) (r : regex) :
  forall (s : string) (g : option string)
         (k : string -> option string -> option X) (x : X),
    (forall s' g' y, is_suffix s' s -> k s' g' = Some y -> P y) ->
    exec r s g k = Some x -> P x.
Proof.
  induction r as [l|p|a IHa b IHb|a IHa|a IHa|a IHa]; intros s g k x Hk Hx;
    cbn [exec] in Hx.
  - destruct (prefix l s) eqn:E; [|discriminate].
    eapply Hk; [|exact Hx]. apply is_suffix_drop.
  - destruct s as [|c t]; [discriminate|]. destruct (p c); [|discriminate].
    eapply Hk; [|exact Hx]. apply is_suffix_tail.
  - eapply IHa; [|exact Hx]. intros s' g' y Hs Hy.
    eapply IHb; [|exact Hy]. intros s2 g2 y2 Hs2 Hy2.
    eapply Hk; [|exact Hy2]. eapply is_suffix_trans; eassumption.
  - revert x Hx. generalize (String.length s) as n. intros n. revert s g Hk.
    induction n as [|n IHn]; intros s g Hk x Hx;
      [eapply Hk; [|exact Hx]; apply is_suffix_refl|].
    destruct (exec a s g _) as [y|] eqn:E.
    + injection Hx as <-. eapply IHa; [|exact E].
      intros s' g' y' Hs Hy'. cbn beta in Hy'.
      destruct (String.length s' <? String.length s)%nat; [|discriminate].
      eapply IHn; [|exact Hy']. intros s2 g2 y2 Hs2 Hy2.
      eapply Hk; [|exact Hy2]. eapply is_suffix_trans; eassumption.
    + eapply Hk; [|exact Hx]. apply is_suffix_refl.
  - revert x Hx. generalize (String.length s) as n. intros n. revert s g Hk.
    induction n as [|n IHn]; intros s g Hk x Hx;
      [eapply Hk; [|exact Hx]; apply is_suffix_refl|].
    destruct (k s g) as [y|] eqn:E.
    + injection Hx as <-. eapply Hk; [|exact E]. apply is_suffix_refl.
    + eapply IHa; [|exact Hx].
      intros s' g' y' Hs Hy'. cbn beta in Hy'.
      destruct (String.length s' <? String.length s)%nat; [|discriminate].
      eapply IHn; [|exact Hy']. intros s2 g2 y2 Hs2 Hy2.
      eapply Hk; [|exact Hy2]. eapply is_suffix_trans; eassumption.
  - eapply IHa; [|exact Hx]. intros s' g' y Hs Hy. cbn beta in Hy.
    eapply Hk; [|exact Hy]. exact Hs.
Qed.

(** A pattern that needs a text matches only where the text is. *)
Lemma exec_needs {X} w (r : regex) :
  needs w r = true ->
  forall (s : string) (g : option string)
         (k : string -> option string -> option X) (x : X),
    exec r s g k = Some x -> contains w s = true.
Proof.
  induction r as [l|p|a IHa b IHb|a IHa|a IHa|a IHa]; intros Hn s g k x Hx;
    cbn [needs] in Hn; try discriminate.
  - cbn [exec] in Hx. destruct (prefix l s) eqn:E; [|discriminate].
    destruct (prefix_inv _ _ E) as [rest ->].
    apply contains_iff in Hn. destruct Hn as (a & b & ->).
    apply contains_iff. exists a, (b ++ rest). now rewrite !app_assoc.
  - cbn [exec] in Hx. apply orb_true_iff in Hn. destruct Hn as [Hn|Hn].
    + eapply IHa; eassumption.
    + eapply (exec_rest (fun _ => contains w s = true)); [|exact Hx].
      intros s' g' y Hs Hy. cbn beta in Hy.
      eapply contains_suffix; [exact Hs|].
      eapply IHb; [exact Hn|exact Hy].
  - cbn [exec] in Hx. eapply IHa; eassumption.
Qed.

Lemma match_at_needs w r (s : string) :
  needs w r = true -> contains w s = false -> match_at r s = None.
Proof.
  intros Hn Hc. destruct (match_at r s) as [x|] eqn:E; [|reflexivity].
  unfold match_at in E. apply (exec_needs w r Hn) in E. congruence.
Qed.

Lemma contains_tail w c (t : string) :
  contains w (String c t) = false -> contains w t = false.
Proof. apply contains_suffix_false, is_suffix_tail. Qed.

(** A substitution leaves a text alone that has nothing the pattern
    needs. *)
Lemma sub_needs w r repl (s : string) :
  needs w r = true -> contains w s = false -> sub r repl s = s.
Proof.
  intros Hn. induction s as [|c t IH]; intros Hc; [reflexivity|].
  rewrite sub_no_match by (eapply match_at_needs; eassumption).
  f_equal. apply IH. eapply contains_tail, Hc.
Qed.

Lemma drop_app_length (a b : string) : drop (String.length a) (a ++ b) = b.
Proof. induction a; simpl; auto. Qed.

Lemma take_app_length (a b : string) : take (String.length a) (a ++ b) = a.
Proof. induction a; simpl; [destruct b; reflexivity|congruence]. Qed.

(** A literal matches its own text. *)
Lemma match_at_lit l (s : string) :
  match_at (Lit l) s =
  if prefix l s then Some (l, None, drop (String.length l) s) else None.
Proof.
  unfold match_at. cbn [exec]. destruct (prefix l s) eqn:E; [|reflexivity].
  destruct (prefix_inv _ _ E) as [rest ->].
  rewrite drop_app_length, length_app, Nat.add_sub, take_app_length.
  reflexivity.
Qed.

(** [re.sub] of a literal by a text is [str.replace]. *)
Lemma sub_lit old new (s : string) :
  old <> "" -> sub (Lit old) (const new) s = replace old new s.
Proof.
  intros Hold. unfold sub, replace. generalize 0 as k.
  induction s as [|c t IH]; intros k; [reflexivity|].
  cbn [sub_from replace_from]. destruct k as [|k]; [|apply IH].
  rewrite match_at_lit.
  destruct (prefix old (String c t)) eqn:E.
  - destruct old as [|a old]; [congruence|].
    cbn [String.length]. rewrite Nat.sub_succ, Nat.sub_0_r.
    unfold const. f_equal. apply IH.
  - f_equal. apply IH.
Qed.

End ScanFacts.

(* ================================================================== *)
(** ** fix-crypto-apis.py *)
(* ================================================================== *)

Module CryptoFacts.
Import Py Re St Overlap StringFacts ReplaceFacts ReFacts ScanFacts RunFacts.
Import CryptoApis.

Lemma fixed_content_replace (content : string) :
  fixed_content content
  = replace "SigningKey::generate(" "SigningKey::new(" content.
Proof. apply sub_lit. discriminate. Qed.

Lemma fixed_content_free (content : string) :
  contains "SigningKey::generate(" (fixed_content content) = false.
Proof.
  rewrite fixed_content_replace.
  apply replace_free; [discriminate|discriminate|reflexivity|now left].
Qed.

Lemma fixed_content_same (content : string) :
  String.eqb (fixed_content content) content
  = negb (contains "SigningKey::generate(" content).
Proof.
  destruct (contains "SigningKey::generate(" content) eqn:E; cbn [negb].
  - apply String.eqb_neq. intros H.
    pose proof (fixed_content_free content) as F. rewrite H in F. congruence.
  - apply String.eqb_eq. rewrite fixed_content_replace.
    apply replace_absent; [discriminate|exact E].
Qed.

Lemma fixed_content_idem (content : string) :
  fixed_content (fixed_content content) = fixed_content content.
Proof.
  apply String.eqb_eq. rewrite fixed_content_same, fixed_content_free.
  reflexivity.
Qed.

Lemma fix_file_eq (path : string) (fs : files) :
  fix_file path fs =
  match fs path with
  | None => (fs, Raise (FileNotFoundError path))
  | Some original =>
      if contains "SigningKey::generate(" original
      then (write fs path (fixed_content original), Ok true)
      else (fs, Ok false)
  end.
Proof.
  unfold fix_file. destruct (fs path) as [original|]; [|reflexivity].
  cbv zeta. rewrite fixed_content_same, negb_involutive. reflexivity.
Qed.

Lemma write_same (fs : files) path content : write fs path content path = Some content.
Proof. unfold write. now rewrite String.eqb_refl. Qed.

Lemma write_other (fs : files) path content p :
  p <> path -> write fs path content p = fs p.
Proof. intros H. unfold write. apply String.eqb_neq in H. now rewrite H. Qed.

End CryptoFacts.

(* ================================================================== *)
(** ** fix-all-cargo-tomls.py *)
(* ================================================================== *)

Module FixAllFacts.
Import Py Re St Os Scan StringFacts ReplaceFacts ReFacts ScanFacts RunFacts CrateFacts.
Import FixAll FixProps.

Section Fix.
Variable escapes : string -> res (string -> option string -> string).

Lemma fixed_content_explicit (content : string) :
  contains "workspace" content = false ->
  (contains "[package]" content = true -> has_metadata content = true) ->
  fixed_content escapes content = Ok content.
Proof.
  intros Hw Hmeta. unfold fixed_content.
  assert (E : forall r repl, needs "workspace" r = true ->
                             sub r repl content = content)
    by (intros r repl Hr; now apply (sub_needs "workspace")).
  rewrite !E by reflexivity.
  destruct (contains "[package]" content) eqn:Ep.
  - specialize (Hmeta eq_refl). unfold has_metadata in Hmeta.
    repeat (apply andb_true_iff in Hmeta; destruct Hmeta as [Hmeta ?]).
    unfold add_license. rewrite Hmeta.
    unfold add_repository. rewrite H1.
    unfold add_homepage. rewrite H0.
    unfold add_description. rewrite H. cbn [Py.bind].
    rewrite !E by reflexivity.
    reflexivity.
  - cbn [Py.bind].
    rewrite !E by reflexivity.
    reflexivity.
Qed.

Lemma fix_cargo_toml_eq (crate_dir : string) (fs : filesystem) :
  fix_cargo_toml escapes crate_dir fs =
  match fs crate_dir with
  | Some (Dir (Some original) saved) =>
      match fixed_content escapes original with
      | Ok content =>
          if String.eqb content original then (fs, Ok false)
          else (put fs crate_dir (Dir (Some content) saved), Ok true)
      | Raise e => (fs, Raise e)
      end
  | _ => (fs, Raise (FileNotFoundError (crate_dir ++ "/Cargo.toml")))
  end.
Proof.
  unfold fix_cargo_toml.
  destruct (fs crate_dir) as [[[original|] saved]|]; try reflexivity.
  destruct (fixed_content escapes original); [|reflexivity].
  destruct (String.eqb a original); reflexivity.
Qed.

(** One turn of the loop of [main]. *)
Lemma fix_all_cons (c : string) (rest : list string) (k : nat) (fs : filesystem) :
  fix_all escapes (c :: rest) k fs =
  if startswith c "hanzo-" then
    match fs c with
    | Some (Dir (Some original) saved) =>
        match fixed_content escapes original with
        | Ok content =>
            if String.eqb content original then fix_all escapes rest k fs
            else fix_all escapes rest (k + 1)
                   (put fs c (Dir (Some content) saved))
        | Raise e => (fs, Raise e)
        end
    | _ => fix_all escapes rest k fs
    end
  else fix_all escapes rest k fs.
Proof.
  cbn [fix_all]. destruct (startswith c "hanzo-"); [|reflexivity].
  cbn [negb]. st_unfold. cbn beta.
  destruct (fs c) as [[[original|] saved]|] eqn:E; try reflexivity.
  cbn [negb]. rewrite fix_cargo_toml_eq, E.
  destruct (fixed_content escapes original); [|reflexivity].
  destruct (String.eqb a original); reflexivity.
Qed.

(** The loop writes into no directory but those of the listed names that
    start with [hanzo-], makes and removes none, and leaves every backup
    alone. *)
Lemma fix_all_scope (listing : list string) :
  forall (fs : filesystem) (k : nat),
    let fs' := fst (fix_all escapes listing k fs) in
    (forall c, startswith c "hanzo-" = false \/ ~ In c listing -> fs' c = fs c) /\
    (forall c, option_map backup (fs' c) = option_map backup (fs c)).
Proof.
  induction listing as [|c rest IH]; intros fs k; cbv zeta.
  - cbn. split; reflexivity.
  - rewrite fix_all_cons.
    assert (Hrest : forall fs0 k0,
      (forall x, startswith x "hanzo-" = false \/ ~ In x (c :: rest) ->
                 fst (fix_all escapes rest k0 fs0) x = fs0 x) /\
      (forall x, option_map backup (fst (fix_all escapes rest k0 fs0) x)
                 = option_map backup (fs0 x))).
    { intros fs0 k0. destruct (IH fs0 k0) as [H1 H2]. split; [|exact H2].
      intros x [Hx|Hx]; apply H1; [now left|right]. intros Hin. apply Hx.
      now right. }
    destruct (startswith c "hanzo-") eqn:Eh; [|apply Hrest].
    destruct (fs c) as [[[original|] saved]|] eqn:E; try apply Hrest.
    destruct (fixed_content escapes original) as [content|e];
      [|split; reflexivity].
    destruct (String.eqb content original); [apply Hrest|].
    destruct (Hrest (put fs c (Dir (Some content) saved)) (k + 1)) as [H1 H2].
    split.
    + intros x Hx. rewrite H1 by exact Hx. apply put_other.
      intros ->. destruct Hx as [Hx|Hx]; [congruence|].
      apply Hx. now left.
    + intros x. rewrite H2. unfold put.
      destruct (String.eqb x c) eqn:Ex; [|reflexivity].
      apply String.eqb_eq in Ex. subst x. now rewrite E.
Qed.

Lemma changes_ext (fs fs' : filesystem) c :
  fs' c = fs c -> changes escapes fs' c = changes escapes fs c.
Proof. intros H. unfold changes. now rewrite H. Qed.

(** When the names of the listing are distinct and the loop returns, the
    count is that of the manifests changed and every listed manifest is the
    fixed one. *)
Lemma fix_all_spec (listing : list string) :
  NoDup listing ->
  forall (fs fs' : filesystem) (k n : nat),
    fix_all escapes listing k fs = (fs', Ok n) ->
    n = k + List.length (filter (changes escapes fs) listing) /\
    forall c, In c listing ->
      fs' c = if startswith c "hanzo-"
              then option_map (fixed_dir escapes) (fs c) else fs c.
Proof.
  induction 1 as [|c rest Hnotin Hnd IH]; intros fs fs' k n Hrun.
  - cbn in Hrun. injection Hrun as <- <-. cbn. split; [lia|contradiction].
  - rewrite fix_all_cons in Hrun.
    assert (Hkeep : fix_all escapes rest k fs = (fs', Ok n) ->
                    changes escapes fs c = false ->
                    (if startswith c "hanzo-"
                     then option_map (fixed_dir escapes) (fs c) else fs c) = fs c ->
                    n = k + List.length (filter (changes escapes fs) (c :: rest)) /\
                    forall x, In x (c :: rest) ->
                      fs' x = if startswith x "hanzo-"
                              then option_map (fixed_dir escapes) (fs x) else fs x).
    { intros Hr Hc Hsame. destruct (IH _ _ _ _ Hr) as [Hn Hfs].
      cbn [filter]. rewrite Hc. split; [exact Hn|].
      intros x [<-|Hx]; [|now apply Hfs].
      rewrite Hsame.
      pose proof (fix_all_scope rest fs k) as [Hsc _]. rewrite Hr in Hsc.
      apply Hsc. now right. }
    unfold changes in Hkeep.
    destruct (startswith c "hanzo-") eqn:Eh; [|apply Hkeep; auto].
    destruct (fs c) as [[[original|] saved]|] eqn:E;
      try (apply Hkeep; auto; fail).
    cbn [andb option_map fixed_dir] in *.
    destruct (fixed_content escapes original) as [content|e] eqn:Ef;
      [|discriminate].
    destruct (String.eqb content original) eqn:Eq.
    + apply Hkeep; auto. apply String.eqb_eq in Eq. now subst content.
    + destruct (IH _ _ _ _ Hrun) as [Hn Hfs].
      assert (Hsame : forall x, In x rest ->
                put fs c (Dir (Some content) saved) x = fs x).
      { intros x Hx. apply put_other. intros ->. contradiction. }
      split.
      * cbn [filter]. unfold changes at 1. rewrite Eh, E, Ef, Eq. cbn.
        rewrite Hn. rewrite (filter_ext_in _ (changes escapes fs)).
        -- lia.
        -- intros x Hx. apply changes_ext, Hsame, Hx.
      * intros x [<-|Hx].
        -- rewrite Eh, E. cbn. rewrite Ef.
           pose proof (fix_all_scope rest (put fs c (Dir (Some content) saved))
                         (k + 1)) as [Hsc _].
           rewrite Hrun in Hsc. cbn [fst] in Hsc.
           rewrite Hsc by now right. apply put_same.
        -- rewrite Hfs by exact Hx. now rewrite (Hsame x Hx).
Qed.

End Fix.
End FixAllFacts.

(* ================================================================== *)
(** ** The metadata pass and the declarations passed over *)
(* ================================================================== *)

Module MetaFacts.
Import Py Toml Props MetaProps StringFacts DictFacts EntryFacts PassFacts
       ResolveFacts ComposeFacts TrackFacts.
Import Improved.

Lemma fix_metadata_field_get f g p :
  get g (fix_metadata_field f p) =
  if String.eqb g f then uninherit f (get f p) else get g p.
Proof.
  unfold fix_metadata_field, uninherit.
  destruct (String.eqb g f) eqn:E.
  - apply String.eqb_eq in E. subst g.
    destruct (get f p) as [[| | | |d]|] eqn:Ef; try exact Ef.
    destruct (workspace_true d); [apply get_set_same|exact Ef].
  - apply String.eqb_neq in E.
    destruct (get f p) as [[| | | |d]|]; try reflexivity.
    destruct (workspace_true d); [now apply get_set_other|reflexivity].
Qed.

Lemma fold_fields_get (l : list string) :
  NoDup l ->
  forall p g,
    get g (fold_left (fun p f => fix_metadata_field f p) l p) =
    if existsb (String.eqb g) l then uninherit g (get g p) else get g p.
Proof.
  induction 1 as [|f l Hnotin Hnd IH]; intros p g; [reflexivity|].
  cbn [fold_left existsb]. rewrite IH, fix_metadata_field_get.
  destruct (String.eqb g f) eqn:E; cbn [orb]; [|reflexivity].
  apply String.eqb_eq in E. subst g.
  assert (Hl : existsb (String.eqb f) l = false).
  { destruct (existsb (String.eqb f) l) eqn:Ex; [|reflexivity].
    apply existsb_exists in Ex. destruct Ex as (x & Hx & Hfx).
    apply String.eqb_eq in Hfx. subst x. contradiction. }
  now rewrite Hl.
Qed.

Lemma fix_description_get g p :
  get g (fix_description p) =
  if String.eqb g "description" then described (get "description" p)
  else get g p.
Proof.
  unfold fix_description, described.
  destruct (String.eqb g "description") eqn:E.
  - apply String.eqb_eq in E. subst g.
    destruct (get "description" p) as [v|] eqn:Ed.
    + destruct (truthy v); [exact Ed|apply get_set_same].
    + apply get_set_same.
  - apply String.eqb_neq in E.
    destruct (get "description" p) as [v|].
    + destruct (truthy v); [reflexivity|now apply get_set_other].
    + now apply get_set_other.
Qed.

Lemma metadata_fields_nodup : NoDup METADATA_FIELDS.
Proof.
  unfold METADATA_FIELDS.
  repeat (constructor; [simpl; intuition discriminate|]). constructor.
Qed.

(** The package table after the metadata pass, field by field. *)
Lemma metadata_get g p :
  get g (metadata p) =
  if String.eqb g "description" then described (get "description" p)
  else if existsb (String.eqb g) METADATA_FIELDS then uninherit g (get g p)
  else get g p.
Proof.
  unfold metadata. rewrite fix_description_get.
  rewrite !(fold_fields_get _ metadata_fields_nodup).
  destruct (String.eqb g "description") eqn:E; [|reflexivity].
  reflexivity.
Qed.

(** The package table of the resolved document is the one the metadata
    pass made. *)
Lemma resolve_package data data' :
  resolve data = Ok data' ->
  match get "package" data with
  | Some (VDict p) => get "package" data' = Some (VDict (metadata p))
  | None => get "package" data' = None
  | Some _ => False
  end.
Proof.
  intros H. destruct (resolve_inv _ _ H)
    as (d1 & d3 & d4 & d5 & d6 & H1 & H3 & H4 & H5 & H6 & H7).
  pose proof (fix_inline_tables_rewritten _ _ H4) as R4.
  pose proof (fix_reqwest_rewritten _ _ H5) as R5.
  pose proof (fix_chrono_rewritten _ _ H6) as R6.
  pose proof (fix_nalgebra_rewritten _ _ H7) as R7.
  assert (Hget : get "package" data' = get "package" d1).
  { rewrite (rewritten_get _ _ _ _ _ R7) by not_a_section.
    rewrite (rewritten_get _ _ _ _ _ R6) by not_a_section.
    rewrite (rewritten_get _ _ _ _ _ R5) by not_a_section.
    rewrite (rewritten_get _ _ _ _ _ R4) by not_a_section.
    rewrite (tables_get _ _ "package" H3) by (reflexivity || discriminate).
    now rewrite add_workspace_table_get by discriminate. }
  rewrite Hget. apply fix_package_inv in H1.
  destruct (get "package" data) as [[| | | |p]|] eqn:E; try contradiction.
  - subst d1. apply get_set_same.
  - now subst d1.
Qed.

Lemma resolve_entry_untouched section name v :
  inline_fixed v = true ->
  (if String.eqb name "reqwest"
   then match v with
        | VDict d => negb (has "features" d)
        | VStr _ => false
        | _ => true
        end
   else if String.eqb name "chrono" || String.eqb name "nalgebra"
        then String.eqb section "build-dependencies"
             || match v with VStr _ | VDict _ => false | _ => true end
        else true) = true ->
  resolve_entry section name v = Ok v.
Proof.
  intros Hfix Hcase. unfold resolve_entry.
  rewrite (inline_fixed_id name v Hfix). cbn [Py.bind].
  destruct (String.eqb name "reqwest") eqn:Er.
  - apply String.eqb_eq in Er. subst name. cbn.
    destruct v as [s| | | |d]; try discriminate; try reflexivity.
    cbn. unfold has in Hcase.
    destruct (Dict.get "features" d); [discriminate|reflexivity].
  - cbn [Py.bind].
    destruct (String.eqb name "chrono") eqn:Ec;
      destruct (String.eqb name "nalgebra") eqn:En; cbn [orb andb] in *.
    + apply String.eqb_eq in Ec, En. congruence.
    + apply orb_true_iff in Hcase. destruct Hcase as [->|Hv]; [reflexivity|].
      destruct (String.eqb section "build-dependencies"); [reflexivity|].
      cbn. destruct v; try discriminate; reflexivity.
    + apply orb_true_iff in Hcase. destruct Hcase as [->|Hv]; [reflexivity|].
      destruct (String.eqb section "build-dependencies"); [reflexivity|].
      cbn. destruct v; try discriminate; reflexivity.
    + reflexivity.
Qed.

End MetaFacts.

(* ================================================================== *)
(** ** fix-all-cargo-tomls.py: a dependency it has no version for *)
(* ================================================================== *)

Module StripFacts.
Import Py Re St Os Scan StripProps StringFacts ReplaceFacts ReFacts ScanFacts.
Import FixAll.

(** A greedy star of a class reads a text of the class to its end when
    what follows goes on from there. *)
Lemma star_class_all {X} (p : ascii -> bool) (n : string) :
  all_of p n = true ->
  forall (t : string) (g : option string)
         (k : string -> option string -> option X) (x : X),
    exec (Star (Class p)) t g k = Some x ->
    exec (Star (Class p)) (n ++ t) g k = Some x.
Proof.
  induction n as [|c n IH]; intros Hall t g k x Hx; [exact Hx|].
  cbn [all_of] in Hall. apply andb_true_iff in Hall. destruct Hall as [Hc Hn].
  specialize (IH Hn t g k x Hx).
  cbn [append]. cbn [exec String.length]. cbn [exec] in IH.
  rewrite Hc.
  assert (Hlt : (String.length (n ++ t) <? S (String.length (n ++ t)))%nat = true)
    by (apply Nat.ltb_lt; lia).
  rewrite Hlt. rewrite IH. reflexivity.
Qed.

(** A text that holds no character [sep] and begins a text with a [sep]
    in it ends before the [sep]. *)
Lemma prefix_before_sep (key : string) (sep : ascii) :
  all_of (fun c => negb (Ascii.eqb c sep)) key = true ->
  forall (n t : string),
    prefix key (n ++ String sep t) = true -> prefix key n = true.
Proof.
  induction key as [|a key IH]; intros Hall n t H; [apply prefix_empty|].
  cbn [all_of] in Hall. apply andb_true_iff in Hall. destruct Hall as [Ha Hk].
  destruct n as [|c n].
  - cbn [append] in H. rewrite prefix_cons in H.
    apply andb_true_iff in H. destruct H as [H _].
    rewrite H in Ha. discriminate.
  - cbn [append] in H. rewrite prefix_cons in *.
    apply andb_true_iff in H. destruct H as [H1 H2]. rewrite H1. simpl.
    eapply IH; eassumption.
Qed.

(** A pattern that begins with a literal matches only where the literal
    is. *)
Lemma match_at_lit_first key r (s : string) :
  prefix key s = false -> match_at (Cat (Lit key) r) s = None.
Proof. intros H. unfold match_at. cbn [exec]. now rewrite H. Qed.

(** The substitution passes over a part of the text in which the pattern
    matches nowhere. *)
Lemma sub_pass_over r repl (n t : string) :
  (forall n', is_suffix n' n -> n' <> "" -> match_at r (n' ++ t) = None) ->
  sub r repl (n ++ t) = n ++ sub r repl t.
Proof.
  induction n as [|c n IH]; intros H; [reflexivity|].
  cbn [append]. rewrite sub_no_match.
  - f_equal. apply IH. intros n' Hs Hn. apply H; [|exact Hn].
    eapply is_suffix_trans; [exact Hs|apply is_suffix_tail].
  - apply (H (String c n)); [apply is_suffix_refl|discriminate].
Qed.

(** A word without the key, followed by a blank: no pattern that begins
    with the key matches in the word. *)
Lemma sub_key_pass_over key r repl (n t : string) :
  all_of (fun c => negb (Ascii.eqb c " ")) key = true ->
  contains key n = false ->
  sub (Cat (Lit key) r) repl (n ++ String " " t)
  = n ++ sub (Cat (Lit key) r) repl (String " " t).
Proof.
  intros Hkey Hc. apply sub_pass_over. intros n' Hs Hn.
  apply match_at_lit_first.
  destruct (prefix key (n' ++ String " " t)) eqn:E; [|reflexivity].
  apply (prefix_before_sep key " " Hkey) in E.
  apply contains_of_prefix in E.
  rewrite (contains_suffix _ _ _ Hs E) in Hc. discriminate.
Qed.

(** A text of word characters holds no package header. *)
Lemma contains_after_words (needle : string) (a : ascii) (n t : string) :
  word a = false -> all_of word n = true ->
  contains (String a needle) (n ++ t) = contains (String a needle) t.
Proof.
  intros Ha. induction n as [|c n IH]; intros Hall; [reflexivity|].
  cbn [all_of] in Hall. apply andb_true_iff in Hall. destruct Hall as [Hc Hn].
  cbn [append]. rewrite contains_eq, prefix_cons.
  destruct (Ascii.eqb a c) eqn:E.
  - apply Ascii.eqb_eq in E. subst c. congruence.
  - cbn [andb]. apply IH, Hn.
Qed.

Lemma exec_group {X} a (s : string) g (k : string -> option string -> option X) :
  exec (Group a) s g k
  = exec a s g (fun s' _ => k s' (Some (take (String.length s - String.length s') s))).
Proof. reflexivity. Qed.

Lemma exec_class_cons {X} p c (t : string) g
      (k : string -> option string -> option X) :
  exec (Class p) (String c t) g k = if p c then k t g else None.
Proof. reflexivity. Qed.

(** The declaration behind a name, read by the pattern from where the
    name ends; [s] is the whole subject. *)
Lemma inherited_dep_behind_name (s : string) :
  exec (Star (Class word)) (decl ++ nl) None
    (fun s1 g1 =>
       exec (Star (Cat (Lit "-") (Plus (Class word)))) s1 g1
         (fun s' _ =>
            exec dep_rest s'
              (Some (take (String.length s - String.length s') s))
              (fun s2 g2 =>
                 Some (take (String.length s - String.length s2) s, g2, s2))))
  = Some (take (String.length s - String.length nl) s,
          Some (take (String.length s - String.length (decl ++ nl)) s),
          nl).
Proof. reflexivity. Qed.

(** The pattern of an inherited dependency matches the whole declaration
    of a name of word characters, and group 1 is the name. *)
Lemma inherited_dep_at_name (c : ascii) (n : string) :
  all_of word (String c n) = true ->
  match_at Automated.inherited_dep (String c n ++ decl ++ nl)
  = Some (String c n ++ decl, Some (String c n), nl).
Proof.
  intros Hall. cbn [all_of] in Hall. apply andb_true_iff in Hall.
  destruct Hall as [Hc Hn].
  remember (String c n ++ decl ++ nl) as s eqn:Es.
  unfold match_at.
  change Automated.inherited_dep
    with (Cat (Group (Cat (Cat (Class word) (Star (Class word)))
                          (Star (Cat (Lit "-") (Plus (Class word))))))
              dep_rest).
  rewrite exec_cat, exec_group, !exec_cat.
  rewrite Es at 1. cbn [append]. rewrite exec_class_cons, Hc.
  rewrite (star_class_all word n Hn (decl ++ nl) None _ _
             (inherited_dep_behind_name s)).
  assert (E1 : take (String.length s - String.length nl) s
               = String c n ++ decl).
  { rewrite Es, <- app_assoc, length_app, Nat.add_sub. apply take_app_length. }
  assert (E2 : take (String.length s - String.length (decl ++ nl)) s
               = String c n).
  { rewrite Es, length_app, Nat.add_sub. apply take_app_length. }
  now rewrite E1, E2.
Qed.

Lemma words_no_hyphen (n : string) :
  all_of word n = true -> replace "-" "_" n = n.
Proof.
  intros H. apply replace_absent; [discriminate|].
  rewrite <- (app_empty_r n). now rewrite contains_after_words.
Qed.

Lemma get_of_has {V} k (d : Dict.t V) : Dict.has k d = false -> Dict.get k d = None.
Proof. unfold Dict.has. destruct (Dict.get k d); [discriminate|reflexivity]. Qed.

(** The pass of the dependencies keeps the declaration of a name that is
    in no table. *)
Lemma sub_dep_unknown (c : ascii) (n : string) :
  all_of word (String c n) = true ->
  Dict.has (String c n) PUBLISHED_HANZO = false ->
  Dict.has (String c n) DEPS = false ->
  sub Automated.inherited_dep replace_workspace_dep_match
      (inherited_line (String c n)) = inherited_line (String c n).
Proof.
  intros Hw Hpub Hdeps. unfold inherited_line.
  change (" = { workspace = true }" ++ nl) with (decl ++ nl).
  rewrite (sub_at_match _ _ _ _ _ _ (inherited_dep_at_name c n Hw));
    [|discriminate].
  assert (E : drop (String.length (String c n ++ decl))
                   (String c n ++ decl ++ nl) = nl).
  { rewrite <- (app_assoc (String c n)). apply drop_app_length. }
  rewrite E. cbn [replace_workspace_dep_match]. unfold replace_workspace_dep.
  rewrite (words_no_hyphen _ Hw), (get_of_has _ _ Hpub), (get_of_has _ _ Hdeps).
  rewrite app_assoc. reflexivity.
Qed.

(** An inherited declaration of an unknown name, alone in a manifest, ends
    as an empty table: the pass of the dependencies keeps it and the last
    substitution takes [workspace = true] out of it. *)
Lemma fixed_content_unknown escapes (name : string) :
  unknown_name name = true ->
  fixed_content escapes (inherited_line name) = Ok (emptied_line name).
Proof.
  unfold unknown_name. intros H.
  repeat (apply andb_true_iff in H; destruct H as [H ?]).
  repeat match goal with
         | Hn : negb _ = true |- _ => apply negb_true_iff in Hn
         end.
  destruct name as [|c n]; [discriminate|].
  set (name := String c n) in *.
  assert (Hw : all_of word name = true) by assumption.
  assert (Hpub : Dict.has name PUBLISHED_HANZO = false) by assumption.
  assert (Hdeps : Dict.has name DEPS = false) by assumption.
  assert (Hs : forall key repl,
             all_of (fun c => negb (Ascii.eqb c " ")) key = true ->
             contains key name = false ->
             sub (Cat (Lit key) field_rest) repl (inherited_line name)
             = name ++ sub (Cat (Lit key) field_rest) repl (decl ++ nl)).
  { intros key repl Hk Hc. apply (sub_key_pass_over key _ repl name _ Hk Hc). }
  unfold fixed_content.
  change (Automated.inherited_field "version")
    with (Cat (Lit "version") field_rest).
  change (Automated.inherited_field "edition")
    with (Cat (Lit "edition") field_rest).
  change (Automated.inherited_field "authors")
    with (Cat (Lit "authors") field_rest).
  rewrite (Hs "version") by (reflexivity || assumption).
  change (name ++ sub (Cat (Lit "version") field_rest) _ (decl ++ nl))
    with (inherited_line name).
  rewrite (Hs "edition") by (reflexivity || assumption).
  change (name ++ sub (Cat (Lit "edition") field_rest) _ (decl ++ nl))
    with (inherited_line name).
  rewrite (Hs "authors") by (reflexivity || assumption).
  change (name ++ sub (Cat (Lit "authors") field_rest) _ (decl ++ nl))
    with (inherited_line name).
  assert (Hp : contains "[package]" (inherited_line name) = false).
  { unfold inherited_line. rewrite contains_after_words; auto. }
  rewrite Hp. cbn [Py.bind].
  assert (Hd : sub Automated.inherited_dep replace_workspace_dep_match
                   (inherited_line name) = inherited_line name)
    by (apply sub_dep_unknown; assumption).
  rewrite Hd. f_equal.
  change workspace_true
    with (Cat (Lit "workspace")
              (seq [ Automated.ws; Lit "="; Automated.ws; Lit "true" ])).
  unfold inherited_line, emptied_line.
  change (" = { workspace = true }" ++ nl)
    with (String " " ("= { workspace = true }" ++ nl)).
  rewrite (sub_key_pass_over "workspace") by (reflexivity || assumption).
  reflexivity.
Qed.

End StripFacts.

(* ================================================================== *)
(** ** publish-hanzo-improved.py: the dotted keys moved into their sections *)
(* ================================================================== *)

Module TableFacts.
Import Py Toml Props TableProps StringFacts DictFacts EntryFacts PassFacts
       ResolveFacts.
Import Improved.

Lemma split_once_join (a b k : string) :
  split_once "."%char k = Some (a, b) -> k = a ++ "." ++ b.
Proof.
  revert a b. induction k as [|c k IH]; intros a b H; [discriminate|].
  cbn [split_once] in H. destruct (Ascii.eqb c ".") eqn:E.
  - apply Ascii.eqb_eq in E. subst c. now injection H as <- <-.
  - destruct (split_once "." k) as [[a' b']|]; [|discriminate].
    injection H as <- <-. cbn [append]. f_equal. now apply IH.
Qed.

(** What one iteration on a dotted key does, with the names and the value
    it moves. *)
Lemma fix_table_key_moves key data data' :
  dotted key = true ->
  fix_table_key key data = Ok data' ->
  exists section dep v0 deps,
    split_once "."%char key = Some (section, dep) /\
    (section = "dependencies" \/ section = "dev-dependencies") /\
    let data1 := if has section data then data
                 else set section (VDict []) data in
    get key data1 = Some v0 /\
    get section (remove key data1) = Some (VDict deps) /\
    data' = set section (VDict (set dep (table_entry dep v0) deps))
                (remove key data1).
Proof.
  intros Hd. unfold fix_table_key. fold (dotted key). rewrite Hd.
  destruct (dotted_split key Hd) as (section & dep & Hsplit & Hsec).
  rewrite Hsplit. cbv zeta.
  set (data1 := if has section data then data else set section (VDict []) data).
  destruct (get key data1) as [v0|] eqn:E0; [|discriminate].
  destruct (get section (remove key data1)) as [[| | | |deps]|] eqn:E;
    try discriminate.
  intros H.
  assert (Hinv : forall (x y : dict), Ok x = Ok y -> x = y)
    by (intros x y Hxy; now injection Hxy).
  apply Hinv in H. subst data'. exists section, dep, v0, deps.
  split; [reflexivity|]. split; [exact Hsec|]. cbv zeta. fold data1.
  split; [exact E0|]. split; [exact E|]. f_equal. f_equal. f_equal.
  unfold table_entry, inline_version, required_feature.
  destruct v0 as [| | | |d]; try reflexivity.
  destruct (workspace_true d); [|reflexivity].
  generalize (lookup dep DEPENDENCY_VERSIONS) as found. intros found.
  destruct found as [ver|]; [|destruct (startswith dep "hanzo_")];
    destruct (String.eqb dep "chrono"); try reflexivity;
    destruct (String.eqb dep "reqwest"); try reflexivity;
    destruct (String.eqb dep "nalgebra"); reflexivity.
Qed.

Lemma dotted_join section dep :
  section = "dependencies" \/ section = "dev-dependencies" ->
  dotted (section ++ "." ++ dep) = true /\
  split_once "."%char (section ++ "." ++ dep) = Some (section, dep).
Proof.
  unfold dotted, startswith.
  intros [->| ->]; (split; [|reflexivity]); apply orb_true_iff.
  - left. apply (prefix_app "dependencies." dep).
  - right. apply (prefix_app "dev-dependencies." dep).
Qed.

(** An iteration on another key leaves a dotted key where it is. *)
Lemma fix_table_key_other key data data' K :
  fix_table_key key data = Ok data' ->
  key <> K -> dotted K = true ->
  get K data' = get K data.
Proof.
  intros H Hne HK. destruct (dotted key) eqn:Hd.
  - destruct (fix_table_key_moves _ _ _ Hd H)
      as (section & dep & v0 & deps & Hsplit & Hsec & _ & _ & ->).
    assert (HKs : K <> section).
    { intros ->. rewrite (section_not_dotted _ Hsec) in HK. discriminate. }
    rewrite get_set_other, get_remove_other by congruence.
    destruct (has section data); [reflexivity|]. now apply get_set_other.
  - rewrite fix_table_key_plain in H by exact Hd. now injection H as <-.
Qed.

(** An iteration on another key leaves a declaration of a section where it
    is. *)
Lemma fix_table_key_dep_of key data data' section dep :
  fix_table_key key data = Ok data' ->
  key <> section ++ "." ++ dep -> dotted section = false ->
  dep_of section dep data' = dep_of section dep data.
Proof.
  intros H Hne Hsd. destruct (dotted key) eqn:Hd.
  - destruct (fix_table_key_moves _ _ _ Hd H)
      as (section0 & dep0 & v0 & deps & Hsplit & Hsec & _ & Hget & ->).
    cbv zeta in Hget.
    assert (Hks : key <> section0).
    { intros ->. rewrite (section_not_dotted _ Hsec) in Hd. discriminate. }
    rewrite get_remove_other in Hget by congruence.
    unfold dep_of. destruct (string_dec section section0) as [->|Hs].
    + rewrite get_set_same.
      rewrite get_set_other
        by (intros ->; apply Hne; now apply split_once_join).
      destruct (has section0 data) eqn:Eh.
      * now rewrite Hget.
      * rewrite get_set_same in Hget. injection Hget as <-.
        apply has_false in Eh. now rewrite Eh.
    + rewrite get_set_other by exact Hs.
      assert (Hsk : section <> key) by congruence.
      rewrite get_remove_other by exact Hsk.
      destruct (has section0 data); [reflexivity|].
      now rewrite get_set_other.
  - rewrite fix_table_key_plain in H by exact Hd. now injection H as <-.
Qed.

(** The iteration on a dotted key puts its value into the section and
    takes the key away. *)
Lemma fix_table_key_lands section dep data data' v :
  section = "dependencies" \/ section = "dev-dependencies" ->
  get (section ++ "." ++ dep) data = Some v ->
  fix_table_key (section ++ "." ++ dep) data = Ok data' ->
  dep_of section dep data' = Some (table_entry dep v) /\
  get (section ++ "." ++ dep) data' = None.
Proof.
  intros Hsec Hv H. destruct (dotted_join section dep Hsec) as [Hd Hsplit].
  destruct (fix_table_key_moves _ _ _ Hd H)
    as (section0 & dep0 & v0 & deps & Hsplit0 & _ & Hget0 & Hget & ->).
  rewrite Hsplit in Hsplit0. injection Hsplit0 as <- <-. cbv zeta in Hget0.
  assert (Hks : section ++ "." ++ dep <> section).
  { intros E. rewrite E in Hd.
    rewrite (section_not_dotted _ Hsec) in Hd. discriminate. }
  assert (Hv0 : v0 = v).
  { destruct (has section data).
    - congruence.
    - rewrite get_set_other in Hget0 by exact Hks. congruence. }
  subst v0. split.
  - unfold dep_of. now rewrite !get_set_same.
  - rewrite get_set_other by exact Hks. apply get_remove_same.
Qed.

Lemma for_each_app {A S} (f : A -> S -> res S) (l1 l2 : list A) (s s' : S) :
  for_each f (l1 ++ l2) s = Ok s' ->
  exists s1, for_each f l1 s = Ok s1 /\ for_each f l2 s1 = Ok s'.
Proof.
  revert s. induction l1 as [|a l1 IH]; intros s H; simpl in *.
  - now exists s.
  - destruct (f a s) as [s0|]; simpl in *; [|discriminate]. now apply IH.
Qed.

Lemma for_each_other (l : list string) K :
  dotted K = true -> ~ In K l ->
  forall data data',
    for_each fix_table_key l data = Ok data' -> get K data' = get K data.
Proof.
  intros HK. induction l as [|a l IH]; intros Hnot data data' H; simpl in H.
  - now injection H as <-.
  - destruct (fix_table_key a data) as [d1|] eqn:Ha; simpl in H; [|discriminate].
    rewrite (IH (fun Hin => Hnot (or_intror Hin)) _ _ H).
    apply (fix_table_key_other _ _ _ K Ha); [|exact HK].
    intros ->. apply Hnot. now left.
Qed.

Lemma for_each_dep_of (l : list string) section dep :
  dotted section = false -> ~ In (section ++ "." ++ dep) l ->
  forall data data',
    for_each fix_table_key l data = Ok data' ->
    dep_of section dep data' = dep_of section dep data.
Proof.
  intros Hs. induction l as [|a l IH]; intros Hnot data data' H; simpl in H.
  - now injection H as <-.
  - destruct (fix_table_key a data) as [d1|] eqn:Ha; simpl in H; [|discriminate].
    rewrite (IH (fun Hin => Hnot (or_intror Hin)) _ _ H).
    apply (fix_table_key_dep_of _ _ _ _ _ Ha); [|exact Hs].
    intros ->. apply Hnot. now left.
Qed.

Lemma get_in_keys {V} k (v : V) d : Dict.get k d = Some v -> In k (Dict.keys d).
Proof. intros H. apply has_in_keys, has_true. eauto. Qed.

(** Every dotted key of a document with distinct keys lands in its
    section. *)
Lemma tables_land data data' section dep v :
  fix_dependencies_table_syntax data = Ok data' ->
  NoDup (keys data) ->
  section = "dependencies" \/ section = "dev-dependencies" ->
  get (section ++ "." ++ dep) data = Some v ->
  dep_of section dep data' = Some (table_entry dep v) /\
  get (section ++ "." ++ dep) data' = None.
Proof.
  unfold fix_dependencies_table_syntax. intros H Hnd Hsec Hv.
  set (K := section ++ "." ++ dep) in *.
  destruct (dotted_join section dep Hsec) as [HK _]. fold K in HK.
  destruct (in_split K (keys data) (get_in_keys _ _ _ Hv)) as (l1 & l2 & Hl).
  rewrite Hl in H, Hnd.
  apply NoDup_remove_2 in Hnd.
  assert (H1 : ~ In K l1) by (intros Hin; apply Hnd, in_or_app; now left).
  assert (H2 : ~ In K l2) by (intros Hin; apply Hnd, in_or_app; now right).
  destruct (for_each_app _ _ _ _ _ H) as (da & Ha & Hb).
  cbn [for_each] in Hb.
  destruct (fix_table_key K da) as [db|] eqn:Hk; simpl in Hb; [|discriminate].
  pose proof (for_each_other l1 K HK H1 _ _ Ha) as Ga.
  rewrite Hv in Ga.
  destruct (fix_table_key_lands section dep da db v Hsec Ga Hk) as [L1 L2].
  split.
  - rewrite (for_each_dep_of l2 section dep (section_not_dotted _ Hsec) H2 _ _ Hb).
    exact L1.
  - fold K. rewrite (for_each_other l2 K HK H2 _ _ Hb). exact L2.
Qed.

End TableFacts.

(* ================================================================== *)
(** ** publish-hanzo-automated.py: the text of one declaration *)
(* ================================================================== *)

Module AutoFacts.
Import Py Re St Os Scan StripProps AutoProps StringFacts ReplaceFacts ReFacts
       ScanFacts StripFacts.

(** *** Steps of the matcher *)

Lemma exec_lit_ok {X} l (s : string) g (k : string -> option string -> option X) :
  prefix l s = true ->
  exec (Lit l) s g k = k (drop (String.length l) s) g.
Proof. intros H. cbn [exec]. now rewrite H. Qed.

(** A greedy star of a class stops before a character that is not of the
    class. *)
Lemma exec_star_stop {X} p c (t : string) g
      (k : string -> option string -> option X) :
  p c = false ->
  exec (Star (Class p)) (String c t) g k = k (String c t) g.
Proof. intros H. cbn [exec String.length]. now rewrite H. Qed.

(** It reads a character of the class when the match goes on behind
    it. *)
Lemma exec_star_step {X} p c (t : string) g
      (k : string -> option string -> option X) x :
  p c = true ->
  exec (Star (Class p)) t g k = Some x ->
  exec (Star (Class p)) (String c t) g k = Some x.
Proof.
  intros Hc H.
  apply (star_class_all p (String c "")); [cbn; now rewrite Hc|exact H].
Qed.

(** A starred expression that begins with a literal stops where the
    literal is not. *)
Lemma exec_star_lit_stop {X} l r (s : string) g
      (k : string -> option string -> option X) :
  prefix l s = false ->
  exec (Star (Cat (Lit l) r)) s g k = k s g.
Proof.
  intros H. cbn [exec]. destruct (String.length s); [reflexivity|].
  now rewrite H.
Qed.

(** A lazy star of the dot reads up to the first closing brace of the
    line. *)
Lemma lazy_star_until {X} (m t : string) g
      (k : string -> option string -> option X) x :
  all_of (fun c => dot c && negb (Ascii.eqb c "}")) m = true ->
  k t g = Some x ->
  exec (LazyStar (Class dot)) (m ++ String "}" t) g
       (fun s g' => exec (Lit "}") s g' k)
  = Some x.
Proof.
  intros Hall Hk. induction m as [|c m IH].
  - cbn [append exec String.length].
    rewrite (prefix_app "}" t : prefix "}" (String "}" t) = true).
    cbn [drop String.length]. now rewrite Hk.
  - cbn [all_of] in Hall. apply andb_true_iff in Hall. destruct Hall as [Hc Hm].
    apply andb_true_iff in Hc. destruct Hc as [Hd Hb].
    specialize (IH Hm). cbn [append]. cbn [exec String.length].
    cbn [exec] in IH.
    assert (Hp : prefix "}" (String c (m ++ String "}" t)) = false).
    { cbn [prefix]. destruct (ascii_dec "}" c) as [<-|]; [discriminate|reflexivity]. }
    rewrite Hp, Hd.
    assert (Hlt : (String.length (m ++ String "}" t)
                   <? S (String.length (m ++ String "}" t)))%nat = true)
      by (apply Nat.ltb_lt; lia).
    rewrite Hlt. exact IH.
Qed.

Lemma exec_lit_app {X} l (t : string) g (k : string -> option string -> option X) :
  exec (Lit l) (l ++ t) g k = k t g.
Proof. cbn [exec]. now rewrite prefix_app, drop_app_length. Qed.

Lemma inline_dot m :
  inline m = true ->
  all_of (fun c => dot c && negb (Ascii.eqb c "}")) m = true.
Proof.
  unfold inline. induction m as [|c m IH]; [reflexivity|].
  cbn [all_of]. intros H. apply andb_true_iff in H. destruct H as [Hc Hm].
  rewrite (IH Hm), andb_true_r.
  apply andb_true_iff in Hc. destruct Hc as [Hc Hb].
  apply andb_true_iff in Hc. destruct Hc as [Hd _].
  now rewrite Hd, Hb.
Qed.

Ltac step :=
  first [ rewrite exec_cat
        | rewrite exec_star_stop by reflexivity
        | rewrite exec_lit_ok by reflexivity; cbn [drop]
        | apply exec_star_step; [reflexivity|] ]; cbv beta.

(** Continuations that agree give the same match. *)
Lemma exec_ext {X} (r : regex) :
  forall (s : string) (g : option string)
         (k1 k2 : string -> option string -> option X),
    (forall s' g', k1 s' g' = k2 s' g') ->
    exec r s g k1 = exec r s g k2.
Proof.
  induction r as [l|p|a IHa b IHb|a IHa|a IHa|a IHa]; intros s g k1 k2 H;
    cbn [exec].
  - destruct (prefix l s); [apply H|reflexivity].
  - destruct s as [|c t]; [reflexivity|]. destruct (p c); [apply H|reflexivity].
  - apply IHa. intros s' g'. apply IHb, H.
  - generalize (String.length s) as n. intros n. revert s g.
    induction n as [|n IHn]; intros s g; [apply H|].
    rewrite (IHa s g _ (fun s' g' =>
               if (String.length s' <? String.length s)%nat
               then (fix loop (n : nat) (s : string) (g : option string) :=
                       match n with
                       | O => k2 s g
                       | S n' =>
                           match exec a s g (fun s' g' =>
                                   if (String.length s' <? String.length s)%nat
                                   then loop n' s' g' else None) with
                           | Some x => Some x
                           | None => k2 s g
                           end
                       end) n s' g'
               else None)).
    + now rewrite H.
    + intros s' g'. destruct (String.length s' <? String.length s)%nat;
        [apply IHn|reflexivity].
  - generalize (String.length s) as n. intros n. revert s g.
    induction n as [|n IHn]; intros s g; [apply H|].
    rewrite H. destruct (k2 s g); [reflexivity|].
    apply IHa. intros s' g'.
    destruct (String.length s' <? String.length s)%nat; [apply IHn|reflexivity].
  - apply IHa. intros s' g'. apply H.
Qed.

(** A greedy star runs its loop with as many iterations as the subject
    has characters. *)
Lemma exec_star_loop {X} (a : regex) (k : string -> option string -> option X)
      (s : string) (g : option string) :
  exec (Star a) s g k = star_loop a k (String.length s) s g.
Proof.
  cbn [exec]. generalize (String.length s) as n. intros n. revert s g.
  induction n as [|n IHn]; intros s g; [reflexivity|].
  cbn [star_loop].
  rewrite (exec_ext a s g _ (fun s' g' =>
             if (String.length s' <? String.length s)%nat
             then star_loop a k n s' g' else None)); [reflexivity|].
  intros s' g'. destruct (String.length s' <? String.length s)%nat;
    [apply IHn|reflexivity].
Qed.

(** What is behind the name is read by the rest of the pattern: the match
    ends behind the first closing brace. *)
Lemma dep_rest_reads {X} (m : string) (g : option string)
      (K : string -> option string -> option X) (x : X) :
  inline m = true ->
  K nl g = Some x ->
  exec dep_rest (" = { workspace = true" ++ m ++ "}" ++ nl) g K = Some x.
Proof.
  intros Hm HK. cbn [append].
  unfold dep_rest, Automated.ws. cbn [seq].
  repeat step.
  change (String "t" (String "r" (String "u" (String "e" (m ++ String "}" nl)))))
    with ("true" ++ m ++ String "}" nl).
  rewrite (exec_lit_app "true"). cbv beta. rewrite exec_cat.
  apply lazy_star_until; [now apply inline_dot|exact HK].
Qed.

(** The words and hyphens of a name are read to the end of the name:
    the star of the word characters and, behind it, the loop of the
    hyphenated words, whatever iterations it has left. *)
Lemma name_read {X} (d : string) (g : option string)
      (K : string -> option string -> option X) (x : X) :
  prefix " " d = true ->
  K d g = Some x ->
  forall (n : string) (k : string -> option string -> option X),
    words_from true n = true ->
    (forall t, String.length t <= String.length (n ++ d) ->
               exists f, String.length t <= f /\
                         k t g = star_loop (Cat (Lit "-") (Plus (Class word)))
                                           K f t g) ->
    exec (Star (Class word)) (n ++ d) g k = Some x.
Proof.
  intros Hd HK.
  destruct d as [|b d']; [discriminate|].
  assert (Hb : b = " "%char).
  { cbn [prefix] in Hd. destruct (ascii_dec " " b); [auto|discriminate]. }
  subst b.
  assert (Hstop : forall f, star_loop (Cat (Lit "-") (Plus (Class word))) K f
                              (String " " d') g = Some x).
  { intros [|f]; [exact HK|]. cbn [star_loop exec]. cbn. exact HK. }
  intros n. remember (String.length n) as len eqn:Hlen.
  revert n Hlen. induction len as [len IH] using lt_wf_ind.
  intros n Hlen k Hn Hk. destruct n as [|c n].
  - cbn [append]. rewrite exec_star_stop by reflexivity.
    destruct (Hk (String " " d')) as (f & _ & ->); [cbn; lia|]. apply Hstop.
  - cbn [words_from] in Hn. destruct (word c) eqn:Hc.
    + cbn [append]. apply exec_star_step; [exact Hc|].
      apply (IH (String.length n)); [subst len; cbn; lia|reflexivity|exact Hn|].
      intros t Ht. apply Hk. cbn [append String.length]. lia.
    + apply andb_true_iff in Hn. destruct Hn as [Hn Hrest].
      apply andb_true_iff in Hn. destruct Hn as [Hh _].
      apply Ascii.eqb_eq in Hh. subst c.
      destruct n as [|c2 n]; [discriminate|].
      cbn [words_from] in Hrest. destruct (word c2) eqn:Hc2;
        [|rewrite andb_false_r in Hrest; discriminate].
      cbn [append]. rewrite exec_star_stop by reflexivity.
      destruct (Hk (String "-" (String c2 (n ++ String " " d'))))
        as (f & Hf & ->); [cbn; lia|].
      cbn [String.length] in Hf. destruct f as [|f]; [lia|].
      cbn [star_loop]. unfold Plus at 1.
      set (L := String.length (String "-" (String c2 (n ++ String " " d')))).
      rewrite !exec_cat. rewrite exec_lit_ok by reflexivity. cbv beta.
      cbn [drop String.length].
      rewrite exec_cat, exec_class_cons, Hc2.
      assert (E : exec (Star (Class word)) (n ++ String " " d') g
                    (fun s' g' =>
                       if (String.length s' <? L)%nat
                       then star_loop (Cat (Lit "-") (Plus (Class word))) K f s' g'
                       else None) = Some x).
      { apply (IH (String.length n));
          [subst len; cbn; lia|reflexivity|exact Hrest|].
        intros t Ht. exists f. split; [lia|].
        assert (Hlt : (String.length t <? L)%nat = true)
          by (apply Nat.ltb_lt; unfold L; cbn [String.length]; lia).
        now rewrite Hlt. }
      cbn [append] in E |- *. now rewrite E.
Qed.

Lemma decl_assoc (name m : string) :
  inherited_decl name m ++ nl
  = name ++ " = { workspace = true" ++ m ++ "}" ++ nl.
Proof. unfold inherited_decl. now rewrite !app_assoc. Qed.

(** The pattern of an inherited dependency matches the whole declaration
    of a name of words and hyphens, and group 1 is the name. *)
Lemma inherited_dep_at_decl (name m : string) :
  words_from false name = true ->
  inline m = true ->
  match_at Automated.inherited_dep (inherited_decl name m ++ nl)
  = Some (inherited_decl name m, Some name, nl).
Proof.
  intros Hall Hm. destruct name as [|c n]; [discriminate|].
  cbn [words_from] in Hall.
  destruct (word c) eqn:Hc;
    [|apply andb_true_iff in Hall; destruct Hall as [Hall _];
      rewrite andb_false_r in Hall; discriminate].
  rewrite decl_assoc.
  set (d := " = { workspace = true" ++ m ++ "}" ++ nl).
  remember (String c n ++ d) as s eqn:Es.
  unfold match_at.
  change Automated.inherited_dep
    with (Cat (Group (Cat (Cat (Class word) (Star (Class word)))
                          (Star (Cat (Lit "-") (Plus (Class word))))))
              dep_rest).
  rewrite exec_cat, exec_group, !exec_cat.
  rewrite Es at 1. cbn [append]. rewrite exec_class_cons, Hc.
  assert (E1 : take (String.length s - String.length nl) s
               = inherited_decl (String c n) m).
  { rewrite Es. unfold d, inherited_decl.
    rewrite <- !app_assoc, length_app, Nat.add_sub. apply take_app_length. }
  assert (E2 : take (String.length s - String.length d) s = String c n).
  { rewrite Es, length_app, Nat.add_sub. apply take_app_length. }
  apply (name_read d None
           (fun s' _ =>
              exec dep_rest s'
                (Some (take (String.length s - String.length s') s))
                (fun s2 g2 =>
                   Some (take (String.length s - String.length s2) s, g2, s2))));
    [reflexivity| |exact Hall|].
  - apply dep_rest_reads; [exact Hm|]. now rewrite E1, E2.
  - intros t _. exists (String.length t). split; [lia|]. apply exec_star_loop.
Qed.

(** *** Texts without a character *)

Lemma all_of_app p (a b : string) :
  all_of p (a ++ b) = all_of p a && all_of p b.
Proof.
  induction a as [|c a IH]; [reflexivity|].
  cbn [append all_of]. now rewrite IH, andb_assoc.
Qed.

Lemma all_of_weaken (p q : ascii -> bool) (s : string) :
  (forall c, p c = true -> q c = true) ->
  all_of p s = true -> all_of q s = true.
Proof.
  intros H. induction s as [|c s IH]; [reflexivity|].
  cbn [all_of]. intros Hs. apply andb_true_iff in Hs. destruct Hs as [Hc Hs].
  now rewrite (H _ Hc), IH.
Qed.

(** A text none of whose characters is [a] does not hold a text that
    begins with [a]. *)
Lemma contains_none a w (s : string) :
  all_of (fun c => negb (Ascii.eqb c a)) s = true ->
  contains (String a w) s = false.
Proof.
  induction s as [|c s IH]; [reflexivity|].
  cbn [all_of]. intros H. apply andb_true_iff in H. destruct H as [Hc Hs].
  rewrite contains_eq, prefix_cons.
  apply negb_true_iff in Hc. rewrite Ascii.eqb_sym in Hc. rewrite Hc.
  cbn [andb]. now apply IH.
Qed.

Lemma contains_skip w c (t : string) :
  prefix w (String c t) = false ->
  contains w (String c t) = contains w t.
Proof. intros H. now rewrite contains_eq, H. Qed.

(** A text that begins where another text begins with it. *)
Lemma prefix_app_r (w a b : string) :
  prefix w a = true -> prefix w (a ++ b) = true.
Proof.
  intros H. destruct (prefix_inv _ _ H) as [r ->].
  rewrite app_assoc. apply prefix_app.
Qed.

(** A text without the character [sep] is found in front of a [sep] only
    where it is found without what follows. *)
Lemma contains_app_sep w (sep : ascii) (a t : string) :
  w <> "" ->
  all_of (fun c => negb (Ascii.eqb c sep)) w = true ->
  contains w (String sep t) = false ->
  contains w (a ++ String sep t) = contains w a.
Proof.
  intros Hw Hall Ht. induction a as [|c a IH].
  - cbn [append]. rewrite Ht. destruct w; [congruence|reflexivity].
  - cbn [append]. rewrite (contains_eq w (String c (a ++ _))),
      (contains_eq w (String c a)), IH.
    destruct (prefix w (String c a)) eqn:E.
    + pose proof (prefix_app_r w (String c a) (String sep t) E) as E2.
      cbn [append] in E2. now rewrite E2.
    + destruct (prefix w (String c (a ++ String sep t))) eqn:E2; [|reflexivity].
      apply (prefix_before_sep w sep Hall (String c a) t) in E2. congruence.
Qed.

(** A word that does not hold [key], followed by a blank: a text that
    begins with [key] begins nowhere in the word. *)
Lemma contains_pass_word key rest (n t : string) :
  all_of (fun c => negb (Ascii.eqb c " ")) key = true ->
  contains key n = false ->
  contains (key ++ rest) (n ++ String " " t)
  = contains (key ++ rest) (String " " t).
Proof.
  intros Hkey. induction n as [|c n IH]; intros Hc; [reflexivity|].
  cbn [append]. rewrite contains_skip.
  - apply IH. eapply contains_tail, Hc.
  - destruct (prefix (key ++ rest) (String c (n ++ String " " t))) eqn:E;
      [|reflexivity].
    assert (Hk : prefix key (String c n ++ String " " t) = true).
    { destruct (prefix_inv _ _ E) as [r Hr]. cbn [append]. rewrite Hr.
      rewrite app_assoc. apply prefix_app. }
    apply (prefix_before_sep key " " Hkey) in Hk.
    apply contains_of_prefix in Hk. congruence.
Qed.

(** *** One inherited declaration *)

Lemma inline_no_open m :
  inline m = true -> all_of (fun c => negb (Ascii.eqb c "{")) m = true.
Proof.
  apply all_of_weaken. intros c H.
  apply andb_true_iff in H. destruct H as [H _].
  apply andb_true_iff in H. now destruct H as [_ H].
Qed.

(** The substitutions of the package fields find nothing in the
    declaration of a name that does not hold their key. *)
Lemma field_pass_decl key repl (name m : string) :
  In key ["version"; "edition"; "authors"] ->
  contains key name = false ->
  inline m = true ->
  sub (Automated.inherited_field key) repl (inherited_decl name m ++ nl)
  = inherited_decl name m ++ nl.
Proof.
  intros Hkey Hc Hm. rewrite decl_assoc.
  assert (Hopen : contains "{" (" workspace = true" ++ m ++ "}" ++ nl) = false).
  { apply contains_none. rewrite !all_of_app, (inline_no_open m Hm). reflexivity. }
  assert (Hrest : forall r,
             key = "version" \/ key = "edition" \/ key = "authors" ->
             sub (Cat (Lit key) field_rest) r
                 (" = { workspace = true" ++ m ++ "}" ++ nl)
             = " = { workspace = true" ++ m ++ "}" ++ nl).
  { intros r Hk. cbn [append].
    rewrite 4 sub_no_match
      by (apply match_at_lit_first;
          destruct Hk as [->|[->| ->]]; reflexivity).
    do 4 f_equal.
    apply (sub_needs "{"); [|exact Hopen].
    destruct Hk as [->|[->| ->]]; reflexivity. }
  assert (Hk : key = "version" \/ key = "edition" \/ key = "authors")
    by (cbn in Hkey; intuition auto).
  change (Automated.inherited_field key) with (Cat (Lit key) field_rest).
  change (" = { workspace = true" ++ m ++ "}" ++ nl)
    with (String " " ("= { workspace = true" ++ m ++ "}" ++ nl)).
  rewrite (sub_key_pass_over key); [|destruct Hk as [->|[->| ->]]; reflexivity|exact Hc].
  f_equal. apply (Hrest repl Hk).
Qed.

(** The declaration has no authors line. *)
Lemma decl_no_authors (name m : string) :
  contains "authors" name = false ->
  contains "authors = " m = false ->
  contains "authors = " (inherited_decl name m ++ nl) = false.
Proof.
  intros Hn Hm. rewrite decl_assoc.
  change (" = { workspace = true" ++ m ++ "}" ++ nl)
    with (String " " ("= { workspace = true" ++ m ++ "}" ++ nl)).
  rewrite (contains_pass_word "authors" " = " name _ eq_refl Hn).
  cbn [append].
  rewrite 21 contains_skip by reflexivity.
  rewrite (contains_app_sep "authors = " "}" m nl); [exact Hm|discriminate| |];
    reflexivity.
Qed.

(** *** The description of a crate name without a backslash *)

Lemma contains_char a (s : string) :
  contains (String a "") s = negb (all_of (fun c => negb (Ascii.eqb c a)) s).
Proof.
  induction s as [|c s IH]; [reflexivity|].
  rewrite contains_eq, prefix_cons, prefix_empty, andb_true_r.
  cbn [all_of]. rewrite IH, (Ascii.eqb_sym c a).
  destruct (Ascii.eqb a c); reflexivity.
Qed.

Lemma no_backslash_iff (s : string) :
  contains "\" s = false <-> no_backslash s = true.
Proof.
  unfold no_backslash. rewrite contains_char.
  destruct (all_of _ s); simpl; split; congruence.
Qed.

Lemma no_backslash_replace old new (s : string) :
  no_backslash new = true -> no_backslash s = true ->
  forall skip, no_backslash (replace_from old new s skip) = true.
Proof.
  intros Hnew. unfold no_backslash in *.
  induction s as [|c s IH]; intros Hs skip; [reflexivity|].
  cbn [all_of] in Hs. apply andb_true_iff in Hs. destruct Hs as [Hc Hs].
  cbn [replace_from]. destruct skip as [|k]; [|now apply IH].
  destruct (prefix old (String c s)).
  - rewrite all_of_app, Hnew. now apply IH.
  - cbn [all_of]. rewrite Hc. now apply IH.
Qed.

Lemma letter_case (c : ascii) :
  is_upper c || is_lower c = true ->
  Ascii.eqb (to_lower c) "\" = false /\ Ascii.eqb (to_upper c) "\" = false.
Proof.
  destruct c as [[] [] [] [] [] [] [] []]; vm_compute; intros H;
    try discriminate; split; reflexivity.
Qed.

Lemma no_backslash_title (s : string) :
  no_backslash s = true ->
  forall after, no_backslash (title_from after s) = true.
Proof.
  unfold no_backslash. induction s as [|c s IH]; intros Hs after; [reflexivity|].
  cbn [all_of] in Hs. apply andb_true_iff in Hs. destruct Hs as [Hc Hs].
  cbn [title_from]. destruct (is_upper c || is_lower c) eqn:E.
  - cbn [all_of]. rewrite (IH Hs). destruct (letter_case c E) as [Hl Hu].
    destruct after; [now rewrite Hl|now rewrite Hu].
  - cbn [all_of]. now rewrite Hc, (IH Hs).
Qed.

Lemma described_plain (crate_name : string) :
  plain_name crate_name = true ->
  contains "\" (Automated.described_name crate_name) = false.
Proof.
  unfold plain_name. intros H. apply negb_true_iff in H.
  apply no_backslash_iff. apply no_backslash_iff in H.
  unfold Automated.described_name, title, replace.
  apply no_backslash_title, no_backslash_replace; [reflexivity|].
  now apply no_backslash_replace.
Qed.

Lemma description_template_plain escapes (crate_name : string) :
  plain_name crate_name = true ->
  Automated.description_template escapes crate_name
  = Ok (after_group1 ("description = " ++ dq
                      ++ Automated.description_of crate_name ++ dq ++ nl)).
Proof.
  intros H. unfold Automated.description_template.
  now rewrite (described_plain _ H).
Qed.

(** With a crate name without a backslash the preparation does not
    raise. *)
Lemma automated_content_plain escapes published (crate_name content : string) :
  plain_name crate_name = true ->
  exists text,
    Automated.fixed_content escapes published crate_name content = Ok text.
Proof.
  intros H. unfold Automated.fixed_content, Automated.add_description.
  rewrite (description_template_plain escapes _ H).
  destruct (contains "description =" _); eexists; reflexivity.
Qed.

Lemma prepares_plain escapes (crate_name content : string) :
  plain_name crate_name = true ->
  prepares escapes crate_name content = true.
Proof.
  intros H. unfold prepares.
  destruct (automated_content_plain escapes [] crate_name content H) as [t ->].
  reflexivity.
Qed.

(** The metadata steps put their lines behind the authors line: without
    one the text stays. *)
Lemma add_after_authors_none key line (content : string) :
  contains "authors = " content = false ->
  Automated.add_after_authors key line content = content.
Proof.
  intros H. unfold Automated.add_after_authors.
  destruct (contains key content); [reflexivity|].
  now apply (sub_needs "authors = ").
Qed.

Lemma add_description_none escapes (crate_name content : string) :
  contains "authors = " content = false ->
  contains "description =" content = true \/ plain_name crate_name = true ->
  Automated.add_description escapes crate_name content = Ok content.
Proof.
  intros Ha H. unfold Automated.add_description.
  destruct (contains "description =" content) eqn:E; [reflexivity|].
  destruct H as [H|H]; [discriminate|].
  rewrite (description_template_plain escapes _ H). cbn [Py.bind].
  f_equal. now apply (sub_needs "authors = ").
Qed.

(** A manifest in which nothing defers to the workspace and that has its
    metadata, or no authors line behind which to put it, is returned as it
    is. *)
Lemma automated_content_explicit escapes published (crate_name content : string) :
  contains "workspace" content = false ->
  (contains "authors = " content = false /\
   (contains "description =" content = true \/ plain_name crate_name = true)) \/
  (contains "license =" content = true /\
   contains "repository =" content = true /\
   contains "homepage =" content = true /\
   contains "description =" content = true) ->
  Automated.fixed_content escapes published crate_name content = Ok content.
Proof.
  intros Hw Hcase.
  unfold Automated.fixed_content.
  assert (E : forall r repl, needs "workspace" r = true ->
                             sub r repl content = content)
    by (intros r repl Hn; now apply (sub_needs "workspace")).
  rewrite !E by reflexivity.
  destruct Hcase as [[Ha Hd]|(Hl & Hr & Hh & Hd)].
  - rewrite (add_after_authors_none "license =" _ _ Ha).
    rewrite (add_after_authors_none "repository =" _ _ Ha).
    rewrite (add_after_authors_none "homepage =" _ _ Ha).
    rewrite (add_description_none escapes _ _ Ha Hd). cbn [Py.bind].
    f_equal. apply E. reflexivity.
  - unfold Automated.add_after_authors, Automated.add_description.
    rewrite Hl, Hr, Hh, Hd. cbn [Py.bind]. f_equal. apply E. reflexivity.
Qed.

(** An inherited declaration, alone in a manifest: the text is what
    [replace_dep] makes of the declaration. *)
Lemma automated_content_decl escapes published (crate_name name m : string) :
  dep_word name = true ->
  inline m = true ->
  contains "authors = " m = false ->
  plain_name crate_name = true ->
  Automated.fixed_content escapes published crate_name
    (inherited_decl name m ++ nl)
  = Ok (Automated.replace_dep published name (inherited_decl name m) ++ nl).
Proof.
  unfold dep_word. intros H Hm Hma Hd.
  repeat (apply andb_true_iff in H; destruct H as [H ?]).
  repeat match goal with
         | Hn : negb _ = true |- _ => apply negb_true_iff in Hn
         end.
  assert (Hw : words_from false name = true) by assumption.
  assert (Hv : contains "version" name = false) by assumption.
  assert (He : contains "edition" name = false) by assumption.
  assert (Ha : contains "authors" name = false) by assumption.
  unfold Automated.fixed_content.
  rewrite (field_pass_decl "version") by (simpl; auto).
  rewrite (field_pass_decl "edition") by (simpl; auto).
  rewrite (field_pass_decl "authors") by (simpl; auto).
  pose proof (decl_no_authors name m Ha Hma) as Hno.
  rewrite (add_after_authors_none "license =" _ _ Hno).
  rewrite (add_after_authors_none "repository =" _ _ Hno).
  rewrite (add_after_authors_none "homepage =" _ _ Hno).
  rewrite (add_description_none escapes _ _ Hno (or_intror Hd)).
  cbn [Py.bind]. f_equal.
  rewrite (sub_at_match _ _ _ _ _ _ (inherited_dep_at_decl name m Hw Hm)).
  2:{ unfold inherited_decl. destruct name; [discriminate|discriminate]. }
  rewrite drop_app_length. reflexivity.
Qed.

(** The three ways of [replace_dep]: a name of the registry, a name of
    the table of versions, a name of neither. *)
Lemma replace_dep_registry published (name whole version : string) :
  Dict.get (replace "-" "_" name) published = Some version ->
  Automated.replace_dep published name whole = formatted name version.
Proof. intros H. unfold Automated.replace_dep, formatted. now rewrite H. Qed.

Lemma replace_dep_table published (name whole version : string) :
  Dict.get (replace "-" "_" name) published = None ->
  Dict.get name Automated.WORKSPACE_DEPS = Some version ->
  Automated.replace_dep published name whole = formatted name version.
Proof.
  intros H1 H2. unfold Automated.replace_dep, formatted. now rewrite H1, H2.
Qed.

Lemma replace_dep_neither published (name whole : string) :
  Dict.get (replace "-" "_" name) published = None ->
  Dict.get name Automated.WORKSPACE_DEPS = None ->
  Automated.replace_dep published name whole = whole.
Proof.
  intros H1 H2. unfold Automated.replace_dep. now rewrite H1, H2.
Qed.

End AutoFacts.

(* ================================================================== *)
(** ** publish-hanzo-improved.py: what becomes of one declaration *)
(* ================================================================== *)

Module DeclFacts.
Import Py Toml Props StringFacts DictFacts EntryFacts FeatureFacts TotalFacts.
Import Improved.





(** What the first pass makes of an inherited declaration holds the
    version and, when there are some, the features, and nothing else. *)
Lemma fix_inline_entry_inherited name d v1 :
  workspace_true d = true ->
  fix_inline_entry name (VDict d) = Ok v1 ->
  exists d1, v1 = VDict d1 /\ workspace_true d1 = false /\
             get "version" d1 = Some (VStr (inline_version name)) /\
             forall k, k <> "version" -> k <> "features" -> get k d1 = None.
Proof.
  intros W H. unfold fix_inline_entry in H. rewrite W in H.
  destruct (add_required_feature name _) as [fs|]; simpl in H; [|discriminate].
  assert (Hother : forall k v (d0 : dict), k <> "version" ->
             get k (("version", v) :: d0) = get k d0).
  { intros k v d0 Hk. unfold get, Dict.get. simpl.
    destruct (String.eqb k "version") eqn:E; [|reflexivity].
    apply String.eqb_eq in E. contradiction. }
  destruct (truthy fs); injection H as <-; eexists;
    (split; [reflexivity|]); (split; [reflexivity|]); (split; [reflexivity|]);
    intros k Hv Hf; rewrite Hother by exact Hv.
  - unfold get, Dict.get. simpl.
    destruct (String.eqb k "features") eqn:E; [|reflexivity].
    apply String.eqb_eq in E. contradiction.
  - reflexivity.
Qed.

(** Of an inherited declaration only the features are carried over. *)
Lemma resolve_entry_inherited s name d v' :
  workspace_true d = true ->
  resolve_entry s name (VDict d) = Ok v' ->
  exists d', v' = VDict d' /\
             get "version" d' = Some (VStr (inline_version name)) /\
             forall k, k <> "version" -> k <> "features" -> get k d' = None.
Proof.
  intros W H. unfold resolve_entry in H.
  destruct (fix_inline_entry name (VDict d)) as [v1|] eqn:H1; simpl in H;
    [|discriminate].
  destruct (fix_inline_entry_inherited name d v1 W H1)
    as (d1 & -> & W1 & Hv & Hk).
  assert (E : resolve_entry s name (VDict d1) = Ok v').
  { unfold resolve_entry, fix_inline_entry. rewrite W1. exact H. }
  destruct (resolve_entry_fields s name d1 v' W1 E) as (d' & -> & Hkeep).
  exists d'. split; [reflexivity|]. split.
  - rewrite Hkeep by discriminate. exact Hv.
  - intros k Hkv Hkf. rewrite Hkeep by exact Hkf. now apply Hk.
Qed.


End DeclFacts.

(* ================================================================== *)
(** ** The properties of the specification *)
(* ================================================================== *)

Module Claims.
Import Py Toml St Os Props StripProps AutoProps.
Import StringFacts RunFacts CrateFacts LoopFacts DictFacts EntryFacts
       PassFacts ResolveFacts ComposeFacts TrackFacts FeatureFacts ReFacts
       AutoFacts DeclFacts.

(** *** The command runner *)

(** C10.  The command runner is total: whatever [subprocess.run] does, it
    returns a pair of a success flag and the output; a completed process
    gives [returncode == 0] and [stdout + stderr], and an exception raised
    while the command is spawned or run gives [False] and the text of the
    exception.  The runner never raises. *)
Theorem run_command_total :
  forall (remote : Type)
         (cargo : remote -> string -> option string
                  -> remote * proc * option string)
         (cmd : command) (w : world remote),
    exists w' success output,
      run_command cargo cmd w = (w', Ok (success, output)) /\
      match subprocess_run cargo cmd w with
      | (w1, Ok (rc, out, err)) =>
          w' = w1 /\ success = Z.eqb rc 0 /\ output = out ++ err
      | (w1, Raise e) =>
          w' = w1 /\ success = false /\ output = exn_str e
      end.
Proof.
  intros remote cargo cmd w.
  unfold run_command, subprocess_run. st_unfold.
  destruct (shell cargo cmd w) as [w1 [rc out err|e]].
  - exists w1, (Z.eqb rc 0), (out ++ err). auto.
  - exists w1, false, (exn_str e). auto.
Qed.

(** *** The classification of a publish *)


(** C3, as stated, fails on publish-hanzo-improved.py: cargo exits with
    101 and says that the version is already uploaded, and [publish_crate]
    returns [False]. *)
Lemma improved_ignores_marker :
  ~ (snd (Improved.publish_crate unit Demo.pqc_again Demo.pqc_loads Demo.toml_dumps
            "hanzo-pqc" Demo.pqc_world) = Ok true
     <-> (fst (answer Demo.already_uploaded) = true \/
          mentions "already uploaded" (snd (answer Demo.already_uploaded)))).
Proof.
  intros [_ H].
  assert (Hm : mentions "already uploaded" (snd (answer Demo.already_uploaded)))
    by (apply marker_test; vm_compute; reflexivity).
  specialize (H (or_intror Hm)). vm_compute in H. discriminate.
Qed.

(** C3, amended.  publish-hanzo-automated.py and
    publish-all-hanzo-crates.py take a publish for done exactly when the
    exit status is zero or the output contains "already uploaded" in any
    case of its letters, and that is what their [publish_crate] returns
    for a crate whose manifest is there (in publish-hanzo-automated.py
    when the manifest could be prepared; when [re] refuses the description
    template, cargo is not run and [publish_crate] returns [False]);
    publish-hanzo-improved.py goes by the exit status alone. *)
Theorem classification_by_script :
  forall (remote : Type)
         (cargo : remote -> string -> option string
                  -> remote * proc * option string)
         (toml_loads : string -> res dict) (toml_dumps : dict -> string)
         (escapes : string -> res (string -> option string -> string)),
    (forall success output,
        Automated.accepted success output = true <->
        success = true \/ mentions "already uploaded" output) /\
    (forall success output,
        AllCrates.accepted success output = true <->
        success = true \/ mentions "already uploaded" output) /\
    (forall (s : Automated.state remote) crate content,
        manifest (Automated.os s) crate = Some content ->
        match Automated.fixed_content escapes (Automated.published s) crate
                content with
        | Ok text =>
            let p := snd (fst (cargo (registry (Automated.os s)) crate
                                 (Some text))) in
            snd (Automated.publish_crate remote cargo escapes crate s)
            = Ok (Automated.accepted (fst (answer p)) (snd (answer p)))
        | Raise _ =>
            snd (Automated.publish_crate remote cargo escapes crate s) = Ok false
        end) /\
    (forall (w : world remote) crate d,
        fs w crate = Some d ->
        let seen := option_map AllCrates.fixed_content (cargo_toml d) in
        let p := snd (fst (cargo (registry w) crate seen)) in
        snd (AllCrates.publish_crate remote cargo crate w)
        = Ok (AllCrates.accepted (fst (answer p)) (snd (answer p)))) /\
    (forall (w : world remote) crate content data,
        manifest w crate = Some content ->
        Py.bind (toml_loads content) Improved.resolve = Ok data ->
        let p := snd (fst (cargo (registry w) crate (Some (toml_dumps data)))) in
        snd (Improved.publish_crate remote cargo toml_loads toml_dumps crate w)
        = Ok (fst (answer p))).
Proof.
  intros remote cargo toml_loads toml_dumps escapes.
  assert (Hacc : forall success output,
             success || contains "already uploaded" (lower output) = true <->
             success = true \/ mentions "already uploaded" output).
  { intros. rewrite orb_true_iff, marker_test. reflexivity. }
  split; [exact Hacc|]. split; [exact Hacc|]. split; [|split].
  - intros s crate content Hm.
    pose proof (automated_publish_crate_spec remote cargo escapes crate s) as H.
    cbn zeta in H.
    destruct (Automated.publish_crate remote cargo escapes crate s) as [s' r].
    destruct H as (_ & _ & _ & H). unfold manifest in Hm.
    destruct (fs (Automated.os s) crate) as [d|]; [|discriminate].
    rewrite Hm in H.
    destruct (Automated.fixed_content escapes _ crate content) as [text|e].
    + cbv zeta. destruct (cargo _ _ _) as [[rg p] m]. cbn [fst snd].
      destruct H as (-> & _). reflexivity.
    + cbn [snd]. now destruct H as (-> & _).
  - intros w crate d Hfs. cbv zeta.
    pose proof (allcrates_publish_crate_spec remote cargo crate w) as H.
    destruct (AllCrates.publish_crate remote cargo crate w) as [w' r].
    destruct H as (_ & _ & _ & H). rewrite Hfs in H. cbn zeta in H.
    destruct (cargo _ _ _) as [[rg p] m]. cbn [fst snd].
    destruct H as (-> & _). reflexivity.
  - intros w crate content data Hm Hdata. cbv zeta.
    pose proof (improved_publish_crate_spec remote cargo toml_loads toml_dumps
                  crate w) as H.
    destruct (Improved.publish_crate _ _ _ _ crate w) as [w' r].
    destruct H as (_ & _ & _ & _ & H). rewrite Hm, Hdata in H. cbn zeta in H.
    destruct (cargo _ _ _) as [[rg p] m]. cbn [fst snd].
    destruct H as (-> & _). reflexivity.
Qed.

(** publish-hanzo-automated.py on the same machine: the crate counts as
    published. *)
Lemma classification_by_script_witness :
  snd (Automated.publish_crate unit Demo.pqc_again Samples.no_escapes "hanzo-pqc"
         (Automated.start Demo.pqc_world)) = Ok true.
Proof.
  destruct (classification_by_script unit Demo.pqc_again Demo.pqc_loads
              Demo.toml_dumps Samples.no_escapes) as (_ & _ & H & _).
  pose proof (H (Automated.start Demo.pqc_world) "hanzo-pqc" Demo.pqc_toml
                eq_refl) as E.
  vm_compute in E. vm_compute. exact E.
Defined.

(** *** Backup and restore *)

(** C2, as stated, fails on publish-all-hanzo-crates.py, which keeps no
    copy: a manifest that pins thiserror 1.0.86 reads differently after
    the crate was processed, although cargo took the crate. *)
Lemma allcrates_keeps_its_fixes :
  let w := Demo.boot [("hanzo-pqc", Demo.old_pins_toml)] [] in
  let after := AllCrates.publish_crate unit (Demo.cargo_by_crate []) "hanzo-pqc" w in
  snd after = Ok true /\
  manifest (fst after) "hanzo-pqc" <> manifest w "hanzo-pqc".
Proof. vm_compute. split; [reflexivity|discriminate]. Qed.

(** C2, amended.  In the two scripts that copy the manifest aside
    (publish-hanzo-improved.py and publish-hanzo-automated.py), the
    manifest of every crate reads after [publish_crate] as it did before:
    whether the copy could be made or not, whether the parser or the
    resolver raised, whatever cargo answered and whatever it did to the
    manifest it found, and whatever [re] makes of the description
    template; and so it does after a whole run of [main], also one that an
    exception ends.  publish-all-hanzo-crates.py makes no copy and its
    fixes stay. *)
Theorem manifest_restored :
  forall (remote : Type)
         (cargo : remote -> string -> option string
                  -> remote * proc * option string)
         (toml_loads : string -> res dict) (toml_dumps : dict -> string)
         (escapes : string -> res (string -> option string -> string))
         (crate : string),
    (forall (w : world remote) c,
        manifest (fst (Improved.publish_crate remote cargo toml_loads toml_dumps
                         crate w)) c
        = manifest w c) /\
    (forall (s : Automated.state remote) c,
        manifest (Automated.os (fst (Automated.publish_crate remote cargo escapes
                                       crate s))) c
        = manifest (Automated.os s) c) /\
    (forall (crates : list string) (w : world remote) c,
        manifest (fst (Improved.main remote cargo toml_loads toml_dumps crates w)) c
        = manifest w c) /\
    (forall (crates : list string) (s : Automated.state remote) c,
        manifest (Automated.os (fst (Automated.main remote cargo escapes crates
                                       s))) c
        = manifest (Automated.os s) c).
Proof.
  intros remote cargo toml_loads toml_dumps escapes crate.
  split; [|split; [|split]].
  - intros w c. apply improved_publish_crate_restores.
  - intros s c.
    pose proof (automated_publish_crate_spec remote cargo escapes crate s) as H.
    cbn zeta in H.
    destruct (Automated.publish_crate remote cargo escapes crate s) as [s' r].
    destruct H as (H & _). now apply same_manifests_manifest.
  - intros crates w c. apply same_manifests_manifest.
    apply improved_main_restores.
  - intros crates s c. apply same_manifests_manifest.
    apply automated_main_restores.
Qed.

(** *** The order of the packages and the report *)

(** C4, as stated, fails on two of the scripts.  In
    publish-all-hanzo-crates.py the operator answers the prompt after the
    first failure with n and the second crate is never tried; in
    publish-hanzo-automated.py both crates are published and the list of
    published crates in the report is the registry as it was before the
    loop, with neither of them. *)
Lemma report_misses_packages :
  (let crates := ["hanzo-pqc"; "hanzo-embedding"] in
   let w := Demo.boot [("hanzo-pqc", Demo.pqc_toml);
                       ("hanzo-embedding", Demo.embedding_toml)] ["n"] in
   let after := AllCrates.main unit
                  (Demo.cargo_by_crate [("hanzo-pqc", Demo.rejected)]) crates w in
   snd after = Ok (Summary [] ["hanzo-pqc"]) /\
   attempts (trace (fst after)) = ["hanzo-pqc"]) /\
  (let crates := ["hanzo-pqc"; "hanzo-embedding"] in
   let w := Demo.boot [("hanzo-pqc", Demo.pqc_toml);
                       ("hanzo-embedding", Demo.embedding_toml)] [] in
   let after := Automated.main unit (Demo.cargo_by_crate []) Samples.no_escapes
                  crates (Automated.start w) in
   snd after = Ok (Summary ["hanzo_message_primitives"; "hanzo_non_rust_code";
                            "hanzo_crypto_identities"; "hanzo_tools_runner"] []) /\
   attempts (trace (Automated.os (fst after))) = crates).
Proof. vm_compute. repeat split; reflexivity. Qed.

(** With crate names without a backslash, the crates
    publish-hanzo-automated.py can prepare are those with a manifest. *)
Lemma prepared_plain {remote} escapes (w : world remote) (crates : list string) :
  Forall (fun c => plain_name c = true) crates ->
  filter (prepared escapes w) crates = filter (has_manifest w) crates.
Proof.
  intros H. apply filter_ext_in. intros c Hin.
  rewrite Forall_forall in H. specialize (H c Hin).
  unfold prepared, has_manifest. destruct (manifest w c); [|reflexivity].
  now apply prepares_plain.
Qed.

(** C4, amended.  In a run with the registry token set:
    publish-hanzo-improved.py, when every manifest of the order that is on
    the disk parses and resolves, names every package on the console in
    the order given, runs [cargo publish] for exactly the packages whose
    manifest exists, in that order, whatever became of the packages before
    (a missing directory, a missing manifest, a rejected publish), and its
    report holds every package once, as succeeded or as failed.
    publish-hanzo-automated.py, when no crate name of the order holds a
    backslash, runs [cargo publish] for exactly the packages whose manifest
    exists, in that order, and every package is once either registered as
    published or reported as failed. *)
Theorem packages_attempted_in_order :
  forall (remote : Type)
         (cargo : remote -> string -> option string
                  -> remote * proc * option string)
         (toml_loads : string -> res dict) (toml_dumps : dict -> string)
         (escapes : string -> res (string -> option string -> string))
         (crates : list string),
    (forall w : world remote,
        token_missing w = false ->
        resolvable toml_loads w crates ->
        exists w' succeeded failed,
          Improved.main remote cargo toml_loads toml_dumps crates w
          = (w', Ok (Summary succeeded failed)) /\
          announced (trace w') = (announced (trace w) ++ crates)%list /\
          attempts (trace w') =
            (attempts (trace w) ++ filter (has_manifest w) crates)%list /\
          Permutation (succeeded ++ failed) crates) /\
    (forall s : Automated.state remote,
        token_missing (Automated.os s) = false ->
        Forall (fun c => plain_name c = true) crates ->
        exists s' registered failed,
          Automated.main remote cargo escapes crates s
          = (s', Ok (Summary (Dict.keys (Automated.published s)) failed)) /\
          attempts (trace (Automated.os s')) =
            (attempts (trace (Automated.os s))
             ++ filter (has_manifest (Automated.os s)) crates)%list /\
          Permutation (registered ++ failed) crates /\
          Automated.published s' = register registered (Automated.published s)).
Proof.
  intros remote cargo toml_loads toml_dumps escapes crates. split.
  - intros w Htok Hres. unfold Improved.main. st_unfold. rewrite Htok.
    destruct (improved_publish_loop_spec remote cargo toml_loads toml_dumps
                crates crates w [] [] Hres)
      as (w' & succeeded & failed & -> & _ & Ha & Ht & Hp).
    exists w', succeeded, failed. cbn. auto.
  - intros s Htok Hplain. unfold Automated.main. st_unfold. cbn. rewrite Htok.
    destruct (automated_publish_loop_spec remote cargo escapes crates crates s [])
      as (s' & registered & failed & -> & _ & _ & Ht & Hp & Hr).
    exists s', registered, failed. cbn.
    rewrite (prepared_plain escapes _ _ Hplain) in Ht. auto.
Qed.

(** The two scripts on a crate that is there and one that is not:
    publish-hanzo-improved.py names both, both scripts publish the first,
    and both account for the two. *)
Lemma packages_attempted_in_order_witness :
  (exists w' succeeded failed,
     Improved.main unit (Demo.cargo_by_crate []) Demo.pqc_loads Demo.toml_dumps
       ["hanzo-pqc"; "hanzo-gone"] Demo.pqc_world
     = (w', Ok (Summary succeeded failed)) /\
     announced (trace w') = ["hanzo-pqc"; "hanzo-gone"] /\
     attempts (trace w') = ["hanzo-pqc"] /\
     Permutation (succeeded ++ failed) ["hanzo-pqc"; "hanzo-gone"]) /\
  (exists s' registered failed,
     Automated.main unit (Demo.cargo_by_crate []) Samples.no_escapes
       ["hanzo-pqc"; "hanzo-gone"] (Automated.start Demo.pqc_world)
     = (s', Ok (Summary (Dict.keys Automated.PUBLISHED_HANZO) failed)) /\
     attempts (trace (Automated.os s')) = ["hanzo-pqc"] /\
     Permutation (registered ++ failed) ["hanzo-pqc"; "hanzo-gone"] /\
     Automated.published s' = register registered Automated.PUBLISHED_HANZO).
Proof.
  destruct (packages_attempted_in_order unit (Demo.cargo_by_crate []) Demo.pqc_loads
              Demo.toml_dumps Samples.no_escapes ["hanzo-pqc"; "hanzo-gone"])
    as [H H'].
  split.
  - apply (H Demo.pqc_world).
    + reflexivity.
    + intros c content [<-|[<-|[]]] Hm; vm_compute in Hm; [|discriminate].
      injection Hm as <-. eexists. vm_compute. reflexivity.
  - apply (H' (Automated.start Demo.pqc_world)).
    + reflexivity.
    + repeat constructor.
Defined.

(** *** A manifest that does not parse *)

(** C9 on publish-hanzo-improved.py, at a run over two crates of which the
    first has a manifest that is no TOML: the exception of the parser
    leaves [publish_crate] through its [finally], which puts the manifest
    back, and then leaves [main].  The second crate is never named nor
    published and there is no report. *)
Lemma parse_error_aborts_run :
  let crates := ["hanzo-embedding"; "hanzo-pqc"] in
  let w := Demo.boot [("hanzo-embedding", Demo.broken_toml);
                      ("hanzo-pqc", Demo.pqc_toml)] [] in
  let after := Improved.main unit (Demo.cargo_by_crate []) Demo.pqc_loads
                 Demo.toml_dumps crates w in
  snd after = Raise (Exn "TomlDecodeError" "Invalid TOML") /\
  announced (trace (fst after)) = ["hanzo-embedding"] /\
  attempts (trace (fst after)) = [] /\
  manifest (fst after) "hanzo-embedding" = Some Demo.broken_toml.
Proof. vm_compute. repeat split; reflexivity. Qed.

(** The same run of publish-hanzo-automated.py, which wraps the
    preparation of the manifest in [try ... except Exception], goes on to
    the second crate. *)
Lemma sibling_script_goes_on :
  let crates := ["hanzo-embedding"; "hanzo-pqc"] in
  let w := Demo.boot [("hanzo-embedding", Demo.broken_toml);
                      ("hanzo-pqc", Demo.pqc_toml)] [] in
  let after := Automated.main unit (Demo.cargo_by_crate []) Samples.no_escapes
                 crates (Automated.start w) in
  attempts (trace (Automated.os (fst after))) = crates.
Proof. vm_compute. reflexivity. Qed.

(** *** The live registry of published crates *)





(** The whole run on two crates: the manifest of the second crate, which
    depends on the first and on a crate published before the run, is
    shipped with the versions of the registry. *)
Example second_crate_ships_registry_versions :
  let w := Demo.boot [("hanzo-pqc", Demo.pqc_toml);
                      ("hanzo-embedding", Demo.embedding_toml)] [] in
  let after := Automated.main unit Demo.pqc_again Samples.no_escapes
                 ["hanzo-pqc"; "hanzo-embedding"] (Automated.start w) in
  Dict.get "hanzo-embedding" (shipped (trace (Automated.os (fst after))))
  = Some (Some (Demo.text
       [ "[package]";
         "name = " ++ dq ++ "hanzo_embedding" ++ dq;
         "version = " ++ dq ++ "1.1.10" ++ dq;
         "";
         "[dependencies]";
         "hanzo-pqc = " ++ dq ++ "1.1.10" ++ dq;
         "hanzo_tools_runner = " ++ dq ++ "1.0.3" ++ dq ])).
Proof. vm_compute. reflexivity. Qed.

(** *** Dependencies that are in no table *)

(** C6, as stated, fails on publish-hanzo-automated.py: a dependency that
    is neither in the registry nor in the table of versions is kept as it
    is, and the resolved manifest still defers to the workspace. *)
Lemma automated_keeps_unknown_inherited :
  let manifest := Demo.text ["[dependencies]"; "foo = { workspace = true }"] in
  Dict.get "foo" Automated.PUBLISHED_HANZO = None /\
  Dict.get "foo" Automated.WORKSPACE_DEPS = None /\
  Automated.replace_dep Automated.PUBLISHED_HANZO "foo" "foo = { workspace = true }"
  = "foo = { workspace = true }" /\
  Automated.fixed_content Samples.no_escapes Automated.PUBLISHED_HANZO
    "hanzo-pqc" manifest = Ok manifest.
Proof. vm_compute. repeat split; reflexivity. Qed.

(** C6, amended.  In publish-hanzo-improved.py, on a document in the flat
    notation, an inherited dependency whose name is not in the table of
    versions and does not start with [hanzo_] is given the version 1.0: no
    pass raises on it, the declaration that results does not defer to the
    workspace, and it is the declaration of the resolved document.
    publish-hanzo-automated.py has no default: an inherited declaration
    that begins with [workspace = true], alone in the manifest of a crate
    whose name holds no backslash, of a name of words joined by hyphens that holds
    none of the words version, edition and authors and is neither in the
    registry nor in the table of versions, is left as it is. *)
Theorem unknown_dependency_gets_default :
  (forall (data : dict) (section name : string) (d : dict),
      flat data = true ->
      In section Improved.SECTIONS ->
      dep_of section name data = Some (VDict d) ->
      workspace_true d = true ->
      Dict.get name Improved.DEPENDENCY_VERSIONS = None ->
      startswith name "hanzo_" = false ->
      exists d',
        resolve_entry section name (VDict d) = Ok (VDict d') /\
        Dict.get "version" d' = Some (VStr "1.0") /\
        workspace_true d' = false /\
        forall data', Improved.resolve data = Ok data' ->
                      dep_of section name data' = Some (VDict d')) /\
  (forall (escapes : string -> res (string -> option string -> string))
          (published : Dict.t string) (crate name m : string),
      dep_word name = true ->
      inline m = true ->
      contains "authors = " m = false ->
      plain_name crate = true ->
      Dict.get (replace "-" "_" name) published = None ->
      Dict.get name Automated.WORKSPACE_DEPS = None ->
      Automated.fixed_content escapes published crate (inherited_decl name m ++ nl)
      = Ok (inherited_decl name m ++ nl)).
Proof.
  split.
  - intros data section name d Hflat Hs Hdep W Hl Hh.
    destruct (resolve_entry_unknown section name d W Hl Hh) as (d' & He & Hv & W').
    exists d'. repeat split; auto.
    intros data' Hr.
    pose proof (resolve_dep_of data data' Hflat Hr section name Hs) as H.
    unfold dep_res in H. rewrite Hdep in H. destruct H as (x' & Hx & ->).
    congruence.
  - intros escapes published crate name m Hn Hm Ha Hc Hp Hw.
    rewrite (automated_content_decl escapes published crate name m Hn Hm Ha Hc).
    now rewrite (replace_dep_neither published name _ Hp Hw).
Qed.

Lemma unknown_dependency_gets_default_witness :
  (exists d',
     resolve_entry "dependencies" "foo" Demo.inherit = Ok (VDict d') /\
     Dict.get "version" d' = Some (VStr "1.0") /\
     workspace_true d' = false /\
     forall data', Improved.resolve Demo.pqc_doc = Ok data' ->
                   dep_of "dependencies" "foo" data' = Some (VDict d')) /\
  Automated.fixed_content Samples.no_escapes Automated.PUBLISHED_HANZO
    "hanzo-pqc" (inherited_decl "foo" " " ++ nl)
  = Ok (inherited_decl "foo" " " ++ nl).
Proof.
  destruct unknown_dependency_gets_default as [H H'].
  split.
  - apply (H Demo.pqc_doc "dependencies" "foo" [("workspace", VBool true)]);
      solve [reflexivity | simpl; tauto].
  - apply H'; reflexivity.
Defined.

(** *** Features and sub-fields of a declaration *)

Lemma pqc_doc_resolves : Improved.resolve Demo.pqc_doc = Ok Demo.pqc_resolved.
Proof. vm_compute. reflexivity. Qed.

(** C7, as stated, fails in both resolvers.  publish-hanzo-automated.py
    replaces an inherited declaration of a name it knows as a whole, so
    tokio loses the feature it declared; publish-hanzo-improved.py keeps
    the features of an inherited declaration and nothing else of it, so
    chrono loses [optional = true] while serde is added to its features. *)
Lemma declared_features_or_fields_lost :
  (let line := "tokio = { workspace = true, features = [" ++ dq ++ "full" ++ dq
               ++ "] }" in
   exists resolved,
     Automated.fixed_content Samples.no_escapes Automated.PUBLISHED_HANZO
       "hanzo-pqc" (Demo.text ["[dependencies]"; line]) = Ok resolved /\
     contains "full" line = true /\ contains "full" resolved = false /\
     contains "features = ['rt', " resolved = true) /\
  (exists d d',
     dep_of "dependencies" "chrono" Demo.pqc_doc = Some (VDict d) /\
     dep_of "dependencies" "chrono" Demo.pqc_resolved = Some (VDict d') /\
     Dict.get "optional" d = Some (VBool true) /\
     Dict.get "optional" d' = None /\
     Dict.get "features" d' = Some (strs ["clock"; "serde"])).
Proof.
  split.
  - eexists. vm_compute. repeat split; reflexivity.
  - eexists. eexists. vm_compute. repeat split; reflexivity.
Qed.

(** C7, amended.  In publish-hanzo-improved.py, on a document in the flat
    notation, every item of the feature list of a declaration is an item
    of the feature list of the resolved declaration; a declaration that
    does not defer to the workspace keeps all its sub-fields, the features
    apart; and an inherited declaration becomes a table of its version
    and, when there are some, its features, with no other sub-field.  In
    publish-hanzo-automated.py an inherited declaration that begins with
    [workspace = true], alone in the manifest of a crate whose name holds
    no backslash, of a name of words joined by hyphens that holds none of
    the words version, edition and authors and is in the registry or in
    the table of versions, is replaced by the declaration the script formats
    from its tables: nothing of what stood behind [workspace = true] is
    carried over. *)
Theorem declared_features_kept :
  (forall (data data' : dict) (section name : string) (v : value),
      flat data = true ->
      In section Improved.SECTIONS ->
      Improved.resolve data = Ok data' ->
      dep_of section name data = Some v ->
      exists v',
        dep_of section name data' = Some v' /\
        (forall f, lists_feature f v -> lists_feature f v') /\
        (forall d, v = VDict d -> workspace_true d = false -> keeps_fields d v') /\
        (forall d, v = VDict d -> workspace_true d = true ->
           exists d', v' = VDict d' /\
             Dict.get "version" d' = Some (VStr (Improved.inline_version name)) /\
             forall k, k <> "version" -> k <> "features" ->
                       Dict.get k d' = None)) /\
  (forall (escapes : string -> res (string -> option string -> string))
          (published : Dict.t string) (crate name m version : string),
      dep_word name = true ->
      inline m = true ->
      contains "authors = " m = false ->
      plain_name crate = true ->
      Dict.get (replace "-" "_" name) published = Some version \/
      (Dict.get (replace "-" "_" name) published = None /\
       Dict.get name Automated.WORKSPACE_DEPS = Some version) ->
      Automated.fixed_content escapes published crate (inherited_decl name m ++ nl)
      = Ok (formatted name version ++ nl)).
Proof.
  split.
  - intros data data' section name v Hflat Hs Hr Hdep.
    pose proof (resolve_dep_of data data' Hflat Hr section name Hs) as H.
    unfold dep_res in H. rewrite Hdep in H. destruct H as (v' & He & Hv').
    exists v'. split; [exact Hv'|]. split; [|split].
    + intros f. now apply (resolve_entry_lists section name f v v').
    + intros d -> W. now apply (resolve_entry_fields section name d v').
    + intros d -> W. now apply (resolve_entry_inherited section name d v').
  - intros escapes published crate name m version Hn Hm Ha Hc Hv.
    rewrite (automated_content_decl escapes published crate name m Hn Hm Ha Hc).
    destruct Hv as [Hv|[Hp Hv]].
    + now rewrite (replace_dep_registry published name _ version Hv).
    + now rewrite (replace_dep_table published name _ version Hp Hv).
Qed.

(** chrono keeps the feature it declared in publish-hanzo-improved.py;
    in publish-hanzo-automated.py the declaration of tokio is formatted
    anew, without the feature it declared. *)
Lemma declared_features_kept_witness :
  (exists v',
     dep_of "dependencies" "chrono" Demo.pqc_resolved = Some v' /\
     lists_feature (VStr "clock") v') /\
  Automated.fixed_content Samples.no_escapes Automated.PUBLISHED_HANZO
    "hanzo-pqc"
    (inherited_decl "tokio" (", features = [" ++ dq ++ "full" ++ dq ++ "] ") ++ nl)
  = Ok (formatted "tokio" "1.36" ++ nl).
Proof.
  destruct declared_features_kept as [H H'].
  split.
  - destruct (H Demo.pqc_doc Demo.pqc_resolved "dependencies" "chrono"
                (VDict [ ("workspace", VBool true);
                         ("features", strs ["clock"]);
                         ("optional", VBool true) ]))
      as (v' & Hv' & Hf & _).
    + reflexivity.
    + simpl; tauto.
    + exact pqc_doc_resolves.
    + reflexivity.
    + exists v'. split; [exact Hv'|]. apply Hf.
      eexists. eexists. split; [reflexivity|]. split; [reflexivity|]. now left.
  - apply H'; try reflexivity. right. split; reflexivity.
Defined.

(** *** Explicit declarations and mandatory features *)




(** *** Resolving twice *)

(** C8 on publish-hanzo-automated.py.  The test for a missing license
    looks for the text [license =] anywhere in the manifest; here it is
    found inside the declaration of tokio, so that no license is added,
    and the same run then replaces the declaration.  The manifest that
    results has no license; resolving it once more adds the line, so that
    the second resolution differs from the first. *)
Lemma regex_resolver_not_idempotent :
  forall (escapes : string -> res (string -> option string -> string)),
    let manifest :=
      Demo.text [ "authors = [" ++ dq ++ "x" ++ dq ++ "]";
                  "tokio = { workspace = true, license = 1 }" ] in
    exists once twice,
      Automated.fixed_content escapes Automated.PUBLISHED_HANZO "hanzo-pqc"
        manifest = Ok once /\
      Automated.fixed_content escapes Automated.PUBLISHED_HANZO "hanzo-pqc"
        once = Ok twice /\
      contains "license =" manifest = true /\
      contains "license =" once = false /\
      contains ("license = " ++ dq ++ "MIT" ++ dq) twice = true /\
      twice <> once.
Proof.
  intros escapes. eexists. eexists.
  split; [vm_compute; reflexivity|].
  split; [vm_compute; reflexivity|].
  vm_compute. repeat split; try reflexivity. discriminate.
Qed.

End Claims.

(* ================================================================== *)
(** * Further properties of the scripts *)
(* ================================================================== *)

Module Further.
Import Py Toml St Os Props.
Import Re Overlap Scan LoopProps FixProps MetaProps PassProps StripProps
       AutoProps TableProps.
Import StringFacts RunFacts CrateFacts LoopFacts DictFacts ComposeFacts
       TrackFacts TotalFacts ReplaceFacts AllCratesFacts ReFacts ScanFacts
       CryptoFacts FixAllFacts MetaFacts StripFacts ResolveFacts TableFacts
       AutoFacts.

(** The resolver of publish-hanzo-improved.py raises on no well-formed
    document: when the document is in the flat notation, its package and
    its dependency sections are tables, and the features of every
    declaration that has some are a list, every pass returns, and the
    document returned is resolved. *)
Theorem resolver_total_on_well_formed : forall (data : dict),
  well_formed data ->
  exists data', Improved.resolve data = Ok data' /\ resolved data'.
Proof.
  intros data H. destruct (resolve_total data H) as [data' Hd].
  exists data'. split; [exact Hd|]. exact (resolve_resolved _ _ Hd).
Qed.

Lemma pqc_doc_well_formed : well_formed Demo.pqc_doc.
Proof.
  split; [reflexivity|]. split; [exact I|].
  intros s [<-|[<-|[<-|[]]]]; cbn; try exact I;
    intros n v Hin; cbn in Hin;
    repeat (destruct Hin as [[= <- <-]|Hin]; [exact I|]);
    destruct Hin.
Defined.

Lemma resolver_total_on_well_formed_witness :
  exists data', Improved.resolve Demo.pqc_doc = Ok data' /\ resolved data'.
Proof.
  exact (resolver_total_on_well_formed Demo.pqc_doc pqc_doc_well_formed).
Defined.

(** Without a registry credential (the variable unset or empty) each of the
    three scripts stops before it touches a package: the machine is as it
    was, nothing is announced, copied or published, and the exit status
    is 1. *)
Theorem missing_token_stops_run :
  forall remote cargo toml_loads toml_dumps escapes crates (w : world remote),
  token_missing w = true ->
  Improved.main remote cargo toml_loads toml_dumps crates w = (w, Ok NoToken) /\
  Automated.main remote cargo escapes crates (Automated.start w)
    = (Automated.start w, Ok NoToken) /\
  AllCrates.main remote cargo crates w = (w, Ok NoToken) /\
  exit_code NoToken = 1%Z.
Proof.
  intros remote cargo toml_loads toml_dumps escapes crates w H.
  unfold Improved.main, Automated.main, AllCrates.main.
  st_unfold. cbn. rewrite H. repeat split.
Qed.

Lemma missing_token_stops_run_witness :
  Improved.main unit (Demo.cargo_by_crate []) Demo.pqc_loads Demo.toml_dumps
    ["hanzo-pqc"] Demo.pqc_world_no_token
    = (Demo.pqc_world_no_token, Ok NoToken) /\
  Automated.main unit (Demo.cargo_by_crate []) Samples.no_escapes ["hanzo-pqc"]
    (Automated.start Demo.pqc_world_no_token)
    = (Automated.start Demo.pqc_world_no_token, Ok NoToken) /\
  AllCrates.main unit (Demo.cargo_by_crate []) ["hanzo-pqc"]
    Demo.pqc_world_no_token = (Demo.pqc_world_no_token, Ok NoToken) /\
  exit_code NoToken = 1%Z.
Proof.
  exact (missing_token_stops_run unit (Demo.cargo_by_crate []) Demo.pqc_loads
           Demo.toml_dumps Samples.no_escapes ["hanzo-pqc"]
           Demo.pqc_world_no_token eq_refl).
Defined.


(** *** publish-all-hanzo-crates.py *)

(** [fix_cargo_toml] leaves none of the four pins it replaces in the
    manifest, whatever the manifest was: the manifest that stays is the
    fixed one, the other directories are as they were, a call that
    reports no change wrote nothing, and a second call finds nothing to
    do. *)
Theorem allcrates_fix_settles :
  forall remote crate (w : world remote),
  exists w1 changed,
    AllCrates.fix_cargo_toml remote crate w = (w1, Ok changed) /\
    manifest w1 crate = option_map AllCrates.fixed_content (manifest w crate) /\
    (forall c, c <> crate -> fs w1 c = fs w c) /\
    (changed = false -> w1 = w) /\
    (forall m, manifest w1 crate = Some m ->
       contains (AllCrates.pinned "thiserror" "1.0.86") m = false /\
       contains (AllCrates.pinned "blake3" "1.8.2") m = false /\
       contains (AllCrates.pinned "ed25519-dalek" "2.1.1") m = false /\
       contains (AllCrates.pinned "x25519-dalek" "2.0.1") m = false) /\
    AllCrates.fix_cargo_toml remote crate w1 = (w1, Ok false).
Proof.
  intros remote crate w.
  assert (Hfix : forall w0 : world remote,
            AllCrates.fix_cargo_toml remote crate w0 =
            match manifest w0 crate with
            | None => (w0, Ok false)
            | Some original =>
                if String.eqb (AllCrates.fixed_content original) original
                then (w0, Ok false)
                else (fst (write_manifest crate (AllCrates.fixed_content original) w0),
                      Ok true)
            end).
  { intros w0. unfold AllCrates.fix_cargo_toml. st_unfold. cbn.
    destruct (manifest w0 crate) as [original|] eqn:E; [|reflexivity].
    destruct (String.eqb _ original); [reflexivity|].
    unfold write_manifest, manifest in *.
    destruct (fs w0 crate); [reflexivity|discriminate]. }
  rewrite Hfix.
  destruct (manifest w crate) as [original|] eqn:E.
  - destruct (String.eqb (AllCrates.fixed_content original) original) eqn:Eq.
    + apply String.eqb_eq in Eq.
      exists w, false. rewrite Hfix, E. simpl. rewrite !Eq, String.eqb_refl.
      split; [reflexivity|]. split; [reflexivity|]. split; [reflexivity|].
      split; [reflexivity|]. split; [|reflexivity].
      intros m [= <-]. rewrite <- Eq.
      apply (allcrates_fixed_content_free original).
    + unfold write_manifest. unfold manifest in E.
      destruct (fs w crate) as [d|] eqn:Ed; [|discriminate].
      cbn [fst]. eexists _, true. split; [reflexivity|].
      assert (Hm : manifest (with_fs w (put (fs w) crate
                     (Dir (Some (AllCrates.fixed_content original)) (backup d)))) crate
                   = Some (AllCrates.fixed_content original)).
      { unfold manifest. cbn. now rewrite put_same. }
      split; [exact Hm|]. split; [intros c Hc; cbn; now apply put_other|].
      split; [discriminate|]. split.
      * rewrite Hm. intros m [= <-]. apply (allcrates_fixed_content_free original).
      * rewrite Hfix, Hm, allcrates_fixed_content_idem, String.eqb_refl.
        reflexivity.
  - exists w, false. rewrite Hfix, E. simpl.
    split; [reflexivity|]. split; [reflexivity|]. split; [reflexivity|].
    split; [reflexivity|]. split; [discriminate|reflexivity].
Qed.

(** The crate hanzo-message-primitives is passed over wherever it stands
    in the order: the run neither names it nor hands it to cargo, its
    directory is as it was, and it is in neither list of the report. *)
Theorem skipped_crate_never_published :
  forall remote cargo (crates : list string) (w : world remote),
  let after := AllCrates.main remote cargo crates w in
  exists gone,
    announced (trace (fst after)) = (announced (trace w) ++ gone)%list /\
    attempts (trace (fst after)) = (attempts (trace w) ++ gone)%list /\
    ~ In "hanzo-message-primitives" gone /\
    fs (fst after) "hanzo-message-primitives" = fs w "hanzo-message-primitives" /\
    forall succeeded failed,
      snd after = Ok (Summary succeeded failed) ->
      ~ In "hanzo-message-primitives" succeeded /\
      ~ In "hanzo-message-primitives" failed.
Proof.
  intros remote cargo crates w. cbv zeta. rewrite allcrates_main_eq.
  destruct (token_missing w).
  - exists []. cbn. rewrite !app_nil_r.
    split; [reflexivity|]. split; [reflexivity|]. split; [tauto|].
    split; [reflexivity|]. intros s f [=].
  - destruct (allcrates_publish_loop_spec remote cargo crates crates w [] [])
      as (w' & r & done & rest & answers & -> & Hfil & _ & _ & Hdir & Hskip
          & Han & Hat & Hr).
    assert (Hdone : ~ In "hanzo-message-primitives" done).
    { intros Hin. apply (kept_crates_spec crates "hanzo-message-primitives");
        [|reflexivity].
      unfold kept_crates. rewrite Hfil. apply in_or_app. now left. }
    exists (filter (dir_exists w) done).
    destruct r as [[s f]|e]; cbn [fst snd].
    + split; [exact Han|]. split; [exact Hat|].
      split; [rewrite filter_In; tauto|]. split; [exact Hskip|].
      intros succeeded failed [= <- <-].
      destruct Hr as (ds & df & -> & -> & Hp & _). cbn.
      split; intros Hin; apply Hdone;
        apply (Permutation_in _ Hp); apply in_or_app; tauto.
    + split; [exact Han|]. split; [exact Hat|].
      split; [rewrite filter_In; tauto|]. split; [exact Hskip|].
      discriminate.
Qed.

(** After a failure the operator is asked once: the crates gone through
    are an initial part of the order (the skipped crate apart), cargo was
    run for those of them that have a directory, and each failure read
    one line of input.  The run ends before the end of the order only when
    a line other than y (in either case) was read, or, with [EOFError]
    and no report, when the input was at its end. *)
Theorem operator_decides_after_failure :
  forall remote cargo (crates : list string) (w : world remote),
  token_missing w = false ->
  exists w' r done rest answers,
    AllCrates.main remote cargo crates w = (w', r) /\
    kept_crates crates = (done ++ rest)%list /\
    stdin w = (answers ++ stdin w')%list /\
    attempts (trace w') = (attempts (trace w) ++ filter (dir_exists w) done)%list /\
    match r with
    | Ok (Summary succeeded failed) =>
        Permutation (succeeded ++ failed) done /\
        List.length answers = List.length failed /\
        (rest = [] \/ exists a, In a answers /\ lower a <> "y")
    | Ok NoToken => False
    | Raise e =>
        exn_class e = "EOFError" /\ stdin w' = [] /\
        List.length answers < List.length done
    end.
Proof.
  intros remote cargo crates w Htok.
  rewrite allcrates_main_eq, Htok.
  destruct (allcrates_publish_loop_spec remote cargo crates crates w [] [])
    as (w' & r & done & rest & answers & -> & Hfil & Hst & _ & Hdir & Hskip
        & Han & Hat & Hr).
  destruct r as [[s f]|e].
  - exists w', (Ok (Summary s f)), done, rest, answers.
    destruct Hr as (ds & df & -> & -> & Hp & Hl & Hrest). cbn.
    repeat split; auto.
  - exists w', (Raise e), done, rest, answers. repeat split; auto; tauto.
Qed.

Lemma operator_decides_after_failure_witness :
  exists w' r done rest answers,
    AllCrates.main unit Samples.pqc_rejected Samples.two_crates
      (Samples.two_crates_world ["n"]) = (w', r) /\
    kept_crates Samples.two_crates = (done ++ rest)%list /\
    stdin (Samples.two_crates_world ["n"]) = (answers ++ stdin w')%list /\
    attempts (trace w') =
      (attempts (trace (Samples.two_crates_world ["n"]))
       ++ filter (dir_exists (Samples.two_crates_world ["n"])) done)%list /\
    match r with
    | Ok (Summary succeeded failed) =>
        Permutation (succeeded ++ failed) done /\
        List.length answers = List.length failed /\
        (rest = [] \/ exists a, In a answers /\ lower a <> "y")
    | Ok NoToken => False
    | Raise e =>
        exn_class e = "EOFError" /\ stdin w' = [] /\
        List.length answers < List.length done
    end.
Proof.
  exact (operator_decides_after_failure unit Samples.pqc_rejected
           Samples.two_crates (Samples.two_crates_world ["n"]) eq_refl).
Defined.

(** When the operator answers y to every question and there are lines
    enough, the run reaches every crate of the order but the skipped one:
    cargo is run, in order, for each that has a directory, the report
    holds each once, and one line was read for each failure. *)
Theorem confirmed_run_reaches_every_crate :
  forall remote cargo (crates : list string) (w : world remote),
  token_missing w = false ->
  Forall (fun a => lower a = "y") (stdin w) ->
  List.length crates <= List.length (stdin w) ->
  exists w' succeeded failed,
    AllCrates.main remote cargo crates w = (w', Ok (Summary succeeded failed)) /\
    attempts (trace w') =
      (attempts (trace w) ++ filter (dir_exists w) (kept_crates crates))%list /\
    Permutation (succeeded ++ failed) (kept_crates crates) /\
    stdin w' = skipn (List.length failed) (stdin w).
Proof.
  intros remote cargo crates w Htok Hy Hlen.
  destruct (allcrates_main_spec remote cargo crates w Htok)
    as (w' & r & done & rest & answers & Hmain & Hfil & Hst & Hat & Hr).
  assert (Hk : List.length (done ++ rest) <= List.length crates).
  { rewrite <- Hfil. unfold kept_crates. apply filter_length_le. }
  rewrite List.length_app in Hk.
  destruct r as [[|s f]|e]; [contradiction| |].
  - destruct Hr as (Hp & Hl & Hrest).
    destruct Hrest as [->|(a & Ha & Hn)].
    + rewrite app_nil_r in Hfil. exists w', s, f. rewrite Hfil.
      split; [exact Hmain|]. split; [exact Hat|]. split; [exact Hp|].
      rewrite Hst, <- Hl. now rewrite skipn_app, Nat.sub_diag, skipn_all.
    + exfalso. apply Hn. rewrite Forall_forall in Hy. apply Hy.
      rewrite Hst. apply in_or_app. now left.
  - exfalso. destruct Hr as (_ & Hs & Hl).
    rewrite Hst, Hs, app_nil_r in Hlen. lia.
Qed.

Lemma confirmed_run_reaches_every_crate_witness :
  exists w' succeeded failed,
    AllCrates.main unit Samples.pqc_rejected Samples.two_crates
      (Samples.two_crates_world ["Y"; "y"])
    = (w', Ok (Summary succeeded failed)) /\
    attempts (trace w') =
      (attempts (trace (Samples.two_crates_world ["Y"; "y"]))
       ++ filter (dir_exists (Samples.two_crates_world ["Y"; "y"]))
                 (kept_crates Samples.two_crates))%list /\
    Permutation (succeeded ++ failed) (kept_crates Samples.two_crates) /\
    stdin w' = skipn (List.length failed)
                     (stdin (Samples.two_crates_world ["Y"; "y"])).
Proof.
  apply (confirmed_run_reaches_every_crate unit Samples.pqc_rejected
           Samples.two_crates (Samples.two_crates_world ["Y"; "y"]) eq_refl).
  - repeat constructor.
  - simpl. lia.
Defined.

(** *** fix-crypto-apis.py *)

(** [fix_file] on a file that is there: it returns whether the text held
    a call of [SigningKey::generate], the file then holds the fixed text,
    in which no such call is left, no other file is written, a text
    without a call is not written at all, and a second call finds nothing
    to do. *)
Theorem fix_file_rewrites_every_call :
  forall (path : string) (fs : CryptoApis.files) (original : string),
  fs path = Some original ->
  exists fs',
    CryptoApis.fix_file path fs = (fs', Ok (contains "SigningKey::generate(" original)) /\
    fs' path = Some (CryptoApis.fixed_content original) /\
    (forall p, p <> path -> fs' p = fs p) /\
    (contains "SigningKey::generate(" original = false -> fs' = fs) /\
    contains "SigningKey::generate(" (CryptoApis.fixed_content original) = false /\
    CryptoApis.fix_file path fs' = (fs', Ok false).
Proof.
  intros path fs original E. rewrite fix_file_eq, E.
  destruct (contains "SigningKey::generate(" original) eqn:Ec.
  - exists (CryptoApis.write fs path (CryptoApis.fixed_content original)).
    split; [reflexivity|]. split; [apply write_same|].
    split; [intros p Hp; now apply write_other|]. split; [discriminate|].
    split; [apply fixed_content_free|].
    rewrite fix_file_eq, write_same, fixed_content_free. reflexivity.
  - exists fs. split; [reflexivity|].
    assert (Hid : CryptoApis.fixed_content original = original).
    { apply String.eqb_eq. now rewrite fixed_content_same, Ec. }
    rewrite Hid. split; [exact E|]. split; [reflexivity|].
    split; [reflexivity|]. split; [exact Ec|].
    rewrite fix_file_eq, E, Ec. reflexivity.
Qed.

Lemma fix_file_rewrites_every_call_witness :
  exists fs',
    CryptoApis.fix_file "signatures.rs" Samples.one_source_file
    = (fs', Ok (contains "SigningKey::generate(" Samples.signatures_rs)) /\
    fs' "signatures.rs" = Some (CryptoApis.fixed_content Samples.signatures_rs) /\
    (forall p, p <> "signatures.rs" -> fs' p = Samples.one_source_file p) /\
    (contains "SigningKey::generate(" Samples.signatures_rs = false ->
     fs' = Samples.one_source_file) /\
    contains "SigningKey::generate("
             (CryptoApis.fixed_content Samples.signatures_rs) = false /\
    CryptoApis.fix_file "signatures.rs" fs' = (fs', Ok false).
Proof.
  exact (fix_file_rewrites_every_call "signatures.rs" Samples.one_source_file
           Samples.signatures_rs eq_refl).
Defined.

(** The loop of [main] over the listed file never raises: every file but
    [hanzo_utils/signatures.rs] under the base path is as it was, that
    file holds the fixed text when it is there, and the count is 1 exactly
    when it held a call. *)
Theorem crypto_run_touches_one_file :
  forall (fs : CryptoApis.files),
  let target := CryptoApis.join CryptoApis.BASE_PATH "hanzo_utils/signatures.rs" in
  exists fs' fixed_count,
    CryptoApis.fix_listed CryptoApis.files_to_fix 0 fs = (fs', Ok fixed_count) /\
    (forall p, p <> target -> fs' p = fs p) /\
    fs' target = option_map CryptoApis.fixed_content (fs target) /\
    fixed_count = match fs target with
                  | Some original =>
                      if contains "SigningKey::generate(" original then 1 else 0
                  | None => 0
                  end.
Proof.
  intros fs target. unfold CryptoApis.files_to_fix. cbn [CryptoApis.fix_listed]. st_unfold. cbn beta.
  fold target. destruct (fs target) as [original|] eqn:E.
  - rewrite fix_file_eq, E.
    destruct (contains "SigningKey::generate(" original) eqn:Ec.
    + eexists _, _. split; [reflexivity|].
      split; [intros p Hp; now apply write_other|].
      split; [apply write_same|reflexivity].
    + exists fs, 0. split; [reflexivity|]. split; [reflexivity|].
      split; [|reflexivity]. rewrite E. cbn. f_equal. symmetry.
      apply String.eqb_eq. now rewrite fixed_content_same, Ec.
  - exists fs, 0. rewrite E. repeat split; reflexivity.
Qed.

(** *** fix-all-cargo-tomls.py *)

(** A manifest that does not hold the text [workspace] and, when it has a
    package header, has its license, repository, homepage and description
    lines, is returned as it is: [fix_cargo_toml] reports no change and
    writes nothing. *)
Theorem fixer_leaves_explicit_manifest :
  forall escapes (crate_dir : string) (fs : filesystem)
         (content : string) (saved : option string),
    fs crate_dir = Some (Dir (Some content) saved) ->
    contains "workspace" content = false ->
    (contains "[package]" content = true -> has_metadata content = true) ->
    FixAll.fixed_content escapes content = Ok content /\
    FixAll.fix_cargo_toml escapes crate_dir fs = (fs, Ok false).
Proof.
  intros escapes crate_dir fs content saved Hfs Hw Hm.
  pose proof (fixed_content_explicit escapes content Hw Hm) as E.
  split; [exact E|].
  rewrite fix_cargo_toml_eq, Hfs, E, String.eqb_refl. reflexivity.
Qed.

Lemma fixer_leaves_explicit_manifest_witness :
  FixAll.fixed_content Samples.no_escapes Samples.explicit_toml
  = Ok Samples.explicit_toml /\
  FixAll.fix_cargo_toml Samples.no_escapes "hanzo-did" Samples.libs
  = (Samples.libs, Ok false).
Proof.
  exact (fixer_leaves_explicit_manifest Samples.no_escapes "hanzo-did"
           Samples.libs Samples.explicit_toml None eq_refl eq_refl
           (fun _ => eq_refl)).
Defined.

(** The loop of [main] writes into no directory but those of the listed
    names that start with [hanzo-]: every other entry of the base
    directory is as it was, also when the run ends in an exception, and
    no backup file is made, changed or removed. *)
Theorem fixer_stays_in_hanzo_directories :
  forall escapes (listing : list string) (fs : filesystem),
    let fs' := fst (FixAll.main escapes listing fs) in
    (forall c, startswith c "hanzo-" = false \/ ~ In c listing -> fs' c = fs c) /\
    (forall c, option_map backup (fs' c) = option_map backup (fs c)).
Proof. intros escapes listing fs. apply fix_all_scope. Qed.

(** When the listing names each directory once and the run returns, the
    count it prints is the number of manifests the fixer changed, and the
    directory of every listed name that starts with [hanzo-] holds the
    fixed manifest. *)
Theorem fixer_counts_changed_manifests :
  forall escapes (listing : list string) (fs fs' : filesystem) (n : nat),
    NoDup listing ->
    FixAll.main escapes listing fs = (fs', Ok n) ->
    n = List.length (filter (changes escapes fs) listing) /\
    forall c, In c listing ->
      fs' c = if startswith c "hanzo-"
              then option_map (fixed_dir escapes) (fs c) else fs c.
Proof.
  intros escapes listing fs fs' n Hnd Hrun.
  apply (fix_all_spec escapes listing Hnd fs fs' 0 n Hrun).
Qed.

Lemma fixer_counts_changed_manifests_witness :
  1 = List.length (filter (changes Samples.no_escapes Samples.libs)
                          Samples.libs_listing) /\
  forall c, In c Samples.libs_listing ->
    fst (FixAll.main Samples.no_escapes Samples.libs_listing Samples.libs) c
    = if startswith c "hanzo-"
      then option_map (fixed_dir Samples.no_escapes) (Samples.libs c)
      else Samples.libs c.
Proof.
  apply (fixer_counts_changed_manifests Samples.no_escapes Samples.libs_listing
           Samples.libs
           (fst (FixAll.main Samples.no_escapes Samples.libs_listing Samples.libs))
           1).
  - repeat (constructor; [simpl; intuition discriminate|]). constructor.
  - vm_compute. reflexivity.
Defined.

(** An inherited declaration of a dependency of the table of versions,
    alone in a manifest, becomes the declaration of its version, with the
    features of the table of features in the notation Python prints a
    list in (single quotes). *)
Theorem fixer_pins_known_dependency :
  forall escapes (name version : string),
    Dict.get name FixAll.DEPS = Some version ->
    FixAll.fixed_content escapes (inherited_line name)
    = Ok (pinned_by_fixer name version ++ nl).
Proof.
  intros escapes name version H. apply get_in in H.
  unfold FixAll.DEPS in H. cbn [In] in H.
  repeat (destruct H as [H|H];
          [injection H as <- <-; vm_compute; reflexivity|]).
  contradiction.
Qed.

Lemma fixer_pins_known_dependency_witness :
  FixAll.fixed_content Samples.no_escapes (inherited_line "serde")
  = Ok (pinned_by_fixer "serde" "1.0.219" ++ nl).
Proof.
  exact (fixer_pins_known_dependency Samples.no_escapes "serde" "1.0.219"
           eq_refl).
Defined.

(** An inherited declaration of a published hanzo crate, alone in a
    manifest, becomes the declaration of its published version, whether
    the name is written with underscores or with hyphens. *)
Theorem fixer_pins_published_sibling :
  forall escapes (key version : string),
    Dict.get key FixAll.PUBLISHED_HANZO = Some version ->
    FixAll.fixed_content escapes (inherited_line key)
    = Ok (Automated.plain_dep key version ++ nl) /\
    FixAll.fixed_content escapes (inherited_line (replace "_" "-" key))
    = Ok (Automated.plain_dep (replace "_" "-" key) version ++ nl).
Proof.
  intros escapes key version H. apply get_in in H.
  unfold FixAll.PUBLISHED_HANZO in H. cbn [In] in H.
  repeat (destruct H as [H|H];
          [injection H as <- <-; split; vm_compute; reflexivity|]).
  contradiction.
Qed.

Lemma fixer_pins_published_sibling_witness :
  FixAll.fixed_content Samples.no_escapes (inherited_line "hanzo_tools_runner")
  = Ok (Automated.plain_dep "hanzo_tools_runner" "1.0.3" ++ nl) /\
  FixAll.fixed_content Samples.no_escapes
    (inherited_line (replace "_" "-" "hanzo_tools_runner"))
  = Ok (Automated.plain_dep (replace "_" "-" "hanzo_tools_runner") "1.0.3"
        ++ nl).
Proof.
  exact (fixer_pins_published_sibling Samples.no_escapes "hanzo_tools_runner"
           "1.0.3" eq_refl).
Defined.

(** An inherited declaration of a dependency the fixer has no version for
    is not kept as it is: the pass of the dependencies returns it, and
    the substitution behind it takes [workspace = true] out, so that an
    empty table is written.  Stated for a manifest that is this one
    declaration, of a name of word characters. *)
Theorem fixer_empties_unknown_dependency :
  forall escapes (name crate_dir : string) (fs : filesystem)
         (saved : option string),
    unknown_name name = true ->
    fs crate_dir = Some (Dir (Some (inherited_line name)) saved) ->
    FixAll.fixed_content escapes (inherited_line name)
    = Ok (emptied_line name) /\
    FixAll.fix_cargo_toml escapes crate_dir fs
    = (put fs crate_dir (Dir (Some (emptied_line name)) saved), Ok true).
Proof.
  intros escapes name crate_dir fs saved Hn Hfs.
  pose proof (fixed_content_unknown escapes name Hn) as E.
  split; [exact E|].
  rewrite fix_cargo_toml_eq, Hfs, E.
  assert (Hne : String.eqb (emptied_line name) (inherited_line name) = false).
  { apply String.eqb_neq. unfold emptied_line, inherited_line.
    clear. induction name as [|c n IH]; [discriminate|].
    cbn [append]. intros [= H]. now apply IH. }
  now rewrite Hne.
Qed.

Lemma fixer_empties_unknown_dependency_witness :
  FixAll.fixed_content Samples.no_escapes (inherited_line "foo")
  = Ok (emptied_line "foo") /\
  FixAll.fix_cargo_toml Samples.no_escapes "hanzo-kbs"
    (Demo.disk [("hanzo-kbs", inherited_line "foo")])
  = (put (Demo.disk [("hanzo-kbs", inherited_line "foo")]) "hanzo-kbs"
         (Dir (Some (emptied_line "foo")) None), Ok true).
Proof.
  exact (fixer_empties_unknown_dependency Samples.no_escapes "foo" "hanzo-kbs"
           (Demo.disk [("hanzo-kbs", inherited_line "foo")]) None
           eq_refl eq_refl).
Defined.

(** *** publish-hanzo-automated.py *)

(** A manifest that does not hold the text [workspace] is returned by
    [create_fixed_cargo_toml] as it is, whatever the registry, when it
    holds the four metadata keys, and also when it has no authors line and
    either has a description or belongs to a crate whose name holds no
    backslash: the metadata is put behind the authors line and nowhere
    else, so without one none is added.  Where a description has to be
    made for a crate name with a backslash, [re] reads the template for
    escapes, and an exception it raises there is the outcome. *)
Theorem automated_leaves_explicit_manifest :
  forall (escapes : string -> res (string -> option string -> string))
         (published : Dict.t string) (crate_name content : string),
    (contains "workspace" content = false ->
     (contains "authors = " content = false /\
      (contains "description =" content = true \/ plain_name crate_name = true)) \/
     (contains "license =" content = true /\
      contains "repository =" content = true /\
      contains "homepage =" content = true /\
      contains "description =" content = true) ->
     Automated.fixed_content escapes published crate_name content = Ok content) /\
    (forall e,
       contains "description =" content = false ->
       contains "workspace" content = false ->
       contains "authors = " content = false ->
       contains "\" (Automated.described_name crate_name) = true ->
       escapes (Automated.described_name crate_name) = Raise e ->
       Automated.fixed_content escapes published crate_name content = Raise e).
Proof.
  intros escapes published crate_name content. split.
  - apply automated_content_explicit.
  - intros e Hd Hw Ha Hb He. unfold Automated.fixed_content.
    assert (E : forall r repl, needs "workspace" r = true ->
                               sub r repl content = content)
      by (intros r repl Hn; now apply (sub_needs "workspace")).
    rewrite !E by reflexivity.
    rewrite (add_after_authors_none "license =" _ _ Ha).
    rewrite (add_after_authors_none "repository =" _ _ Ha).
    rewrite (add_after_authors_none "homepage =" _ _ Ha).
    unfold Automated.add_description, Automated.description_template.
    now rewrite Hd, Hb, He.
Qed.

Lemma automated_leaves_explicit_manifest_witness :
  Automated.fixed_content Samples.no_escapes Automated.PUBLISHED_HANZO
    "hanzo-did" Samples.explicit_toml = Ok Samples.explicit_toml /\
  Automated.fixed_content Samples.no_escapes Automated.PUBLISHED_HANZO
    "hanzo-\d" "[dependencies]"
  = Raise (Exn "re.error" "bad escape").
Proof.
  destruct (automated_leaves_explicit_manifest Samples.no_escapes
              Automated.PUBLISHED_HANZO "hanzo-did" Samples.explicit_toml)
    as [H _].
  destruct (automated_leaves_explicit_manifest Samples.no_escapes
              Automated.PUBLISHED_HANZO "hanzo-\d" "[dependencies]")
    as [_ H'].
  split.
  - apply H; [reflexivity|]. right. repeat split; reflexivity.
  - apply H'; reflexivity.
Defined.

(** The resolver of publish-hanzo-improved.py is idempotent on the parsed
    document: resolving the document it returned returns that document
    again, entry for entry and in the same order.  (The resolved document
    is a fixed point of every pass: the metadata pass finds no inherited
    field and a description, the workspace table is there, no dotted key
    is left, no declaration is inherited or empty, and the features are
    present.) *)
Theorem resolve_idempotent :
  forall (data data' : dict),
    Improved.resolve data = Ok data' ->
    Improved.resolve data' = Ok data'.
Proof.
  intros data data' H. apply resolved_fixed_point.
  eapply resolve_resolved; eauto.
Qed.

Lemma pqc_doc_resolved : Improved.resolve Demo.pqc_doc = Ok Demo.pqc_resolved.
Proof. vm_compute. reflexivity. Defined.

Lemma resolve_idempotent_witness :
  Improved.resolve Demo.pqc_doc = Ok Demo.pqc_resolved /\
  Improved.resolve Demo.pqc_resolved = Ok Demo.pqc_resolved.
Proof.
  split; [exact pqc_doc_resolved|].
  exact (resolve_idempotent Demo.pqc_doc Demo.pqc_resolved pqc_doc_resolved).
Defined.

(** *** publish-hanzo-improved.py *)

(** [fix_dependencies_table_syntax], when it returns: no dotted key of the
    two sections is left; the keys of the top level other than the two
    sections and the dotted ones keep their values; a document without
    dotted keys is returned as it is; and, the keys being distinct, the
    value of each dotted key is found in its section under the name
    behind the dot, a table that says [workspace = true] as the table of
    its version. *)
Theorem dotted_tables_are_nested :
  forall (data data' : dict),
    Improved.fix_dependencies_table_syntax data = Ok data' ->
    flat data' = true /\
    (forall k, dotted k = false -> k <> "dependencies" ->
               k <> "dev-dependencies" -> Dict.get k data' = Dict.get k data) /\
    (flat data = true -> data' = data) /\
    (NoDup (Dict.keys data) ->
     forall section dep v,
       section = "dependencies" \/ section = "dev-dependencies" ->
       Dict.get (section ++ "." ++ dep) data = Some v ->
       dep_of section dep data' = Some (table_entry dep v) /\
       Dict.get (section ++ "." ++ dep) data' = None).
Proof.
  intros data data' H. split; [exact (tables_flat _ _ H)|].
  split; [intros k Hk H1 H2; exact (tables_get _ _ k H Hk H1 H2)|].
  split.
  - intros Hflat. rewrite (tables_flat_id _ Hflat) in H. now injection H.
  - intros Hnd section dep v Hs Hv.
    exact (tables_land data data' section dep v H Hnd Hs Hv).
Qed.

Lemma dotted_tables_are_nested_witness :
  flat Samples.nested_doc = true /\
  (forall k, dotted k = false -> k <> "dependencies" ->
             k <> "dev-dependencies" ->
             Dict.get k Samples.nested_doc = Dict.get k Samples.dotted_doc) /\
  (flat Samples.dotted_doc = true -> Samples.nested_doc = Samples.dotted_doc) /\
  (NoDup (Dict.keys Samples.dotted_doc) ->
   forall section dep v,
     section = "dependencies" \/ section = "dev-dependencies" ->
     Dict.get (section ++ "." ++ dep) Samples.dotted_doc = Some v ->
     dep_of section dep Samples.nested_doc = Some (table_entry dep v) /\
     Dict.get (section ++ "." ++ dep) Samples.nested_doc = None).
Proof.
  exact (dotted_tables_are_nested Samples.dotted_doc Samples.nested_doc eq_refl).
Defined.

(** The resolver leaves a declaration exactly as it is (sub-fields,
    features and their order) when it neither defers to the workspace nor
    is the empty string, and is not one the feature passes see to.  That
    holds of a reqwest table without a features key, which so stays
    without the json feature, and of chrono and nalgebra under
    [build-dependencies], which stay without theirs. *)
Theorem passed_over_declaration_is_kept :
  forall (data data' : dict) (section name : string) (v : value),
    flat data = true ->
    In section Improved.SECTIONS ->
    Improved.resolve data = Ok data' ->
    dep_of section name data = Some v ->
    passed_over section name v = true ->
    dep_of section name data' = Some v.
Proof.
  intros data data' section name v Hflat Hs Hr Hdep Hp.
  pose proof (resolve_dep_of data data' Hflat Hr section name Hs) as H.
  unfold dep_res in H. rewrite Hdep in H. destruct H as (v' & He & ->).
  unfold passed_over in Hp. apply andb_true_iff in Hp. destruct Hp as [Hf Hc].
  rewrite (resolve_entry_untouched section name v Hf Hc) in He. congruence.
Qed.

Lemma passed_over_declaration_is_kept_witness :
  dep_of "dependencies" "reqwest" Demo.pqc_resolved
  = Some (VDict [("version", VStr "0.11.27")]).
Proof.
  apply (passed_over_declaration_is_kept Demo.pqc_doc Demo.pqc_resolved
           "dependencies" "reqwest" (VDict [("version", VStr "0.11.27")])).
  - reflexivity.
  - simpl. tauto.
  - vm_compute. reflexivity.
  - reflexivity.
  - reflexivity.
Defined.

(** The package table of the resolved document, field by field: of
    version, edition, authors, license, repository and homepage one that
    says [workspace = true] becomes the default and any other stays, an
    absent one stays absent; the description is kept when it is there and
    not empty and is the default else; every other field is as it was. *)
Theorem package_metadata_field_by_field :
  forall (data data' p : dict),
    Improved.resolve data = Ok data' ->
    Dict.get "package" data = Some (VDict p) ->
    exists p',
      Dict.get "package" data' = Some (VDict p') /\
      Dict.get "description" p' = described (Dict.get "description" p) /\
      (forall f, In f Improved.METADATA_FIELDS ->
                 Dict.get f p' = uninherit f (Dict.get f p)) /\
      (forall f, f <> "description" -> ~ In f Improved.METADATA_FIELDS ->
                 Dict.get f p' = Dict.get f p).
Proof.
  intros data data' p Hr Hp. pose proof (resolve_package data data' Hr) as H.
  rewrite Hp in H. exists (metadata p). split; [exact H|].
  split; [now rewrite metadata_get|]. split.
  - intros f Hf. rewrite metadata_get.
    assert (Hd : String.eqb f "description" = false).
    { apply String.eqb_neq. intros ->. revert Hf. simpl. intuition discriminate. }
    rewrite Hd.
    assert (He : existsb (String.eqb f) Improved.METADATA_FIELDS = true).
    { apply existsb_exists. exists f. split; [exact Hf|apply String.eqb_refl]. }
    now rewrite He.
  - intros f Hd Hf. rewrite metadata_get.
    apply String.eqb_neq in Hd. rewrite Hd.
    destruct (existsb (String.eqb f) Improved.METADATA_FIELDS) eqn:He;
      [|reflexivity].
    apply existsb_exists in He. destruct He as (x & Hx & Hfx).
    apply String.eqb_eq in Hfx. subst x. contradiction.
Qed.

Lemma package_metadata_field_by_field_witness :
  exists p',
    Dict.get "package" Demo.pqc_resolved = Some (VDict p') /\
    Dict.get "description" p' = described None /\
    (forall f, In f Improved.METADATA_FIELDS ->
       Dict.get f p' =
       uninherit f (Dict.get f [ ("name", VStr "hanzo_pqc");
                                 ("version", Demo.inherit);
                                 ("edition", Demo.inherit);
                                 ("authors", Demo.inherit) ])) /\
    (forall f, f <> "description" -> ~ In f Improved.METADATA_FIELDS ->
       Dict.get f p' =
       Dict.get f [ ("name", VStr "hanzo_pqc");
                    ("version", Demo.inherit);
                    ("edition", Demo.inherit);
                    ("authors", Demo.inherit) ]).
Proof.
  apply (package_metadata_field_by_field Demo.pqc_doc Demo.pqc_resolved
           [ ("name", VStr "hanzo_pqc"); ("version", Demo.inherit);
             ("edition", Demo.inherit); ("authors", Demo.inherit) ]).
  - vm_compute. reflexivity.
  - reflexivity.
Defined.

(** When the manifest of a crate parses and resolves, [publish_crate] runs
    cargo once, on the text printed from the resolved document; what it
    returns is whether cargo exited with 0; and the manifest reads
    afterwards as before. *)
Theorem cargo_reads_resolved_manifest :
  forall remote cargo toml_loads toml_dumps
         (crate content : string) (data data' : dict) (w : world remote),
    manifest w crate = Some content ->
    toml_loads content = Ok data ->
    Improved.resolve data = Ok data' ->
    let after := Improved.publish_crate remote cargo toml_loads toml_dumps crate w in
    shipped (trace (fst after)) =
      (shipped (trace w) ++ [(crate, Some (toml_dumps data'))])%list /\
    manifest (fst after) crate = Some content /\
    snd after = Ok (fst (answer (snd (fst (cargo (registry w) crate
                                              (Some (toml_dumps data'))))))).
Proof.
  intros remote cargo toml_loads toml_dumps crate content data data' w
         Hm Hl Hr. cbv zeta.
  pose proof (improved_publish_crate_spec remote cargo toml_loads toml_dumps
                crate w) as H.
  destruct (Improved.publish_crate remote cargo toml_loads toml_dumps crate w)
    as [w' r].
  destruct H as (Hsame & _ & _ & _ & Hcase).
  rewrite Hm, Hl in Hcase. cbn [Py.bind] in Hcase. rewrite Hr in Hcase.
  cbv zeta in Hcase.
  destruct (cargo (registry w) crate (Some (toml_dumps data'))) as [[rg p] m].
  destruct Hcase as (-> & Htr & _). cbn [fst snd].
  split; [rewrite Htr, shipped_app; reflexivity|].
  split; [|reflexivity].
  rewrite (same_manifests_manifest _ _ _ Hsame). exact Hm.
Qed.

Lemma cargo_reads_resolved_manifest_witness :
  let after := Improved.publish_crate unit (Demo.cargo_by_crate [])
                 Demo.pqc_loads Demo.toml_dumps "hanzo-pqc" Demo.pqc_world in
  shipped (trace (fst after)) =
    (shipped (trace Demo.pqc_world)
     ++ [("hanzo-pqc", Some (Demo.toml_dumps Demo.pqc_resolved))])%list /\
  manifest (fst after) "hanzo-pqc" = Some Demo.pqc_toml /\
  snd after =
    Ok (fst (answer (snd (fst (Demo.cargo_by_crate [] (registry Demo.pqc_world)
                                 "hanzo-pqc"
                                 (Some (Demo.toml_dumps Demo.pqc_resolved))))))).
Proof.
  apply (cargo_reads_resolved_manifest unit (Demo.cargo_by_crate [])
           Demo.pqc_loads Demo.toml_dumps "hanzo-pqc" Demo.pqc_toml
           Demo.pqc_doc Demo.pqc_resolved Demo.pqc_world).
  - reflexivity.
  - vm_compute. reflexivity.
  - vm_compute. reflexivity.
Defined.

End Further.
